(** * Silent Council: negotiation-and-settlement engine

    A shallow embedding of the council engine (src/lib/council) and
    machine-checked statements of its testable properties.

    Modelling conventions.
    - A JavaScript [number] is an exact rational ([Q]): IEEE rounding error,
      NaN and the infinities are not modelled.  Where the source can only
      produce an integer (the result of [Math.round], a counter) the value
      is a [Z].  The vote tally, whose outcome is the sign of a sum of
      weights, is written over [JsNumber] and read both in exact arithmetic
      and in IEEE 754 doubles (the kernel's binary64 floats).
    - [Math.round x] is [floor (x + 1/2)] (ties go up, as in ECMAScript).
    - [Math.random ()] reads an explicit source ([Js.RandomSource]) that is
      threaded through every function that draws ([Js.Rand]).
    - A thrown [TypeError] is [None].
    - Display-only text (descriptions, narratives, notes, ids made of
      timestamps) is left out of the records; the fields that carry
      control or accounting data are kept under their source names.
    - [Array.prototype.sort] with a comparator is the stable insertion sort
      [Js.sort]; [Map<string, _>] is [gmap string _];
      [Record<AgentId, _>] is a total function on [AgentId]. *)

From Stdlib Require Import ZArith QArith Qround Qabs Qminmax Qfield Lia Lqa List String.
From Stdlib Require Import Floats.
From stdpp Require Import base gmap strings list.
Import ListNotations.

Open Scope Z_scope.

(* ================================================================== *)
(** * Part I: the embedding                                            *)
(* ================================================================== *)

(** ** JavaScript numbers *)

Module Js.

Definition round (x : Q) : Z := Qfloor (x + (1 # 2))%Q.

Definition ltb (x y : Q) : bool := negb (Qle_bool y x).
Definition leb (x y : Q) : bool := Qle_bool x y.
Definition gtb (x y : Q) : bool := ltb y x.
Definition geb (x y : Q) : bool := leb y x.

Definition max (x y : Q) : Q := if ltb x y then y else x.
Definition min (x y : Q) : Q := if ltb y x then y else x.

(** [l.reduce((sum, x) => sum + x, 0)] *)
Definition sumQ (l : list Q) : Q := fold_left Qplus l 0%Q.

(** [Math.max(...l)] and [Math.min(...l)]; [None] is the infinity that the
    empty spread returns. *)
Definition max_list (l : list Q) : option Q :=
  match l with
  | [] => None
  | x :: r => Some (fold_left max r x)
  end.

Definition min_list (l : list Q) : option Q :=
  match l with
  | [] => None
  | x :: r => Some (fold_left min r x)
  end.

(** [l.slice(-n)] *)
Definition slice_last {A} (n : nat) (l : list A) : list A :=
  skipn (length l - n) l.

(** [l.slice(0, n)] *)
Definition slice_first {A} (n : nat) (l : list A) : list A := firstn n l.

(** [[...l].sort(cmp)]: the comparator returns a number; a negative result
    puts its first argument first, and equal elements keep their order. *)
Fixpoint sort_insert {A} (cmp : A -> A -> Q) (x : A) (l : list A) : list A :=
  match l with
  | [] => [x]
  | y :: r => if leb (cmp x y) 0 then x :: y :: r
              else y :: sort_insert cmp x r
  end.

Fixpoint sort {A} (cmp : A -> A -> Q) (l : list A) : list A :=
  match l with
  | [] => []
  | x :: r => sort_insert cmp x (sort cmp r)
  end.

(** [l.find(p)] *)
Definition find {A} (p : A -> bool) (l : list A) : option A := List.find p l.

(** The source of randomness.  [Math.random ()] reads the next value of an
    infinite sequence; the draw is its fractional part, so that it lies in
    [[0, 1)] whatever the sequence is. *)
Definition RandomSource := nat -> Q.

Definition Rand (T : Type) := RandomSource -> T * RandomSource.

Definition ret {T} (x : T) : Rand T := fun src => (x, src).

Definition bind {T U} (c : Rand T) (k : T -> Rand U) : Rand U :=
  fun src => let '(x, src') := c src in k x src'.

Definition frac (q : Q) : Q := (q - inject_Z (Qfloor q))%Q.

Definition random : Rand Q :=
  fun src => (frac (src 0%nat), fun n => src (Datatypes.S n)).

(** [Math.floor(Math.random() * n)] *)
Definition randomIndex (n : Z) : Rand nat :=
  bind random (fun r => ret (Z.to_nat (Qfloor (r * inject_Z n)))).

(** [l.map(f)] when [f] draws. *)
Fixpoint mapM {T U} (f : T -> Rand U) (l : list T) : Rand (list U) :=
  match l with
  | [] => ret []
  | x :: r => bind (f x) (fun y => bind (mapM f r) (fun ys => ret (y :: ys)))
  end.

End Js.

(** The arithmetic of a JavaScript [number].  The code computes with IEEE
    754 doubles ([doubleNumber]); [exactNumber] is the arithmetic of the
    rationals.  A function written over [JsNumber] is the same code read
    in the one or in the other.  A comparison with NaN is false. *)
Class JsNumber (N : Type) := {
  num_zero : N;
  num_add : N -> N -> N;
  num_sub : N -> N -> N;
  num_gtb : N -> N -> bool;
  num_ltb : N -> N -> bool
}.

#[global] Instance exactNumber : JsNumber Q := {|
  num_zero := 0%Q;
  num_add := Qplus;
  num_sub := Qminus;
  num_gtb := Js.gtb;
  num_ltb := Js.ltb
|}.

#[global] Instance doubleNumber : JsNumber float := {|
  num_zero := PrimFloat.zero;
  num_add := PrimFloat.add;
  num_sub := PrimFloat.sub;
  num_gtb := fun x y => PrimFloat.ltb y x;
  num_ltb := PrimFloat.ltb
|}.

(** The rational a finite double stands for. *)
Definition exactValue (x : float) : Q :=
  match Prim2SF x with
  | S754_finite s m e =>
      ((if s then -1 else 1) * inject_Z (Zpos m) * Qpower 2 e)%Q
  | _ => 0%Q
  end.

(** ** types.ts *)

Inductive AgentId := ENTJ | ISFJ | INFJ | ESTP.

#[global] Instance AgentId_eq_dec : EqDecision AgentId.
Proof. solve_decision. Defined.

Definition AgentId_eqb (a b : AgentId) : bool := bool_decide (a = b).

Inductive ResourceCode := TIME | HP | SOC | WLTH.

Record ResourceInventory := {
  inv_TIME : Q; inv_HP : Q; inv_SOC : Q; inv_WLTH : Q
}.

Inductive AgentStatus :=
  IDLE | ACTIVE | SPEAKING | TRADING | VETOING | SANCTIONED | WHISPERING.

Record AgentState := {
  id : AgentId;
  currentWeight : Q;
  resourceInventory : ResourceInventory;
  status : AgentStatus;
  satisfaction : Q;
  influence : Q;
  isSanctioned : bool
}.

Inductive EscrowState := PENDING | FROZEN | RELEASED | BURNED.

#[global] Instance EscrowState_eq_dec : EqDecision EscrowState.
Proof. solve_decision. Defined.

(** The grades [S | A | B | C | D] live in a module of their own: [S] is
    also the successor of [nat]. *)
Module TaskGrade.
Inductive t := S | A | B | C | D.
End TaskGrade.
Abbreviation TaskGrade := TaskGrade.t.

#[global] Instance TaskGrade_eq_dec : EqDecision TaskGrade.
Proof. solve_decision. Defined.

Inductive DigitalTaskCategory :=
  SLEEP_AI | WORK_AI | ENTERTAIN_AI | SOCIAL_AI | SAVINGS_AI
| GAMING_AI | HEALTH_AI | LEARNING_AI | SYSTEM_CAT.

Inductive ModelTier := gpt_4o | gpt_4o_mini | rule_based.

Record ScheduleBlock := {
  block_id : string;
  category : DigitalTaskCategory;
  taskName : string;
  tokenCost : Q;
  modelTier : ModelTier;
  isDeadline : bool;
  isLocked : bool;
  ownerAgent : AgentId;
  escrowState : option EscrowState;
  finalGrade : option TaskGrade
}.

Record UserProfile := {
  mbtiType : option string;
  rigidityCoefficient : Q
}.

(** [TaskLevelCosts]: the four [cost] fields. *)
Record TaskLevelCosts := {
  cost_C : Z; cost_B : Z; cost_A : Z; cost_S : Z
}.

Definition LEVEL_COST_MULTIPLIERS (g : TaskGrade) : Q :=
  match g with
  | TaskGrade.D => 0
  | TaskGrade.C => 2 # 10
  | TaskGrade.B => 5 # 10
  | TaskGrade.A => 1
  | TaskGrade.S => 2
  end%Q.

Definition getTaskLevelCosts (baseTokenCost : Q) : TaskLevelCosts :=
  {| cost_C := Js.round (baseTokenCost * (2 # 10));
     cost_B := Js.round (baseTokenCost * (5 # 10));
     cost_A := Js.round (baseTokenCost * 1);
     cost_S := Js.round (baseTokenCost * 2) |}.

Module RNG.
Inductive RNGResultType :=
  CRITICAL_SUCCESS | SUCCESS | BARELY_PASSED | CRITICAL_FAIL.
End RNG.
Abbreviation RNGResultType := RNG.RNGResultType.

#[global] Instance RNGResultType_eq_dec : EqDecision RNGResultType.
Proof. solve_decision. Defined.

(** [statChanges] of an [RNGResult]: only [HP] and [SOC] are ever set. *)
Record RNGStatChanges := { rng_HP : option Z; rng_SOC : option Z }.

Record RNGResult := {
  rng_type : RNGResultType;
  rng_score : Z;
  rng_luck : Q;
  rng_statChanges : RNGStatChanges;
  rng_narrative : nat   (* index into RNG_NARRATIVES[type] *)
}.

Definition RNG_THRESHOLDS_criticalSuccess : Q := 15 # 10.
Definition RNG_THRESHOLDS_success : Q := 5 # 10.
Definition RNG_THRESHOLDS_barelyPassed : Q := 0.

(** Lengths of the text pools the engine draws an index from. *)
Definition RNG_NARRATIVES_length (t : RNGResultType) : Z :=
  match t with
  | RNG.CRITICAL_SUCCESS => 4
  | _ => 3
  end.

Record TradeOffer := {
  offer_taskId : string;
  downgradeFrom : TaskGrade;
  downgradeTo : TaskGrade;
  tokenFreed : Z
}.

Record TradeDemand := {
  demand_taskId : string;
  upgradeFrom : TaskGrade;
  upgradeTo : TaskGrade;
  tokenNeeded : Z
}.

Record TradeProposal := {
  sourceAgent : AgentId;
  targetAgent : AgentId;
  offer : TradeOffer;
  demand : TradeDemand;
  riskScore : Q;
  benefitScore : Q;
  accepted : bool
}.

Record CollapseResult := {
  cr_taskId : string;
  cr_ownerAgent : AgentId;
  cr_category : option DigitalTaskCategory;
  initialGrade : TaskGrade;
  cr_finalGrade : TaskGrade;
  tokenInvested : Q;
  levelCosts : TaskLevelCosts;
  tradedWith : option AgentId;
  cr_isDeadline : bool
}.

Module LogType.
Inductive t :=
  SYSTEM | SPEECH | PROPOSAL | COUNTER | VETO | CONSENSUS
| NARRATION | WHISPER | BOTTOM_LINE_ALERT.
End LogType.
Abbreviation LogType := LogType.t.

Record CouncilLogEntry := {
  agentId : option AgentId;
  log_type : LogType;
  log_targetAgent : option AgentId   (* metadata.targetAgent *)
}.

Inductive SessionStatus := SESSION_ACTIVE | CONCLUDED | SESSION_DEADLOCKED.

#[global] Instance SessionStatus_eq_dec : EqDecision SessionStatus.
Proof. solve_decision. Defined.

(** ** agents.ts *)

Definition ALL_AGENT_IDS : list AgentId := [ENTJ; ISFJ; INFJ; ESTP].

Definition DEFAULT_RESOURCE_INVENTORY : ResourceInventory :=
  {| inv_TIME := 16; inv_HP := 100; inv_SOC := 50; inv_WLTH := 500 |}.

Definition createDefaultAgentState (a : AgentId) : AgentState :=
  {| id := a;
     currentWeight := 1;
     resourceInventory := DEFAULT_RESOURCE_INVENTORY;
     status := IDLE;
     satisfaction := 50;
     influence := 25;
     isSanctioned := false |}.

Definition createAllAgentStates : list AgentState :=
  List.map createDefaultAgentState ALL_AGENT_IDS.

(** ** schedule-engine.ts: escrow operations *)

Definition set_escrow (b : ScheduleBlock) (e : option EscrowState) : ScheduleBlock :=
  {| block_id := block_id b; category := category b; taskName := taskName b;
     tokenCost := tokenCost b; modelTier := modelTier b;
     isDeadline := isDeadline b; isLocked := isLocked b;
     ownerAgent := ownerAgent b; escrowState := e;
     finalGrade := finalGrade b |}.

Definition freezeEscrow (blocks : list ScheduleBlock) : list ScheduleBlock :=
  List.map (fun b =>
    set_escrow b
      (match escrowState b with
       | Some RELEASED => escrowState b
       | Some BURNED => escrowState b
       | _ => Some FROZEN
       end)) blocks.

Definition releaseEscrow_gradeMultiplier (g : TaskGrade) : Q :=
  match g with
  | TaskGrade.S => 2
  | TaskGrade.A => 15 # 10
  | TaskGrade.B => 1
  | TaskGrade.C => 5 # 10
  | TaskGrade.D => 0
  end%Q.

Definition releaseEscrow (block : ScheduleBlock) (grade : TaskGrade) : ScheduleBlock :=
  {| block_id := block_id block; category := category block;
     taskName := taskName block;
     tokenCost :=
       inject_Z (Js.round (tokenCost block * releaseEscrow_gradeMultiplier grade));
     modelTier := modelTier block;
     isDeadline := isDeadline block; isLocked := isLocked block;
     ownerAgent := ownerAgent block;
     escrowState := Some RELEASED;
     finalGrade := Some grade |}.

(** One escrow operation applied to a single block, and a run of them. *)
Inductive EscrowOp := OpFreeze | OpRelease (grade : TaskGrade).

Definition applyEscrowOp (op : EscrowOp) (b : ScheduleBlock) : ScheduleBlock :=
  match op with
  | OpFreeze => match freezeEscrow [b] with
                | b' :: _ => b'
                | [] => b
                end
  | OpRelease g => releaseEscrow b g
  end.

Definition applyEscrowOps (ops : list EscrowOp) (b : ScheduleBlock) : ScheduleBlock :=
  fold_left (fun blk op => applyEscrowOp op blk) ops b.

(** ** negotiation-engine.ts *)

Module Vote.
Inductive t := APPROVE | REJECT | ABSTAIN | VETO.
End Vote.
Abbreviation Vote := Vote.t.

#[global] Instance Vote_eq_dec : EqDecision Vote.
Proof. solve_decision. Defined.

(** The entries and the result of a vote, over the numbers [N] of the
    weights; [VoteEntry] and [VoteResult] are those of exact arithmetic. *)
Record VoteEntryOf {N : Type} := { vote : Vote; weight : N }.

Abbreviation VoteEntry := (@VoteEntryOf Q).

Inductive VoteOutcome := APPROVED | REJECTED | VETOED | DEADLOCKED.

Record VoteResultOf {N : Type} := {
  proposalId : string;
  votes : list (AgentId * @VoteEntryOf N);
  result : VoteOutcome;
  vetoAgent : option AgentId;
  approvalScore : N;
  totalWeight : N
}.

Abbreviation VoteResult := (@VoteResultOf Q).

(** The loop state of [tallyVotes]: [approvalScore], [totalWeight] and
    [vetoAgent], updated once for each entry of [Object.entries(votes)]. *)
Record TallyStateOf {N : Type} := {
  ts_approvalScore : N;
  ts_totalWeight : N;
  ts_vetoAgent : option AgentId
}.

Abbreviation TallyState := (@TallyStateOf Q).

Definition tallyStep {N : Type} `{JsNumber N} (st : @TallyStateOf N)
    (e : AgentId * @VoteEntryOf N) : @TallyStateOf N :=
  let '(agent, v) := e in
  let totalWeight' := num_add (ts_totalWeight st) (weight v) in
  match vote v with
  | Vote.VETO =>
      {| ts_approvalScore := ts_approvalScore st;
         ts_totalWeight := totalWeight';
         ts_vetoAgent := Some agent |}
  | Vote.APPROVE =>
      {| ts_approvalScore := num_add (ts_approvalScore st) (weight v);
         ts_totalWeight := totalWeight';
         ts_vetoAgent := ts_vetoAgent st |}
  | Vote.REJECT =>
      {| ts_approvalScore := num_sub (ts_approvalScore st) (weight v);
         ts_totalWeight := totalWeight';
         ts_vetoAgent := ts_vetoAgent st |}
  | Vote.ABSTAIN =>
      {| ts_approvalScore := ts_approvalScore st;
         ts_totalWeight := totalWeight';
         ts_vetoAgent := ts_vetoAgent st |}
  end.

Definition tallyVotes {N : Type} `{JsNumber N}
    (votes : list (AgentId * @VoteEntryOf N)) (proposalId : string)
  : @VoteResultOf N :=
  let st := fold_left tallyStep votes
              {| ts_approvalScore := num_zero; ts_totalWeight := num_zero;
                 ts_vetoAgent := None |} in
  let result :=
    match ts_vetoAgent st with
    | Some _ => VETOED
    | None =>
        if num_gtb (ts_approvalScore st) num_zero then APPROVED
        else if num_ltb (ts_approvalScore st) num_zero then REJECTED
        else DEADLOCKED
    end in
  {| proposalId := proposalId;
     votes := votes;
     result := result;
     vetoAgent := ts_vetoAgent st;
     approvalScore := ts_approvalScore st;
     totalWeight := ts_totalWeight st |}.

(** The message of [forceConvergence], kept as the data it is printed from. *)
Inductive ConvergenceAction :=
| NoAction
| Equilibrium (round : Z) (variance : Q) (dominant : AgentId) (w : Q)
| MaxRoundsReached (round : Z) (dominant : AgentId) (w : Q).

Record ConvergenceResult := {
  shouldForce : bool;
  convergenceAction : ConvergenceAction
}.

(** The comparator of both dominance sorts: weight descending, then
    satisfaction descending. *)
Definition dominanceCmp (a b : AgentState) : Q :=
  let wDiff := (currentWeight b - currentWeight a)%Q in
  if Qeq_bool wDiff 0 then (satisfaction b - satisfaction a)%Q else wDiff.

(** [variance < 15 && (maxSat - minSat) < 20]; with no agent the average is
    [0/0 = NaN] and the first comparison is false. *)
Definition satisfactionVariance (satisfactions : list Q) : Q :=
  let n := inject_Z (Z.of_nat (length satisfactions)) in
  let avgSat := (Js.sumQ satisfactions / n)%Q in
  (Js.sumQ (List.map (fun s => (s - avgSat) * (s - avgSat)) satisfactions) / n)%Q.

Definition satisfactionStable (satisfactions : list Q) : bool :=
  match Js.max_list satisfactions, Js.min_list satisfactions with
  | Some maxSat, Some minSat =>
      Js.ltb (satisfactionVariance satisfactions) 15
      && Js.ltb (maxSat - minSat) 20
  | _, _ => false
  end.

Definition findAgent (a : AgentId) (l : list AgentState) : option AgentState :=
  Js.find (fun p => AgentId_eqb (id p) a) l.

Definition weightStable (agentStates : list AgentState)
    (previousStates : option (list AgentState)) : bool :=
  match previousStates with
  | Some prevs =>
      if Nat.eqb (length prevs) (length agentStates) then
        match Js.max_list
                (List.map (fun curr =>
                   match findAgent (id curr) prevs with
                   | Some prev => Qabs (currentWeight curr - currentWeight prev)
                   | None => 1%Q
                   end) agentStates) with
        | Some maxWeightChange => Js.ltb maxWeightChange (15 # 100)
        | None => true   (* Math.max() = -Infinity *)
        end
      else false
  | None => false
  end.

Definition forceConvergence (agentStates : list AgentState) (round : Z)
    (maxRounds : Z) (minRounds : Z) (previousStates : option (list AgentState))
  : option ConvergenceResult :=
  if round <? minRounds then
    Some {| shouldForce := false; convergenceAction := NoAction |}
  else if round <? maxRounds then
    let satisfactions := List.map satisfaction agentStates in
    if satisfactionStable satisfactions && weightStable agentStates previousStates
    then
      match Js.sort dominanceCmp agentStates with
      | dominant :: _ =>
          Some {| shouldForce := true;
                  convergenceAction :=
                    Equilibrium round (satisfactionVariance satisfactions)
                                (id dominant) (currentWeight dominant) |}
      | [] => None
      end
    else Some {| shouldForce := false; convergenceAction := NoAction |}
  else
    match Js.sort dominanceCmp agentStates with
    | dominant :: _ =>
        Some {| shouldForce := true;
                convergenceAction :=
                  MaxRoundsReached round (id dominant) (currentWeight dominant) |}
    | [] => None
    end.

(** ** theater-engine.ts *)

Inductive SpeakerReason := HotTopic | Rotation.

Record SpeakerSelection := {
  speaker : option AgentId;   (* [None]: [allIds] indexed out of range *)
  reason : SpeakerReason
}.

Definition allIds : list AgentId := [ENTJ; ISFJ; INFJ; ESTP].

Definition includes (l : list AgentId) (a : option AgentId) : bool :=
  match a with
  | Some x => existsb (AgentId_eqb x) l
  | None => false
  end.

(** [allIds[i]] for a numeric index. *)
Definition allIds_at (i : Z) : option AgentId :=
  if i <? 0 then None else nth_error allIds (Z.to_nat i).

(** Insertion into a [Set<AgentId>], kept in insertion order. *)
Definition set_add (s : list AgentId) (a : AgentId) : list AgentId :=
  if existsb (AgentId_eqb a) s then s else s ++ [a].

Definition isConflictType (t : LogType) : bool :=
  match t with
  | LogType.COUNTER | LogType.VETO => true
  | _ => false
  end.

Definition selectSpeakerForTick (tick : Z) (agentStates : list AgentState)
    (recentLogs : list CouncilLogEntry) : SpeakerSelection :=
  let baseIdx := Z.rem tick (Z.of_nat (length allIds)) in
  let speaker0 := allIds_at baseIdx in
  let recentSpeakers :=
    omap agentId (Js.slice_last 2 recentLogs) in
  let speaker1 :=
    if includes recentSpeakers speaker0
    then allIds_at (Z.rem (baseIdx + 1) (Z.of_nat (length allIds)))
    else speaker0 in
  let fallback := {| speaker := speaker1; reason := Rotation |} in
  if Z.rem tick 7 =? 0 then
    let recentConflicts := Js.slice_last 6 recentLogs in
    let conflictAgents :=
      fold_left (fun s log =>
        match agentId log with
        | Some a => if isConflictType (log_type log) then set_add s a else s
        | None => s
        end) recentConflicts [] in
    if (0 <? Z.of_nat (length conflictAgents))
       && negb (includes recentSpeakers speaker1) then
      match Js.find (fun a => negb (includes recentSpeakers (Some a)))
                    conflictAgents with
      | Some conflictSpeaker =>
          {| speaker := Some conflictSpeaker; reason := HotTopic |}
      | None => fallback
      end
    else fallback
  else fallback.

Inductive Urgency := low | medium | high.

Record TickPacing := {
  allowNarration : bool;
  forceAction : bool;
  tickDelayMs : Z;
  urgency : Urgency
}.

Definition getTickPacing (tick maxTicks : Z) : TickPacing :=
  let progress := (inject_Z tick / inject_Z maxTicks)%Q in
  if Js.ltb progress (33 # 100) then
    {| allowNarration := true; forceAction := false;
       tickDelayMs := 2500; urgency := low |}
  else if Js.ltb progress (66 # 100) then
    {| allowNarration := Z.rem tick 3 =? 0; forceAction := false;
       tickDelayMs := 2000; urgency := medium |}
  else
    {| allowNarration := false; forceAction := true;
       tickDelayMs := 1500; urgency := high |}.

(** Whether [buildUrgencyMessage] returns a non-empty message. *)
Definition buildUrgencyMessage_nonempty (tick maxTicks : Z) : bool :=
  let remaining := maxTicks - tick in
  (remaining <=? 3) || (remaining <=? 8).

(** [TheaterClock.maxTickRounds] for [DEFAULT_THEATER_CONFIG]:
    [Math.floor(240_000 / 2_000)]. *)
Definition maxTickRounds : Z := 240000 / 2000.

(** ** collapse-engine.ts *)

Record CouncilContext := {
  currentRound : Z;
  agentStates : list AgentState;
  recentLogs : list CouncilLogEntry;
  userProfile : UserProfile;
  scheduleBlocks : option (list ScheduleBlock)
}.

Record TaskMeta := {
  block : ScheduleBlock;
  tm_levelCosts : TaskLevelCosts;
  tm_ownerAgent : AgentId
}.

Record GradeInfo := { grade : TaskGrade; tokenSpent : Z }.

(** [Record<AgentId, T>] with the assignment [r[a] = v]. *)
Definition upd {T} (r : AgentId -> T) (a : AgentId) (v : T) : AgentId -> T :=
  fun x => if decide (x = a) then v else r x.

Definition gradeRank (g : TaskGrade) : Z :=
  match g with
  | TaskGrade.S => 4
  | TaskGrade.A => 3
  | TaskGrade.B => 2
  | TaskGrade.C => 1
  | TaskGrade.D => 0
  end.

Definition lowerGrade (g : TaskGrade) : TaskGrade :=
  match g with
  | TaskGrade.S => TaskGrade.A
  | TaskGrade.A => TaskGrade.B
  | TaskGrade.B => TaskGrade.C
  | TaskGrade.C => TaskGrade.D
  | TaskGrade.D => TaskGrade.D
  end.

Definition raiseGrade (g : TaskGrade) : TaskGrade :=
  match g with
  | TaskGrade.D => TaskGrade.C
  | TaskGrade.C => TaskGrade.B
  | TaskGrade.B => TaskGrade.A
  | TaskGrade.A => TaskGrade.S
  | TaskGrade.S => TaskGrade.S
  end.

(** [levelCosts[g].cost]; the table has no entry for [D]. *)
Definition levelCost (lc : TaskLevelCosts) (g : TaskGrade) : option Z :=
  match g with
  | TaskGrade.S => Some (cost_S lc)
  | TaskGrade.A => Some (cost_A lc)
  | TaskGrade.B => Some (cost_B lc)
  | TaskGrade.C => Some (cost_C lc)
  | TaskGrade.D => None
  end.

Definition calculateAgentBudgets (agents : list AgentState) (totalBudget : Q)
  : AgentId -> Z :=
  let sum := Js.sumQ (List.map currentWeight agents) in
  let totalWeight := if Qeq_bool sum 0 then 1%Q else sum in
  fold_left (fun budgets agent =>
    let satMultiplier := ((5 # 10) + (satisfaction agent / 100) * (5 # 10))%Q in
    let weightRatio := (currentWeight agent / totalWeight)%Q in
    upd budgets (id agent)
        (Js.round (totalBudget * weightRatio * satMultiplier)))
    agents (fun _ => 0).

Record GradeAllocationResult := {
  grades : gmap string GradeInfo;
  remaining : Z
}.

(** Deadline tasks first, then the more expensive ones. *)
Definition allocationCmp (a b : TaskMeta) : Q :=
  if isDeadline (block a) && negb (isDeadline (block b)) then (-1)%Q
  else if negb (isDeadline (block a)) && isDeadline (block b) then 1%Q
  else (tokenCost (block b) - tokenCost (block a))%Q.

Definition allocateStep (acc : GradeAllocationResult) (tm : TaskMeta)
  : GradeAllocationResult :=
  let costs := tm_levelCosts tm in
  let key := block_id (block tm) in
  let rem := remaining acc in
  if cost_S costs <=? rem then
    {| grades := <[key := {| grade := TaskGrade.S; tokenSpent := cost_S costs |}]> (grades acc);
       remaining := rem - cost_S costs |}
  else if cost_A costs <=? rem then
    {| grades := <[key := {| grade := TaskGrade.A; tokenSpent := cost_A costs |}]> (grades acc);
       remaining := rem - cost_A costs |}
  else if cost_B costs <=? rem then
    {| grades := <[key := {| grade := TaskGrade.B; tokenSpent := cost_B costs |}]> (grades acc);
       remaining := rem - cost_B costs |}
  else if cost_C costs <=? rem then
    {| grades := <[key := {| grade := TaskGrade.C; tokenSpent := cost_C costs |}]> (grades acc);
       remaining := rem - cost_C costs |}
  else
    {| grades := <[key := {| grade := TaskGrade.D; tokenSpent := 0 |}]> (grades acc);
       remaining := rem |}.

Definition allocateGradesForAgent (tasks : list TaskMeta) (budget : Z)
  : GradeAllocationResult :=
  let sorted := Js.sort allocationCmp tasks in
  fold_left allocateStep sorted {| grades := ∅; remaining := budget |}.

(** [s.includes(c)] for a one-character needle. *)
Fixpoint string_includes (s : string) (c : Ascii.ascii) : bool :=
  match s with
  | EmptyString => false
  | String x r => if Ascii.eqb x c then true else string_includes r c
  end.

Definition getAgentAffinity (agent : AgentId) (profile : UserProfile) : Q :=
  let mbti := match mbtiType profile with
              | Some s => s
              | None => EmptyString
              end in
  let has (c : string) (v : Q) : Q :=
    match c with
    | String x _ => if string_includes mbti x then v else 0%Q
    | EmptyString => 0%Q
    end in
  match agent with
  | ENTJ => has "J"%string (4 # 10) + has "T"%string (3 # 10) + (3 # 10)
  | ISFJ => has "S"%string (4 # 10) + has "I"%string (3 # 10) + (3 # 10)
  | INFJ => has "F"%string (4 # 10) + has "E"%string (3 # 10) + (3 # 10)
  | ESTP => has "P"%string (5 # 10) + (3 # 10)
  end%Q.

Definition calculateTradeRisk (agent : AgentId) (blk : ScheduleBlock)
    (fromGrade toGrade : TaskGrade) (profile : UserProfile) : Q :=
  let risk := 0%Q in
  let risk := (risk + inject_Z ((gradeRank fromGrade - gradeRank toGrade) * 20))%Q in
  let risk := if isDeadline blk then (risk + 100)%Q else risk in
  let agentAffinity := getAgentAffinity agent profile in
  let risk := (risk + agentAffinity * 15)%Q in
  let risk := (risk + Js.min 30 (tokenCost blk / 50))%Q in
  risk.

Definition calculateTradeBenefit (agent : AgentId)
    (fromGrade toGrade : TaskGrade) (profile : UserProfile) : Q :=
  let benefit := 0%Q in
  let benefit := (benefit + inject_Z ((gradeRank toGrade - gradeRank fromGrade) * 25))%Q in
  let agentAffinity := getAgentAffinity agent profile in
  let benefit := (benefit + agentAffinity * 20)%Q in
  let benefit :=
    if AgentId_eqb agent ENTJ && Js.gtb (rigidityCoefficient profile) (6 # 10)
    then (benefit + 20)%Q else benefit in
  let benefit :=
    if AgentId_eqb agent ESTP && Js.ltb (rigidityCoefficient profile) (4 # 10)
    then (benefit + 15)%Q else benefit in
  benefit.

(** The inner loop of [attemptP2PTrade]: the first task of the partner
    that can be downgraded with more benefit than risk. *)
Fixpoint tradeWithPartner (requestingAgent : AgentId) (targetTaskId : string)
    (currentGrade desiredGrade : TaskGrade) (neededTokens : Z)
    (currentGrades : gmap string GradeInfo) (profile : UserProfile)
    (partnerAgent : AgentId) (partnerTasks : list TaskMeta)
  : option TradeProposal :=
  match partnerTasks with
  | [] => None
  | pt :: rest =>
      let continue :=
        tradeWithPartner requestingAgent targetTaskId currentGrade desiredGrade
          neededTokens currentGrades profile partnerAgent rest in
      if isDeadline (block pt) then continue
      else
        match currentGrades !! block_id (block pt) with
        | None => continue
        | Some ptGrade =>
            if gradeRank (grade ptGrade) <=? gradeRank TaskGrade.C then continue
            else
              let downgradeTarget := lowerGrade (grade ptGrade) in
              match levelCost (tm_levelCosts pt) downgradeTarget with
              | None => continue   (* downgradeTarget === 'D' *)
              | Some c =>
                  let tokenFreed := tokenSpent ptGrade - c in
                  if Js.ltb (inject_Z tokenFreed)
                            (inject_Z neededTokens * (5 # 10))
                  then continue
                  else
                    let riskScore :=
                      calculateTradeRisk partnerAgent (block pt)
                        (grade ptGrade) downgradeTarget profile in
                    let benefitScore :=
                      calculateTradeBenefit requestingAgent currentGrade
                        desiredGrade profile in
                    if Js.gtb benefitScore riskScore then
                      Some {| sourceAgent := requestingAgent;
                              targetAgent := partnerAgent;
                              offer := {| offer_taskId := block_id (block pt);
                                          downgradeFrom := grade ptGrade;
                                          downgradeTo := downgradeTarget;
                                          tokenFreed := tokenFreed |};
                              demand := {| demand_taskId := targetTaskId;
                                           upgradeFrom := currentGrade;
                                           upgradeTo := desiredGrade;
                                           tokenNeeded := neededTokens |};
                              riskScore := riskScore;
                              benefitScore := benefitScore;
                              accepted := true |}
                    else continue
              end
        end
  end.

Fixpoint tradeAmongCandidates (requestingAgent : AgentId) (targetTaskId : string)
    (currentGrade desiredGrade : TaskGrade) (neededTokens : Z)
    (agentTasks : AgentId -> list TaskMeta)
    (currentGrades : gmap string GradeInfo) (profile : UserProfile)
    (candidates : list AgentId) : option TradeProposal :=
  match candidates with
  | [] => None
  | partnerAgent :: rest =>
      match tradeWithPartner requestingAgent targetTaskId currentGrade
              desiredGrade neededTokens currentGrades profile partnerAgent
              (agentTasks partnerAgent) with
      | Some t => Some t
      | None =>
          tradeAmongCandidates requestingAgent targetTaskId currentGrade
            desiredGrade neededTokens agentTasks currentGrades profile rest
      end
  end.

Definition attemptP2PTrade (requestingAgent : AgentId) (targetTaskId : string)
    (currentGrade desiredGrade : TaskGrade) (neededTokens : Z)
    (agentRemaining : AgentId -> Z) (agentTasks : AgentId -> list TaskMeta)
    (currentGrades : gmap string GradeInfo) (profile : UserProfile)
  : option TradeProposal :=
  let candidates :=
    Js.sort (fun a b => inject_Z (agentRemaining b - agentRemaining a))
      (List.filter (fun a => negb (AgentId_eqb a requestingAgent)
                             && (0 <? agentRemaining a))
                   ALL_AGENT_IDS) in
  tradeAmongCandidates requestingAgent targetTaskId currentGrade desiredGrade
    neededTokens agentTasks currentGrades profile candidates.

(** The mutable state of the trade pass (step 5 of [collapseAllTasks]). *)
Record TradeState := {
  trades : list TradeProposal;
  adjustedGrades : gmap string GradeInfo;
  agentRemaining : AgentId -> Z
}.

(** What an accepted trade does to the grade map and the remaining
    budgets. *)
Definition applyTradeResult (st : TradeState) (current : GradeInfo)
    (trade : TradeProposal) : TradeState :=
  let g1 :=
    <[demand_taskId (demand trade) :=
        {| grade := upgradeTo (demand trade);
           tokenSpent := tokenSpent current + tokenNeeded (demand trade) |}]>
      (adjustedGrades st) in
  let offerSpent :=
    match g1 !! offer_taskId (offer trade) with
    | Some gi => tokenSpent gi     (* [x || 0] is [x] also when [x] is 0 *)
    | None => 0
    end in
  let g2 :=
    <[offer_taskId (offer trade) :=
        {| grade := downgradeTo (offer trade);
           tokenSpent :=
             Js.round (inject_Z (offerSpent - tokenFreed (offer trade))) |}]> g1 in
  let src := sourceAgent trade in
  let r1 := upd (agentRemaining st) src
                (agentRemaining st src + tokenFreed (offer trade)) in
  let r2 := upd r1 src (r1 src - tokenNeeded (demand trade)) in
  {| trades := trades st ++ [trade];
     adjustedGrades := g2;
     agentRemaining := r2 |}.

(** The body of the inner loop: one task of the requesting agent. *)
Definition tradeStepTask (agentId : AgentId) (state : AgentState)
    (agentTasks : AgentId -> list TaskMeta)
    (profile : UserProfile) (st : TradeState) (tm : TaskMeta) : TradeState :=
  match adjustedGrades st !! block_id (block tm) with
  | None => st
  | Some current =>
      let wantsUpgrade :=
        Js.gtb (satisfaction state) 60
        && (gradeRank (grade current) <? gradeRank TaskGrade.B) in
      if negb wantsUpgrade then st
      else
        let upgradeCost := cost_B (tm_levelCosts tm) - tokenSpent current in
        if upgradeCost <=? 0 then st
        else
          match attemptP2PTrade agentId (block_id (block tm))
                  (grade current) TaskGrade.B upgradeCost
                  (agentRemaining st) agentTasks (adjustedGrades st) profile with
          | Some trade => applyTradeResult st current trade
          | None => st
          end
  end.

(** The body of the outer loop: one agent of [ALL_AGENT_IDS]. *)
Definition tradeStepAgent (ctx : CouncilContext)
    (agentTasks : AgentId -> list TaskMeta) (st : TradeState) (a : AgentId)
  : TradeState :=
  match findAgent a (agentStates ctx) with
  | None => st
  | Some state =>
      fold_left (tradeStepTask a state agentTasks (userProfile ctx))
                (agentTasks a) st
  end.

Definition makeTaskMeta (blocks : list ScheduleBlock) : list TaskMeta :=
  List.map (fun b => {| block := b;
                        tm_levelCosts := getTaskLevelCosts (tokenCost b);
                        tm_ownerAgent := ownerAgent b |}) blocks.

(** [agentTasks[a]]: the tasks of [a], in the order of [taskMeta]. *)
Definition groupByOwner (taskMeta : list TaskMeta) (a : AgentId) : list TaskMeta :=
  List.filter (fun tm => AgentId_eqb (tm_ownerAgent tm) a) taskMeta.

(** Step 4: every agent allocates grades to its tasks from its budget. *)
Record InitialAllocation := {
  initialGrades : gmap string GradeInfo;
  initialRemaining : AgentId -> Z
}.

Definition initialAllocationStep (agentBudgets : AgentId -> Z)
    (agentTasks : AgentId -> list TaskMeta) (acc : InitialAllocation)
    (a : AgentId) : InitialAllocation :=
  let allocation := allocateGradesForAgent (agentTasks a) (agentBudgets a) in
  {| initialGrades := grades allocation ∪ initialGrades acc;
     initialRemaining := upd (initialRemaining acc) a (remaining allocation) |}.

Definition initialAllocation (agentBudgets : AgentId -> Z)
    (agentTasks : AgentId -> list TaskMeta) : InitialAllocation :=
  fold_left (initialAllocationStep agentBudgets agentTasks) ALL_AGENT_IDS
    {| initialGrades := ∅; initialRemaining := fun _ => 0 |}.

Definition tradeMentions (taskId : string) (t : TradeProposal) : bool :=
  String.eqb (demand_taskId (demand t)) taskId
  || String.eqb (offer_taskId (offer t)) taskId.

Definition buildCollapseResult (initial adjusted : gmap string GradeInfo)
    (trades : list TradeProposal) (tm : TaskMeta) : CollapseResult :=
  let key := block_id (block tm) in
  let gradeInfo := default {| grade := TaskGrade.C; tokenSpent := 0 |}
                           (adjusted !! key) in
  let trade := Js.find (tradeMentions key) trades in
  {| cr_taskId := key;
     cr_ownerAgent := tm_ownerAgent tm;
     cr_category := Some (category (block tm));
     initialGrade := match initial !! key with
                     | Some gi => grade gi
                     | None => TaskGrade.C
                     end;
     cr_finalGrade := grade gradeInfo;
     tokenInvested := inject_Z (tokenSpent gradeInfo);
     levelCosts := tm_levelCosts tm;
     tradedWith :=
       match trade with
       | Some t => Some (if AgentId_eqb (sourceAgent t) (tm_ownerAgent tm)
                         then targetAgent t else sourceAgent t)
       | None => None
       end;
     cr_isDeadline := isDeadline (block tm) |}.

Record CollapseOutput := {
  results : list CollapseResult;
  out_trades : list TradeProposal
}.

Definition collapseAllTasks (ctx : CouncilContext) (blocks : list ScheduleBlock)
    (totalBudget : Q) : CollapseOutput :=
  let agentBudgets := calculateAgentBudgets (agentStates ctx) totalBudget in
  let taskMeta := makeTaskMeta blocks in
  let agentTasks := groupByOwner taskMeta in
  let init := initialAllocation agentBudgets agentTasks in
  let final :=
    fold_left (tradeStepAgent ctx agentTasks) ALL_AGENT_IDS
      {| trades := [];
         adjustedGrades := initialGrades init;
         agentRemaining := initialRemaining init |} in
  {| results := List.map (buildCollapseResult (initialGrades init)
                            (adjustedGrades final) (trades final)) taskMeta;
     out_trades := trades final |}.

Definition agentName (a : AgentId) : string :=
  match a with
  | ENTJ => "ENTJ" | ISFJ => "ISFJ" | INFJ => "INFJ" | ESTP => "ESTP"
  end%string.

Definition collapseFromAgentStates (ctx : CouncilContext) : list CollapseResult :=
  List.map (fun agent =>
    let weight := currentWeight agent in
    let sat := satisfaction agent in
    let composite := ((weight / 4 * 50) + (sat / 100 * 50))%Q in
    let grade :=
      if Js.geb composite 80 then TaskGrade.S
      else if Js.geb composite 60 then TaskGrade.A
      else if Js.geb composite 40 then TaskGrade.B
      else if Js.geb composite 20 then TaskGrade.C
      else TaskGrade.D in
    let tokenInvested := Js.round (currentWeight agent * 25) in
    let baseCost := tokenInvested * 2 in
    {| cr_taskId := ("agent_task_" ++ agentName (id agent))%string;
       cr_ownerAgent := id agent;
       cr_category := None;
       initialGrade := grade;
       cr_finalGrade := grade;
       tokenInvested := inject_Z tokenInvested;
       levelCosts := getTaskLevelCosts (inject_Z baseCost);
       tradedWith := None;
       cr_isDeadline := false |}) (agentStates ctx).

Inductive CollapseError :=
| InvalidGrade (taskId : string)
| DeadlineAtD (taskId : string)
| NegativeInvestment (taskId : string).

Definition validateOne (r : CollapseResult) : list CollapseError :=
  (if gradeRank (cr_finalGrade r) <? 0 then [InvalidGrade (cr_taskId r)] else [])
  ++ (if cr_isDeadline r && bool_decide (cr_finalGrade r = TaskGrade.D)
      then [DeadlineAtD (cr_taskId r)] else [])
  ++ (if Js.ltb (tokenInvested r) 0 then [NegativeInvestment (cr_taskId r)] else []).

Record ValidationResult := { valid : bool; errors : list CollapseError }.

Definition validateCollapseResults (results : list CollapseResult)
  : ValidationResult :=
  let errors := List.concat (List.map validateOne results) in
  {| valid := Nat.eqb (length errors) 0; errors := errors |}.

(** ** settlement-engine.ts *)

Notation "'draw' x <- c ; k" := (Js.bind c (fun x => k))
  (at level 10, x name, c at level 100, k at level 200).

Definition rollEnhanced (tokenInvested : Q) (grade : TaskGrade) (luckModifier : Q)
  : Js.Rand RNGResult :=
  draw r <- Js.random ;
  let baseLuck := (-(5 # 10) + r)%Q in
  let luck := Js.max (-(5 # 10)) (Js.min (5 # 10) (baseLuck + luckModifier)) in
  let gradeMultiplier := LEVEL_COST_MULTIPLIERS grade in
  let score := Js.round (tokenInvested * gradeMultiplier * (1 + luck)) in
  let criticalThreshold :=
    Js.max 250 (tokenInvested * RNG_THRESHOLDS_criticalSuccess) in
  let '(type, statChanges) :=
    if Js.gtb (inject_Z score) criticalThreshold then
      (RNG.CRITICAL_SUCCESS, {| rng_HP := Some 5; rng_SOC := Some 10 |})
    else if Js.gtb (inject_Z score) (tokenInvested * RNG_THRESHOLDS_success) then
      (RNG.SUCCESS, {| rng_HP := None; rng_SOC := None |})
    else if Js.gtb (inject_Z score) RNG_THRESHOLDS_barelyPassed then
      (RNG.BARELY_PASSED, {| rng_HP := Some (-5); rng_SOC := None |})
    else
      (RNG.CRITICAL_FAIL, {| rng_HP := Some (-20); rng_SOC := None |}) in
  let '(type, statChanges) :=
    if bool_decide (grade = TaskGrade.D) || Js.leb tokenInvested 0 then
      (RNG.CRITICAL_FAIL,
       {| rng_HP := Some (-20); rng_SOC := rng_SOC statChanges |})
    else (type, statChanges) in
  draw narrative <- Js.randomIndex (RNG_NARRATIVES_length type) ;
  Js.ret {| rng_type := type; rng_score := score; rng_luck := luck;
            rng_statChanges := statChanges; rng_narrative := narrative |}.

Inductive EventCardType :=
| RngCard (t : RNGResultType)
| SPECIAL_ITEM
| COMBO_BONUS
| MELTDOWN_RECOVERY.

Inductive SpecialItem :=
  TIME_SHARD | LUCK_CHARM | SHIELD | COFFEE | INSPIRE | SOCIAL_BOOST.

#[global] Instance SpecialItem_eq_dec : EqDecision SpecialItem.
Proof. solve_decision. Defined.

Definition SPECIAL_ITEMS : list SpecialItem :=
  [TIME_SHARD; LUCK_CHARM; SHIELD; COFFEE; INSPIRE; SOCIAL_BOOST].

Record StatChanges := {
  professional : Z; social : Z; sanity : Z; wealth : Z
}.

Inductive CardRarity := common | rare | epic | legendary.

Record EventCard := {
  card_type : EventCardType;
  card_taskId : string;
  card_ownerAgent : AgentId;
  card_category : option DigitalTaskCategory;
  card_grade : TaskGrade;
  score : Z;
  luck : Q;
  statChanges : StatChanges;
  specialItems : list SpecialItem;
  narrative : nat;
  subtitle : nat;
  cardRarity : CardRarity
}.

Definition CARD_SUBTITLES_length (t : RNGResultType) : Z :=
  match t with
  | RNG.CRITICAL_SUCCESS => 4
  | RNG.SUCCESS => 3
  | RNG.BARELY_PASSED => 3
  | RNG.CRITICAL_FAIL => 4
  end.

Definition determineCardRarity (rngType : RNGResultType) (grade : TaskGrade)
  : CardRarity :=
  match rngType, grade with
  | RNG.CRITICAL_SUCCESS, (TaskGrade.S | TaskGrade.A) => legendary
  | RNG.CRITICAL_SUCCESS, _ => epic
  | RNG.SUCCESS, TaskGrade.S => epic
  | RNG.SUCCESS, _ => rare
  | RNG.CRITICAL_FAIL, _ => rare
  | _, _ => common
  end.

Definition calculateStatChanges (type : RNGResultType) (grade : TaskGrade)
    (agent : AgentId) : StatChanges :=
  let base :=
    match type with
    | RNG.CRITICAL_SUCCESS =>
        {| professional := 5; social := 10; sanity := 5; wealth := 20 |}
    | RNG.SUCCESS =>
        {| professional := 3; social := 0; sanity := 0; wealth := 5 |}
    | RNG.BARELY_PASSED =>
        {| professional := -5; social := 0; sanity := -3; wealth := 0 |}
    | RNG.CRITICAL_FAIL =>
        {| professional := -10; social := 0; sanity := -20; wealth := -10 |}
    end in
  let multiplier : Q :=
    match grade with
    | TaskGrade.S => 2
    | TaskGrade.A => 15 # 10
    | TaskGrade.B => 1
    | TaskGrade.C => 5 # 10
    | TaskGrade.D => 1 # 10
    end%Q in
  let scale (m : Q) (v : Z) : Z := Js.round (inject_Z v * m) in
  let changes :=
    {| professional := scale multiplier (professional base);
       social := scale multiplier (social base);
       sanity := sanity base;
       wealth := scale multiplier (wealth base) |} in
  match agent with
  | ENTJ =>
      {| professional := scale (13 # 10) (professional changes);
         social := social changes; sanity := sanity changes;
         wealth := wealth changes |}
  | ISFJ =>
      {| professional := professional changes; social := social changes;
         sanity := scale (12 # 10) (sanity changes);
         wealth := scale (13 # 10) (wealth changes) |}
  | INFJ =>
      {| professional := professional changes;
         social := scale (15 # 10) (social changes);
         sanity := sanity changes; wealth := wealth changes |}
  | ESTP =>
      match type with
      | RNG.CRITICAL_SUCCESS | RNG.CRITICAL_FAIL =>
          {| professional := professional changes; social := social changes;
             sanity := sanity changes;
             wealth := scale (15 # 10) (wealth changes) |}
      | _ => changes
      end
  end.

Definition dropChance (g : TaskGrade) : Q :=
  match g with
  | TaskGrade.S => 1
  | TaskGrade.A => 6 # 10
  | TaskGrade.B => 3 # 10
  | TaskGrade.C => 1 # 10
  | TaskGrade.D => 0
  end%Q.

Definition rollSpecialItems (type : RNGResultType) (grade : TaskGrade)
  : Js.Rand (list SpecialItem) :=
  match type with
  | RNG.CRITICAL_SUCCESS =>
      draw r <- Js.random ;
      if Js.gtb r (dropChance grade) then Js.ret []
      else
        draw i <- Js.randomIndex (Z.of_nat (length SPECIAL_ITEMS)) ;
        let item := nth i SPECIAL_ITEMS TIME_SHARD in
        match grade with
        | TaskGrade.S =>
            draw r2 <- Js.random ;
            if Js.ltb r2 (3 # 10) then
              draw j <- Js.randomIndex (Z.of_nat (length SPECIAL_ITEMS) - 1) ;
              let others :=
                List.filter (fun x => negb (bool_decide (x = item)))
                            SPECIAL_ITEMS in
              Js.ret [item; nth j others TIME_SHARD]
            else Js.ret [item]
        | _ => Js.ret [item]
        end
  | _ => Js.ret []
  end.

(** [generateTaskResultDescription] picks two texts: two draws. *)
Definition generateTaskResultDescription : Js.Rand unit :=
  draw x_ <- Js.random ; draw x_ <- Js.random ; Js.ret tt.

Definition generateEventCard (collapse : CollapseResult) (luckModifier : Q)
  : Js.Rand EventCard :=
  draw rngResult <- rollEnhanced (tokenInvested collapse) (cr_finalGrade collapse)
                            luckModifier ;
  let statChanges :=
    calculateStatChanges (rng_type rngResult) (cr_finalGrade collapse)
                         (cr_ownerAgent collapse) in
  draw specialItems <- rollSpecialItems (rng_type rngResult) (cr_finalGrade collapse) ;
  draw subtitle <- Js.randomIndex (CARD_SUBTITLES_length (rng_type rngResult)) ;
  draw x_ <- generateTaskResultDescription ;
  draw x_ <- Js.random ;   (* the card id *)
  Js.ret {| card_type := if (0 <? Z.of_nat (length specialItems))
                         then SPECIAL_ITEM else RngCard (rng_type rngResult);
            card_taskId := cr_taskId collapse;
            card_ownerAgent := cr_ownerAgent collapse;
            card_category := cr_category collapse;
            card_grade := cr_finalGrade collapse;
            score := rng_score rngResult;
            luck := rng_luck rngResult;
            statChanges := statChanges;
            specialItems := specialItems;
            narrative := rng_narrative rngResult;
            subtitle := subtitle;
            cardRarity := determineCardRarity (rng_type rngResult)
                                              (cr_finalGrade collapse) |}.

Record ComboBonus := {
  comboCount : Z;
  bonusStats : StatChanges;
  bonusItem : option SpecialItem
}.

Definition isSuccessCard (c : EventCard) : bool :=
  match card_type c with
  | RngCard RNG.CRITICAL_SUCCESS | RngCard RNG.SUCCESS => true
  | _ => false
  end.

Definition calculateComboBonus (cards : list EventCard) : ComboBonus :=
  let successStreak := Z.of_nat (length (List.filter isSuccessCard cards)) in
  if successStreak <? 2 then
    {| comboCount := 0;
       bonusStats := {| professional := 0; social := 0; sanity := 0; wealth := 0 |};
       bonusItem := None |}
  else
    let comboMultiplier := Z.min 3 (successStreak - 1) in
    {| comboCount := successStreak;
       bonusStats := {| professional := 5 * comboMultiplier;
                        social := 3 * comboMultiplier;
                        sanity := 2 * comboMultiplier;
                        wealth := 10 * comboMultiplier |};
       bonusItem := if 3 <=? successStreak then Some INSPIRE else None |}.

Definition gradeBonus (g : TaskGrade) : Z :=
  match g with
  | TaskGrade.S => 10
  | TaskGrade.A => 7
  | TaskGrade.B => 4
  | TaskGrade.C => 1
  | TaskGrade.D => -5
  end.

Definition cardPoints (c : EventCard) : Z :=
  (match card_type c with
   | RngCard RNG.CRITICAL_SUCCESS => 30
   | RngCard RNG.SUCCESS => 15
   | RngCard RNG.BARELY_PASSED => 5
   | RngCard RNG.CRITICAL_FAIL => -20
   | _ => 0
   end) + gradeBonus (card_grade c).

Definition calculateOverallGrade (cards : list EventCard) (statDelta : StatChanges)
    (meltdown : bool) : TaskGrade :=
  if meltdown then TaskGrade.D
  else
    let score := fold_left (fun s c => s + cardPoints c) cards 0 in
    let totalStatChange :=
      professional statDelta + social statDelta + sanity statDelta
      + wealth statDelta in
    let score := score + Js.round (inject_Z totalStatChange / 10) in
    let avgScore : Q :=
      if (0 <? Z.of_nat (length cards))
      then (inject_Z score / inject_Z (Z.of_nat (length cards)))%Q
      else 0%Q in
    if Js.geb avgScore 30 then TaskGrade.S
    else if Js.geb avgScore 18 then TaskGrade.A
    else if Js.geb avgScore 8 then TaskGrade.B
    else if Js.geb avgScore 0 then TaskGrade.C
    else TaskGrade.D.

Record SettlementInput := {
  collapseResults : list CollapseResult;
  in_trades : list TradeProposal;
  in_agentStates : list AgentState;
  totalBudget : Q;
  luckModifier : option Q
}.

Record TokenSettlement := {
  ts_totalBudget : Q;
  totalSpent : Q;
  totalRemaining : Q;
  surplus : Q;
  carryOver : Z;
  meltdownOccurred : bool
}.

Inductive HighlightType :=
  h_critical_success | h_critical_fail | h_trade | h_combo | h_item.

Record Deliverable := { level : TaskGrade; extension : nat }.

Record SettlementReport := {
  overallGrade : TaskGrade;
  rep_collapseResults : list CollapseResult;
  eventCards : list EventCard;
  rep_trades : list TradeProposal;
  tokenSettlement : TokenSettlement;
  statDelta : StatChanges;
  itemsEarned : list SpecialItem;
  highlights : list HighlightType;
  deliverables : list Deliverable
}.

Definition addStats (a b : StatChanges) : StatChanges :=
  {| professional := professional a + professional b;
     social := social a + social b;
     sanity := sanity a + sanity b;
     wealth := wealth a + wealth b |}.

Definition cardHighlights (card : EventCard) : list HighlightType :=
  (match card_type card with
   | RngCard RNG.CRITICAL_SUCCESS => [h_critical_success]
   | _ => []
   end)
  ++ (match card_type card with
      | RngCard RNG.CRITICAL_FAIL => [h_critical_fail]
      | _ => []
      end)
  ++ List.map (fun _ => h_item) (specialItems card).

(** [generateDeliverableFilename]: one draw for the extension. *)
Definition generateDeliverable (cr : CollapseResult) : Js.Rand Deliverable :=
  draw ext <- Js.randomIndex 4 ;
  Js.ret {| level := cr_finalGrade cr; extension := ext |}.

Definition buildSettlementReport (input : SettlementInput)
  : Js.Rand SettlementReport :=
  let luck := default 0%Q (luckModifier input) in
  draw eventCards <-
    Js.mapM (fun cr => generateEventCard cr luck) (collapseResults input) ;
  let combo := calculateComboBonus eventCards in
  let statDelta :=
    fold_left (fun acc card => addStats acc (statChanges card)) eventCards
      {| professional := 0; social := 0; sanity := 0; wealth := 0 |} in
  let statDelta := addStats statDelta (bonusStats combo) in
  let totalSpent :=
    fold_left (fun sum cr => (sum + tokenInvested cr)%Q) (collapseResults input)
              0%Q in
  let remaining := Js.max 0 (totalBudget input - totalSpent) in
  let carryOver := Js.round (remaining * (5 # 10)) in
  let meltdownOccurred := Js.gtb totalSpent (totalBudget input * (12 # 10)) in
  let itemsEarned :=
    List.concat (List.map specialItems eventCards)
    ++ match bonusItem combo with
       | Some i => [i]
       | None => []
       end in
  let highlights :=
    List.concat (List.map cardHighlights eventCards)
    ++ List.map (fun _ => h_trade) (in_trades input)
    ++ (if 2 <=? comboCount combo then [h_combo] else []) in
  draw deliverables <-
    Js.mapM generateDeliverable
      (List.filter (fun cr => negb (bool_decide (cr_finalGrade cr = TaskGrade.D)))
                   (collapseResults input)) ;
  let overallGrade := calculateOverallGrade eventCards statDelta meltdownOccurred in
  Js.ret {| overallGrade := overallGrade;
            rep_collapseResults := collapseResults input;
            eventCards := eventCards;
            rep_trades := in_trades input;
            tokenSettlement :=
              {| ts_totalBudget := totalBudget input;
                 totalSpent := totalSpent;
                 totalRemaining := remaining;
                 surplus := remaining;
                 carryOver := carryOver;
                 meltdownOccurred := meltdownOccurred |};
            statDelta := statDelta;
            itemsEarned := itemsEarned;
            highlights := Js.slice_first 12 highlights;
            deliverables := deliverables |}.

(** ** orchestrator.ts *)

Record TokenAllocation := {
  efficiency : Q; health : Q; relationship : Q; risk : Q
}.

Definition DEFAULT_TOKEN_ALLOCATION : TokenAllocation :=
  {| efficiency := 30; health := 25; relationship := 20; risk := 25 |}.

Definition tokenAllocationToWeights (alloc : TokenAllocation) : AgentId -> Q :=
  let total := (efficiency alloc + health alloc + relationship alloc + risk alloc)%Q in
  if Qeq_bool total 0 then fun _ => 1%Q
  else fun a =>
    match a with
    | ENTJ => efficiency alloc / total * 4
    | ISFJ => health alloc / total * 4
    | INFJ => relationship alloc / total * 4
    | ESTP => risk alloc / total * 4
    end%Q.

Record OrchestratorConfig := {
  maxRounds : Z;
  cfg_userProfile : UserProfile;
  cfg_tokenAllocation : TokenAllocation;
  cfg_scheduleBlocks : option (list ScheduleBlock)
}.

(** [Partial<AgentState>] as the orchestrator uses it. *)
Record AgentUpdate := {
  upd_satisfaction : option Q;
  upd_resourceInventory : option ResourceInventory;
  upd_status : option AgentStatus
}.

Definition applyUpdate (a : AgentState) (u : AgentUpdate) : AgentState :=
  {| id := id a;
     currentWeight := currentWeight a;
     resourceInventory := default (resourceInventory a) (upd_resourceInventory u);
     status := default (status a) (upd_status u);
     satisfaction := default (satisfaction a) (upd_satisfaction u);
     influence := influence a;
     isSanctioned := isSanctioned a |}.

(** [CouncilSession.updateAgentState] *)
Definition updateAgentState (agentStates : list AgentState) (agentId : AgentId)
    (updates : AgentUpdate) : list AgentState :=
  List.map (fun a => if AgentId_eqb (id a) agentId then applyUpdate a updates
                     else a) agentStates.

Record Session := {
  context : CouncilContext;
  logs : list CouncilLogEntry;
  session_status : SessionStatus;
  currentTick : Z;                              (* the theater clock *)
  previousRoundStates : option (list AgentState)
}.

Definition setRound (ctx : CouncilContext) (r : Z) : CouncilContext :=
  {| currentRound := r; agentStates := agentStates ctx;
     recentLogs := recentLogs ctx; userProfile := userProfile ctx;
     scheduleBlocks := scheduleBlocks ctx |}.

Definition setAgentStates (ctx : CouncilContext) (l : list AgentState)
  : CouncilContext :=
  {| currentRound := currentRound ctx; agentStates := l;
     recentLogs := recentLogs ctx; userProfile := userProfile ctx;
     scheduleBlocks := scheduleBlocks ctx |}.

Definition setRecentLogs (ctx : CouncilContext) (l : list CouncilLogEntry)
  : CouncilContext :=
  {| currentRound := currentRound ctx; agentStates := agentStates ctx;
     recentLogs := l; userProfile := userProfile ctx;
     scheduleBlocks := scheduleBlocks ctx |}.

(** [CouncilSession.addLog] *)
Definition addLog (s : Session) (entry : CouncilLogEntry) : Session :=
  let logs' := logs s ++ [entry] in
  {| context := setRecentLogs (context s) (Js.slice_last 20 logs');
     logs := logs';
     session_status := session_status s;
     currentTick := currentTick s;
     previousRoundStates := previousRoundStates s |}.

(** [CouncilSession.advanceRound] *)
Definition advanceRound (s : Session) : Session :=
  {| context := setRound (context s) (currentRound (context s) + 1);
     logs := logs s;
     session_status := session_status s;
     currentTick := currentTick s;
     previousRoundStates := previousRoundStates s |}.

(** [CouncilSession.conclude]: the status, then the CONSENSUS entry. *)
Definition conclude (s : Session) : Session :=
  addLog {| context := context s; logs := logs s;
            session_status := CONCLUDED;
            currentTick := currentTick s;
            previousRoundStates := previousRoundStates s |}
         {| agentId := None; log_type := LogType.CONSENSUS;
            log_targetAgent := None |}.

Definition sessionUpdateAgent (s : Session) (a : AgentId) (u : AgentUpdate)
  : Session :=
  {| context := setAgentStates (context s)
                  (updateAgentState (agentStates (context s)) a u);
     logs := logs s; session_status := session_status s;
     currentTick := currentTick s;
     previousRoundStates := previousRoundStates s |}.

(** What the text service and the processing of its reply do in one turn.
    The reply is free text, so its effect is an input of the model: either
    the call fails, or the turn performs a sequence of [updateAgentState]
    and [addLog] calls.  These are the only two ways in which the loop body
    touches the session between the call and the convergence check:
    [processAgentOutput] or the fallback speech log, [applyTrade] and its
    log every fifth round, the whisper log every sixth round. *)
Inductive TurnEffect :=
| EffUpdate (a : AgentId) (u : AgentUpdate)
| EffLog (entry : CouncilLogEntry).

Inductive TurnOutcome :=
| CallFailed
| Replied (effects : list TurnEffect).

Definition TextService :=
  Z -> option AgentId -> list AgentState -> TurnOutcome.

(** [electChair]: the agent with the highest weight; indexing the empty
    sorted list throws. *)
Definition electChair (agents : list AgentState) : option AgentId :=
  match Js.sort (fun a b => (currentWeight b - currentWeight a)%Q) agents with
  | a :: _ => Some (id a)
  | [] => None
  end.

Definition applyEffect (s : Session) (e : TurnEffect) : Session :=
  match e with
  | EffUpdate a u => sessionUpdateAgent s a u
  | EffLog entry => addLog s entry
  end.

Definition systemLog (a : option AgentId) : CouncilLogEntry :=
  {| agentId := a; log_type := LogType.SYSTEM; log_targetAgent := None |}.

(** How an iteration of a loop ends. *)
Inductive Outcome (T : Type) :=
| Done (x : T)
| Threw
| OutOfFuel.
Arguments Done {T} x.
Arguments Threw {T}.
Arguments OutOfFuel {T}.

Inductive LoopStep := Continue (s : Session) | Break (s : Session) | Throws.

(** One iteration of the negotiation loop, in theater mode (the default:
    [enableTheater !== false]); the pacing delay is not modelled. *)
Definition negotiationStep (config : OrchestratorConfig) (service : TextService)
    (s : Session) : LoopStep :=
  let s := {| context := context s; logs := logs s;
              session_status := session_status s;
              currentTick := currentTick s + 1;
              previousRoundStates := previousRoundStates s |} in
  let pacing := getTickPacing (currentTick s) maxTickRounds in
  let urgent :=
    match urgency pacing with
    | high =>
        match electChair (agentStates (context s)) with
        | None => None
        | Some _ =>
            Some (if buildUrgencyMessage_nonempty (currentTick s) maxTickRounds
                  then addLog s (systemLog None) else s)
        end
    | _ => Some s
    end in
  match urgent with
  | None => Throws
  | Some s =>
      let selection :=
        selectSpeakerForTick (currentTick s) (agentStates (context s))
                             (Js.slice_last 20 (logs s)) in
      match service (currentRound (context s)) (speaker selection)
                    (agentStates (context s)) with
      | CallFailed =>
          Continue (advanceRound (addLog s (systemLog (speaker selection))))
      | Replied effects =>
          let s := fold_left applyEffect effects s in
          match forceConvergence (agentStates (context s))
                                 (currentRound (context s)) (maxRounds config) 10
                                 (previousRoundStates s) with
          | None => Throws
          | Some convergence =>
              if shouldForce convergence then
                Break (addLog (conclude s) (systemLog None))
              else
                Continue
                  (advanceRound
                     {| context := context s; logs := logs s;
                        session_status := session_status s;
                        currentTick := currentTick s;
                        previousRoundStates := Some (agentStates (context s)) |})
          end
      end
  end.

Definition loopGuard (config : OrchestratorConfig) (s : Session) : bool :=
  bool_decide (session_status s = SESSION_ACTIVE)
  && (currentRound (context s) <=? maxRounds config).

Fixpoint negotiationLoop (fuel : nat) (config : OrchestratorConfig)
    (service : TextService) (s : Session) : Outcome Session :=
  if loopGuard config s then
    match fuel with
    | O => OutOfFuel
    | Datatypes.S fuel' =>
        match negotiationStep config service s with
        | Continue s' => negotiationLoop fuel' config service s'
        | Break s' => Done s'
        | Throws => Threw
        end
    end
  else Done s.

(** [applyResourceDelta] for the delta [{HP, SOC, WLTH}] of an event card. *)
Definition applyCardDelta (inv : ResourceInventory) (c : StatChanges)
  : ResourceInventory :=
  {| inv_TIME := inv_TIME inv;
     inv_HP := Js.max 0 (inv_HP inv + inject_Z (sanity c));
     inv_SOC := Js.max 0 (inv_SOC inv + inject_Z (social c));
     inv_WLTH := Js.max 0 (inv_WLTH inv + inject_Z (wealth c)) |}.

Definition broadcastCard (s : Session) (card : EventCard) : Session :=
  let s := addLog s (systemLog (Some (card_ownerAgent card))) in
  let s :=
    match findAgent (card_ownerAgent card) (agentStates (context s)) with
    | Some agentState =>
        sessionUpdateAgent s (card_ownerAgent card)
          {| upd_satisfaction := None;
             upd_resourceInventory :=
               Some (applyCardDelta (resourceInventory agentState)
                                    (statChanges card));
             upd_status := None |}
    | None => s
    end in
  fold_left (fun s _ => addLog s (systemLog (Some (card_ownerAgent card))))
            (specialItems card) s.

Record ResultTaskEntry := {
  entry_grade : TaskGrade;
  entry_tokenCost : Z
}.

Record ResultCard := {
  rc_grade : TaskGrade;
  rc_tokenSpent : Q;
  rc_meltdownOccurred : bool;
  tasks : list ResultTaskEntry
}.

Definition settlementToResultCard (report : SettlementReport) : ResultCard :=
  {| rc_grade := overallGrade report;
     rc_tokenSpent := totalSpent (tokenSettlement report);
     rc_meltdownOccurred := meltdownOccurred (tokenSettlement report);
     tasks := List.map (fun c => {| entry_grade := card_grade c;
                                    entry_tokenCost := score c |})
                       (eventCards report) |}.

Record SessionOutput := {
  out_logs : list CouncilLogEntry;
  finalStates : list AgentState;
  settlementReport : SettlementReport;   (* metadata of the summary log *)
  resultCard : ResultCard;
  roundNumber : Z
}.

Definition initialSession (config : OrchestratorConfig) : Session :=
  let weights := tokenAllocationToWeights (cfg_tokenAllocation config) in
  let agentStates :=
    List.map (fun a =>
      {| id := id a; currentWeight := weights (id a);
         resourceInventory := resourceInventory a; status := status a;
         satisfaction := satisfaction a; influence := influence a;
         isSanctioned := isSanctioned a |}) createAllAgentStates in
  {| context := {| currentRound := 1; agentStates := agentStates;
                   recentLogs := []; userProfile := cfg_userProfile config;
                   scheduleBlocks := cfg_scheduleBlocks config |};
     logs := [];
     session_status := SESSION_ACTIVE;
     currentTick := 0;
     previousRoundStates := None |}.

(** The session driver.  [fuel] bounds the iterations of the negotiation
    loop; [runCouncilSession] below supplies enough of it.  [rng] is the
    state of the generator when the settlement starts (the draws that only
    make up the identifiers of log entries are not modelled). *)
Definition runCouncilSessionWith (fuel : nat) (config : OrchestratorConfig)
    (service : TextService) (rng : Js.RandomSource) : Outcome SessionOutput :=
  let s := addLog (initialSession config) (systemLog None) in
  (* phase change to NEGOTIATION *)
  let s := addLog s (systemLog None) in
  match negotiationLoop fuel config service s with
  | OutOfFuel => OutOfFuel
  | Threw => Threw
  | Done s =>
      let s := addLog s (systemLog None) in
      let collapseResults := collapseFromAgentStates (context s) in
      let s :=
        fold_left (fun s cr => addLog s (systemLog (Some (cr_ownerAgent cr))))
                  collapseResults s in
      let '(settlementReport, _) :=
        buildSettlementReport
          {| collapseResults := collapseResults;
             in_trades := [];
             in_agentStates := agentStates (context s);
             totalBudget := 1000;
             luckModifier := None |} rng in
      let s := fold_left broadcastCard (eventCards settlementReport) s in
      let s := addLog s (systemLog None) in
      Done {| out_logs := logs s;
              finalStates := agentStates (context s);
              settlementReport := settlementReport;
              resultCard := settlementToResultCard settlementReport;
              roundNumber := currentRound (context s) |}
  end.

Definition runCouncilSession (config : OrchestratorConfig)
    (service : TextService) (rng : Js.RandomSource) : Outcome SessionOutput :=
  runCouncilSessionWith (Z.to_nat (maxRounds config)) config service rng.

(** ** agents.ts: agent definitions and resource deltas *)

(** [AGENT_DEFINITIONS[a].primaryResource] and
    [AGENT_DEFINITIONS[a].hasVetoPower]. *)
Definition AGENT_DEFINITIONS_primaryResource (a : AgentId) : ResourceCode :=
  match a with
  | ENTJ => TIME
  | ISFJ => HP
  | INFJ => SOC
  | ESTP => WLTH
  end.

Definition AGENT_DEFINITIONS_hasVetoPower (a : AgentId) : bool :=
  match a with
  | ISFJ | INFJ => true
  | ENTJ | ESTP => false
  end.

#[global] Instance ResourceCode_eq_dec : EqDecision ResourceCode.
Proof. solve_decision. Defined.

(** [inventory[code]] *)
Definition inventoryAt (inv : ResourceInventory) (c : ResourceCode) : Q :=
  match c with
  | TIME => inv_TIME inv
  | HP => inv_HP inv
  | SOC => inv_SOC inv
  | WLTH => inv_WLTH inv
  end.

(** A value of a [ResourceDelta] is a number or a string; a string is kept
    as what [parseFloat] reads from it ([None] when that is NaN).  A key
    that is absent, or present with the value [undefined], is [None]. *)
Inductive DeltaValue :=
| DeltaNumber (x : Q)
| DeltaString (parsed : option Q).

Record ResourceDelta := {
  delta_TIME : option DeltaValue;
  delta_HP : option DeltaValue;
  delta_SOC : option DeltaValue;
  delta_WLTH : option DeltaValue
}.

Definition deltaAt (delta : ResourceDelta) (c : ResourceCode) : option DeltaValue :=
  match c with
  | TIME => delta_TIME delta
  | HP => delta_HP delta
  | SOC => delta_SOC delta
  | WLTH => delta_WLTH delta
  end.

(** [typeof val === 'string' ? parseFloat(val) : val]; [None] is NaN. *)
Definition numericVal (val : DeltaValue) : option Q :=
  match val with
  | DeltaNumber x => Some x
  | DeltaString parsed => parsed
  end.

(** The loop over [Object.entries(delta)]: every key touches its own
    channel, so the order of the entries plays no part. *)
Definition applyResourceDelta (inventory : ResourceInventory)
    (delta : ResourceDelta) : ResourceInventory :=
  let channel (current : Q) (val : option DeltaValue) : Q :=
    match val with
    | Some v =>
        match numericVal v with
        | Some n => Js.max 0 (current + n)
        | None => current
        end
    | None => current
    end in
  {| inv_TIME := channel (inv_TIME inventory) (delta_TIME delta);
     inv_HP := channel (inv_HP inventory) (delta_HP delta);
     inv_SOC := channel (inv_SOC inventory) (delta_SOC delta);
     inv_WLTH := channel (inv_WLTH inventory) (delta_WLTH delta) |}.

(** ** negotiation-engine.ts: votes, veto, bottom lines, whispers, trades *)

(** [delta === undefined ? 0 : (typeof delta === 'string' ? parseFloat(delta) : delta)] *)
Definition numericDelta (proposalDelta : ResourceDelta) (c : ResourceCode)
  : option Q :=
  match deltaAt proposalDelta c with
  | None => Some 0%Q
  | Some v => numericVal v
  end.

(** [x > y] and [x < y] when [x] may be NaN: both are false then. *)
Definition nan_gtb (x : option Q) (y : Q) : bool :=
  match x with
  | Some v => Js.gtb v y
  | None => false
  end.

Definition nan_ltb (x : option Q) (y : Q) : bool :=
  match x with
  | Some v => Js.ltb v y
  | None => false
  end.

Definition calculateAgentVote (agent : AgentState) (proposalDelta : ResourceDelta)
    (templateWeight : Q) : VoteEntry :=
  let primaryResource := AGENT_DEFINITIONS_primaryResource (id agent) in
  let delta := numericDelta proposalDelta primaryResource in
  let effectiveWeight := (currentWeight agent * templateWeight)%Q in
  if nan_gtb delta 0 then
    {| vote := Vote.APPROVE; weight := effectiveWeight |}
  else if nan_ltb delta (-5) then
    {| vote := Vote.REJECT; weight := effectiveWeight |}
  else if Js.gtb (satisfaction agent) 60 then
    {| vote := Vote.APPROVE; weight := (effectiveWeight * (8 # 10))%Q |}
  else if Js.ltb (satisfaction agent) 30 then
    {| vote := Vote.REJECT; weight := (effectiveWeight * (6 # 10))%Q |}
  else
    {| vote := Vote.ABSTAIN; weight := (effectiveWeight * (3 # 10))%Q |}.

Record SystemBottomLine := {
  minSleepHours : Q;
  minBalance : Q;
  maxIsolationDays : Q;
  maxContinuousWork : Q
}.

Definition SYSTEM_BOTTOM_LINE : SystemBottomLine :=
  {| minSleepHours := 6; minBalance := 0; maxIsolationDays := 3;
     maxContinuousWork := 4 |}.

Inductive BottomLineType := SBL | UBL.

(** [ResourceCode | 'SLEEP' | 'SOCIAL' | 'WORK_HOURS'] *)
Inductive ViolationResource :=
| OfResource (c : ResourceCode)
| SLEEP
| SOCIAL
| WORK_HOURS.

Inductive Severity := CRITICAL | WARNING.

Record BottomLineViolation := {
  bl_type : BottomLineType;
  bl_resource : ViolationResource;
  currentValue : Q;
  threshold : Q;
  severity : Severity;
  guardianAgent : AgentId
}.

Record BottomLineCheckResult := {
  passed : bool;
  violations : list BottomLineViolation
}.

(** [ctx.systemBottomLine] is passed beside the context.  With no agent
    the three averages are [0 / 0 = NaN] and their comparisons are false. *)
Definition checkBottomLines (sbl : SystemBottomLine) (ctx : CouncilContext)
  : BottomLineCheckResult :=
  let agents := agentStates ctx in
  let total (c : ResourceCode) : Q :=
    fold_left (fun sum agent => (sum + inventoryAt (resourceInventory agent) c)%Q)
              agents 0%Q in
  let n := inject_Z (Z.of_nat (length agents)) in
  let below (avg limit : Q) : bool :=
    negb (Nat.eqb (length agents) 0) && Js.ltb avg limit in
  let avgHP := (total HP / n)%Q in
  let avgSOC := (total SOC / n)%Q in
  let avgTime := (total TIME / n)%Q in
  let sleep :=
    if below avgTime (minSleepHours sbl) then
      [{| bl_type := SBL; bl_resource := SLEEP; currentValue := avgTime;
          threshold := minSleepHours sbl; severity := CRITICAL;
          guardianAgent := ISFJ |}]
    else [] in
  let hp :=
    if below avgHP 20%Q then
      [{| bl_type := SBL; bl_resource := OfResource HP; currentValue := avgHP;
          threshold := 20; severity := CRITICAL; guardianAgent := ISFJ |}]
    else [] in
  let soc :=
    if below avgSOC 15%Q then
      [{| bl_type := SBL; bl_resource := SOCIAL; currentValue := avgSOC;
          threshold := 15; severity := CRITICAL; guardianAgent := INFJ |}]
    else [] in
  let wlthValue :=
    match findAgent ESTP agents with
    | Some wlthAgent => inv_WLTH (resourceInventory wlthAgent)
    | None => 500%Q
    end in
  let impliedCreditScore := Z.min 200 (Z.max 0 (Js.round (wlthValue / 5))) in
  let wlth :=
    if Js.leb wlthValue 0 then
      [{| bl_type := SBL; bl_resource := OfResource WLTH;
          currentValue := wlthValue; threshold := minBalance sbl;
          severity := CRITICAL; guardianAgent := ISFJ |}]
    else if impliedCreditScore <? 60 then
      [{| bl_type := UBL; bl_resource := OfResource WLTH;
          currentValue := inject_Z impliedCreditScore; threshold := 60;
          severity := WARNING; guardianAgent := ISFJ |}]
    else [] in
  let violations := sleep ++ hp ++ soc ++ wlth in
  {| passed := Nat.eqb (length violations) 0; violations := violations |}.

(** The reason of a [VetoCheck], kept as the case it names. *)
Inductive VetoReason :=
| NoVetoPower
| InfluenceTooLow
| HealthDamaged
| SleepBelowBottomLine
| Overwork
| SocialStarved
| NotTriggered.

Record VetoCheck := {
  canVeto : bool;
  vc_agent : AgentId;
  vc_reason : VetoReason;
  influenceCost : Q
}.

(** [violations.some(v => v.resource === r && v.severity === 'CRITICAL')]
    for [r] one of ['SLEEP'] and ['SOCIAL']. *)
Definition criticalOn (sleepNotSocial : bool) (r : BottomLineCheckResult) : bool :=
  existsb (fun v =>
    match bl_resource v, severity v with
    | SLEEP, CRITICAL => sleepNotSocial
    | SOCIAL, CRITICAL => negb sleepNotSocial
    | _, _ => false
    end) (violations r).

Definition checkVetoPower (agentId : AgentId) (sbl : SystemBottomLine)
    (context : CouncilContext) (proposalDelta : ResourceDelta) : VetoCheck :=
  match AGENT_DEFINITIONS_hasVetoPower agentId,
        findAgent agentId (agentStates context) with
  | true, Some state =>
      let cost := 15%Q in
      if Js.ltb (influence state) cost then
        {| canVeto := false; vc_agent := agentId; vc_reason := InfluenceTooLow;
           influenceCost := cost |}
      else
        let asISFJ :=
          if AgentId_eqb agentId ISFJ then
            if nan_ltb (numericDelta proposalDelta HP) (-10) then Some HealthDamaged
            else if criticalOn true (checkBottomLines sbl context)
                 then Some SleepBelowBottomLine
                 else None
          else None in
        let asINFJ :=
          if AgentId_eqb agentId INFJ then
            if nan_ltb (numericDelta proposalDelta TIME) (-3) then Some Overwork
            else if criticalOn false (checkBottomLines sbl context)
                 then Some SocialStarved
                 else None
          else None in
        match asISFJ, asINFJ with
        | Some r, _ =>
            {| canVeto := true; vc_agent := agentId; vc_reason := r;
               influenceCost := cost |}
        | None, Some r =>
            {| canVeto := true; vc_agent := agentId; vc_reason := r;
               influenceCost := cost |}
        | None, None =>
            {| canVeto := false; vc_agent := agentId; vc_reason := NotTriggered;
               influenceCost := cost |}
        end
  | _, _ =>
      {| canVeto := false; vc_agent := agentId; vc_reason := NoVetoPower;
         influenceCost := 0 |}
  end.

Definition executeVeto (agentId : AgentId) (agentStates : list AgentState)
    (cost : Q) : list AgentState :=
  List.map (fun a =>
    if AgentId_eqb (id a) agentId then
      {| id := id a; currentWeight := currentWeight a;
         resourceInventory := resourceInventory a;
         status := VETOING;
         satisfaction := satisfaction a;
         influence := Js.max 0 (influence a - cost);
         isSanctioned := isSanctioned a |}
    else a) agentStates.

(** The key of a clash: the two names sorted as strings and joined. *)
Definition nameOrder (a : AgentId) : Z :=
  match a with
  | ENTJ => 0
  | ESTP => 1
  | INFJ => 2
  | ISFJ => 3
  end.

Definition clashKey (a b : AgentId) : AgentId * AgentId :=
  if nameOrder b <? nameOrder a then (b, a) else (a, b).

(** [clashCount[key] = (clashCount[key] || 0) + 1], the keys in the order
    of their first insertion. *)
Fixpoint countClash (key : AgentId * AgentId)
    (clashCount : list (AgentId * AgentId * Z)) : list (AgentId * AgentId * Z) :=
  match clashCount with
  | [] => [(key, 1)]
  | (k, c) :: r =>
      if bool_decide (k = key) then (k, c + 1) :: r
      else (k, c) :: countClash key r
  end.

Definition DEFAULT_WHISPER_CONFIG_conflictThreshold : Z := 3.

Record WhisperTriggers := {
  shouldWhisper : bool;
  suggestedPairs : list (AgentId * AgentId)
}.

Definition detectWhisperTriggers (agentStates : list AgentState)
    (recentLogs : list CouncilLogEntry) : WhisperTriggers :=
  let clashCount :=
    fold_left (fun counts log =>
      if isConflictType (log_type log) then
        match agentId log, log_targetAgent log with
        | Some a, Some target => countClash (clashKey a target) counts
        | _, _ => counts
        end
      else counts) (Js.slice_last 20 recentLogs) [] in
  let pairs :=
    List.map fst
      (List.filter (fun e => DEFAULT_WHISPER_CONFIG_conflictThreshold <=? snd e)
                   clashCount) in
  let pairs :=
    fold_left (fun pairs agent =>
      if Js.ltb (satisfaction agent) 25 then
        match Js.find (fun a => negb (AgentId_eqb (id a) (id agent))
                                && Js.gtb (satisfaction a) 50) agentStates with
        | Some potentialAlly =>
            let pair := (id agent, id potentialAlly) in
            if existsb (fun p => bool_decide (p = pair)) pairs then pairs
            else pairs ++ [pair]
        | None => pairs
        end
      else pairs) agentStates pairs in
  {| shouldWhisper := (0 <? Z.of_nat (length pairs)); suggestedPairs := pairs |}.

Record AutoTradeSuggestion := {
  ats_sourceAgent : AgentId;
  ats_targetAgent : AgentId;
  ats_offer : ResourceDelta;
  ats_demand : ResourceDelta
}.

(** [{ [c]: x }] *)
Definition singleDelta (c : ResourceCode) (x : Q) : ResourceDelta :=
  {| delta_TIME := match c with TIME => Some (DeltaNumber x) | _ => None end;
     delta_HP := match c with HP => Some (DeltaNumber x) | _ => None end;
     delta_SOC := match c with SOC => Some (DeltaNumber x) | _ => None end;
     delta_WLTH := match c with WLTH => Some (DeltaNumber x) | _ => None end |}.

(** The body of the loop of [detectAutoTradeOpportunity]: what it pushes
    for one agent. *)
Definition suggestionFor (agentStates : list AgentState) (agent : AgentState)
  : list AutoTradeSuggestion :=
  let primary := AGENT_DEFINITIONS_primaryResource (id agent) in
  let primaryVal := inventoryAt (resourceInventory agent) primary in
  if Js.ltb primaryVal 30 then
    match Js.sort (fun a b =>
                     (inventoryAt (resourceInventory b) primary
                      - inventoryAt (resourceInventory a) primary)%Q)
                  (List.filter (fun a => negb (AgentId_eqb (id a) (id agent)))
                               agentStates) with
    | richAgent :: _ =>
        if Js.gtb (inventoryAt (resourceInventory richAgent) primary) 60 then
          [{| ats_sourceAgent := id agent;
              ats_targetAgent := id richAgent;
              ats_offer :=
                singleDelta (AGENT_DEFINITIONS_primaryResource (id richAgent)) 10;
              ats_demand := singleDelta primary 15 |}]
        else []
    | [] => []
    end
  else [].

Definition detectAutoTradeOpportunity (agentStates : list AgentState)
  : list AutoTradeSuggestion :=
  List.flat_map (suggestionFor agentStates) agentStates.

(** [CouncilSession.applyVote] *)
Definition applyVoteStep (voteResult : VoteResult) (s : Session)
    (entry : AgentId * VoteEntry) : Session :=
  let '(agentId, v) := entry in
  match findAgent agentId (agentStates (context s)) with
  | None => s
  | Some state =>
      let satDelta : Q :=
        match result voteResult, vote v with
        | APPROVED, Vote.APPROVE => 5
        | REJECTED, Vote.REJECT => 5
        | VETOED, Vote.VETO => 10
        | _, _ => -3
        end%Q in
      sessionUpdateAgent s agentId
        {| upd_satisfaction :=
             Some (Js.max 0 (Js.min 100 (satisfaction state + satDelta)));
           upd_resourceInventory := None;
           upd_status := None |}
  end.

Definition applyVote (s : Session) (voteResult : VoteResult) : Session :=
  fold_left (applyVoteStep voteResult) (votes voteResult) s.

(** ** orchestrator.ts: processing an agent's reply *)

Module Intent.
Inductive t := trade | veto | whisper | propose | counter | speak | bid | attack.
End Intent.
Abbreviation Intent := Intent.t.

Module Emotion.
Inductive t := excited | neutral | angry | worried | depressed | scheming.
End Emotion.
Abbreviation Emotion := Emotion.t.

Record InternalState := {
  intent : Intent;
  target_agent : option AgentId;
  resource_delta : option ResourceDelta;
  emotional_state : Emotion
}.

(** [public_speech] is free text; what [isValidNegotiation] reads from it
    is whether it is a bare complaint: no digit, no grade keyword, no
    condition keyword, and one of the complaint patterns matches. *)
Record DualChannelOutput := {
  internal_state : InternalState;
  public_speech_isComplaint : bool
}.

Definition isValidNegotiation (isComplaint : bool) (i : Intent) : bool :=
  match i with
  | Intent.bid | Intent.trade | Intent.propose | Intent.counter
  | Intent.veto | Intent.attack => true
  | Intent.speak => negb isComplaint
  | Intent.whisper => true
  end.

Definition intentToLogType (i : Intent) : LogType :=
  match i with
  | Intent.propose => LogType.PROPOSAL
  | Intent.counter => LogType.COUNTER
  | Intent.veto => LogType.VETO
  | Intent.whisper => LogType.WHISPER
  | Intent.trade => LogType.SPEECH
  | Intent.bid => LogType.PROPOSAL
  | Intent.attack => LogType.COUNTER
  | Intent.speak => LogType.SPEECH
  end.

Definition emotionToSatisfaction (e : Emotion) : Q :=
  match e with
  | Emotion.excited => 5
  | Emotion.scheming => 2
  | Emotion.neutral => 0
  | Emotion.worried => -2
  | Emotion.angry => -5
  | Emotion.depressed => -8
  end%Q.

(** The delta built key by key from another one: [f] of every value that
    is a number, nothing for the others. *)
Definition mapDelta (f : Q -> Q) (delta : ResourceDelta) : ResourceDelta :=
  let entry (val : option DeltaValue) : option DeltaValue :=
    match val with
    | Some v =>
        match numericVal v with
        | Some numVal => Some (DeltaNumber (f numVal))
        | None => None
        end
    | None => None
    end in
  {| delta_TIME := entry (delta_TIME delta);
     delta_HP := entry (delta_HP delta);
     delta_SOC := entry (delta_SOC delta);
     delta_WLTH := entry (delta_WLTH delta) |}.

Definition inventoryUpdate (inv : ResourceInventory) : AgentUpdate :=
  {| upd_satisfaction := None; upd_resourceInventory := Some inv;
     upd_status := None |}.

Definition satisfactionUpdate (sat : Q) : AgentUpdate :=
  {| upd_satisfaction := Some sat; upd_resourceInventory := None;
     upd_status := None |}.

Definition applyTrade (s : Session) (source target : AgentId)
    (delta : ResourceDelta) : Session :=
  match findAgent source (agentStates (context s)),
        findAgent target (agentStates (context s)) with
  | Some srcState, Some tgtState =>
      let inverseDelta := mapDelta Qopp delta in
      let s := sessionUpdateAgent s source
                 (inventoryUpdate
                    (applyResourceDelta (resourceInventory srcState) inverseDelta)) in
      sessionUpdateAgent s target
        (inventoryUpdate (applyResourceDelta (resourceInventory tgtState) delta))
  | _, _ => s
  end.

Definition logOf (a : AgentId) (t : LogType) (target : option AgentId)
  : CouncilLogEntry :=
  {| agentId := Some a; log_type := t; log_targetAgent := target |}.

(** [narration]: whether the narration call returned a non-empty text. *)
Definition processAgentOutput (s : Session) (speaker : AgentId)
    (output : DualChannelOutput) (narration : bool) : Session :=
  let st := internal_state output in
  if negb (isValidNegotiation (public_speech_isComplaint output) (intent st)) then
    let s := addLog s (systemLog None) in
    match findAgent speaker (agentStates (context s)) with
    | Some currentState =>
        sessionUpdateAgent s speaker
          (satisfactionUpdate (Js.max 0 (satisfaction currentState - 10)))
    | None => s
    end
  else
    let s :=
      match intent st with
      | Intent.propose =>
          let s := addLog s (logOf speaker LogType.PROPOSAL None) in
          if narration then addLog s (logOf speaker LogType.NARRATION None) else s
      | Intent.veto => addLog s (logOf speaker LogType.COUNTER None)
      | Intent.trade =>
          match resource_delta st, target_agent st with
          | Some delta, Some target =>
              addLog (applyTrade s speaker target delta)
                     (logOf speaker LogType.SPEECH (Some target))
          | _, _ => s
          end
      | Intent.whisper =>
          match target_agent st with
          | Some target => addLog s (logOf speaker LogType.WHISPER (Some target))
          | None => s
          end
      | Intent.bid =>
          let s := addLog s (logOf speaker LogType.PROPOSAL None) in
          match resource_delta st with
          | Some delta =>
              let inverseDelta := mapDelta (fun numVal => (- Qabs numVal)%Q) delta in
              match findAgent speaker (agentStates (context s)) with
              | Some state =>
                  sessionUpdateAgent s speaker
                    (inventoryUpdate
                       (applyResourceDelta (resourceInventory state) inverseDelta))
              | None => s
              end
          | None => s
          end
      | Intent.attack =>
          let s := addLog s (logOf speaker LogType.COUNTER (target_agent st)) in
          match target_agent st with
          | Some target =>
              match findAgent target (agentStates (context s)) with
              | Some targetState =>
                  sessionUpdateAgent s target
                    (satisfactionUpdate (Js.max 0 (satisfaction targetState - 8)))
              | None => s
              end
          | None => s
          end
      | Intent.speak | Intent.counter =>
          addLog s (logOf speaker (intentToLogType (intent st)) None)
      end in
    let satChange := emotionToSatisfaction (emotional_state st) in
    match findAgent speaker (agentStates (context s)) with
    | Some currentState =>
        sessionUpdateAgent s speaker
          {| upd_satisfaction :=
               Some (Js.max 0 (Js.min 100 (satisfaction currentState + satChange)));
             upd_resourceInventory := None;
             upd_status := Some IDLE |}
    | None => s
    end.

(** What the loop body does with the reply of the text service, between
    the call and the convergence check: [parsed] is the result of
    [parseDualChannelOutput]. *)
Definition processReply (s : Session) (speaker : AgentId)
    (parsed : option DualChannelOutput) (narration : bool) : Session :=
  let s :=
    match parsed with
    | Some output => processAgentOutput s speaker output narration
    | None => addLog s (logOf speaker LogType.SPEECH None)
    end in
  let s :=
    if Z.rem (currentRound (context s)) 5 =? 0 then
      match detectAutoTradeOpportunity (agentStates (context s)) with
      | trade :: _ =>
          addLog (applyTrade s (ats_sourceAgent trade) (ats_targetAgent trade)
                             (ats_demand trade))
                 (logOf (ats_sourceAgent trade) LogType.SPEECH
                        (Some (ats_targetAgent trade)))
      | [] => s
      end
    else s in
  if Z.rem (currentRound (context s)) 6 =? 0 then
    let whisperCheck :=
      detectWhisperTriggers (agentStates (context s)) (logs s) in
    if shouldWhisper whisperCheck then
      match suggestedPairs whisperCheck with
      | (src, tgt) :: _ => addLog s (logOf src LogType.WHISPER (Some tgt))
      | [] => s
      end
    else s
  else s.

(** ** schedule-engine.ts: token shares, conflicts, escrow deduction, statistics *)


(** [blocks.reduce((s, b) => s + b.tokenCost, 0)] *)
Definition tokenDemand (blocks : list ScheduleBlock) : Q :=
  fold_left (fun s b => (s + tokenCost b)%Q) blocks 0%Q.

(** [agentDemands]: an object keyed by the owner, its entries in the order
    in which the keys were first assigned.  The [taskIds] of an entry are
    left out: the block record above carries no [taskId]. *)
Fixpoint addDemand (agentDemands : list (AgentId * Q)) (owner : AgentId)
    (cost : Q) : list (AgentId * Q) :=
  match agentDemands with
  | [] => [(owner, (0 + cost)%Q)]
  | (a, tokens) :: rest =>
      if AgentId_eqb a owner then (a, (tokens + cost)%Q) :: rest
      else (a, tokens) :: addDemand rest owner cost
  end.

Record ConflictingAgent := {
  ca_agentId : AgentId;
  requestedTokens : Q;
  priority : Z
}.

(** [overagePercent] is [None] where the division gives [Infinity]: the
    demand exceeds a budget of zero. *)
Record TokenConflict := {
  totalDemand : Q;
  tc_totalBudget : Q;
  overagePercent : option Q;
  conflictingAgents : list ConflictingAgent;
  deadlineLocked : Q;
  negotiableTokens : Q
}.

Definition detectTokenConflict (blocks : list ScheduleBlock) (totalBudget : Q)
  : option TokenConflict :=
  let totalDemand := tokenDemand blocks in
  if Js.leb totalDemand totalBudget then None
  else
    let agentDemands :=
      fold_left (fun d block => addDemand d (ownerAgent block) (tokenCost block))
                blocks [] in
    let deadlineLocked := tokenDemand (List.filter isDeadline blocks) in
    Some {| totalDemand := totalDemand;
            tc_totalBudget := totalBudget;
            overagePercent :=
              if Qeq_bool totalBudget 0 then None
              else Some ((totalDemand - totalBudget) / totalBudget * 100)%Q;
            conflictingAgents :=
              List.map (fun d =>
                {| ca_agentId := fst d;
                   requestedTokens := snd d;
                   priority := if AGENT_DEFINITIONS_hasVetoPower (fst d)
                               then 2 else 1 |}) agentDemands;
            deadlineLocked := deadlineLocked;
            negotiableTokens := (totalDemand - deadlineLocked)%Q |}.

Record EscrowDeduction := {
  liquidBudget : Q;
  frozenForDeadlines : Z
}.

(** [phase0EscrowDeduction] marks the blocks in place; the marked blocks are
    returned beside the result. *)
Definition phase0EscrowDeduction (blocks : list ScheduleBlock) (totalBudget : Q)
  : list ScheduleBlock * EscrowDeduction :=
  let deadlineFrozen :=
    fold_left (fun sum b =>
                 sum + Js.round (tokenCost b * LEVEL_COST_MULTIPLIERS TaskGrade.C))
              (List.filter isDeadline blocks) 0 in
  let liquidBudget := Js.max 0 (totalBudget - inject_Z deadlineFrozen) in
  let blocks :=
    List.map (fun block =>
                if isDeadline block then set_escrow block (Some FROZEN)
                else block) blocks in
  (blocks, {| liquidBudget := liquidBudget;
              frozenForDeadlines := deadlineFrozen |}).

Record ScheduleStats := {
  totalTokensUsed : Q;
  totalTokensBudget : Q;
  tokenUtilization : Q;
  deadlineTokensReserved : Q;
  taskCount : Z;
  deadlineTaskCount : Z;
  categoryBreakdown : DigitalTaskCategory -> Q;
  modelTierBreakdown : ModelTier -> Z;
  tokenDeficit : Q;
  overBudgetPercent : Q
}.

#[global] Instance DigitalTaskCategory_eq_dec : EqDecision DigitalTaskCategory.
Proof. solve_decision. Defined.

#[global] Instance ModelTier_eq_dec : EqDecision ModelTier.
Proof. solve_decision. Defined.

Definition calculateStats (blocks : list ScheduleBlock) (totalBudget : Q)
  : ScheduleStats :=
  let totalTokensUsed := tokenDemand blocks in
  let deadlineTokens := tokenDemand (List.filter isDeadline blocks) in
  let breakdowns :=
    fold_left (fun acc b =>
      (fun c => if decide (c = category b) then (fst acc c + tokenCost b)%Q
                else fst acc c,
       fun t => if decide (t = modelTier b) then snd acc t + 1 else snd acc t))
      blocks (fun _ : DigitalTaskCategory => 0%Q, fun _ : ModelTier => 0) in
  let deficit := Js.max 0 (totalTokensUsed - totalBudget) in
  {| totalTokensUsed := totalTokensUsed;
     totalTokensBudget := totalBudget;
     tokenUtilization :=
       if Js.gtb totalBudget 0 then (totalTokensUsed / totalBudget)%Q else 0%Q;
     deadlineTokensReserved := deadlineTokens;
     taskCount := Z.of_nat (length blocks);
     deadlineTaskCount := Z.of_nat (length (List.filter isDeadline blocks));
     categoryBreakdown := fst breakdowns;
     modelTierBreakdown := snd breakdowns;
     tokenDeficit := deficit;
     overBudgetPercent :=
       if Js.gtb totalBudget 0 then (deficit / totalBudget * 100)%Q else 0%Q |}.

(** ** Definitions used to state the properties *)

(** The signed sum of the spec: APPROVE weights minus REJECT weights. *)
Definition weightOf (which : Vote) (e : AgentId * VoteEntry) : Q :=
  if bool_decide (vote (snd e) = which) then weight (snd e) else 0%Q.

Fixpoint sumOver {T} (f : T -> Q) (l : list T) : Q :=
  match l with
  | [] => 0%Q
  | x :: r => (f x + sumOver f r)%Q
  end.

Definition signedSum (votes : list (AgentId * VoteEntry)) : Q :=
  (sumOver (weightOf Vote.APPROVE) votes - sumOver (weightOf Vote.REJECT) votes)%Q.

Definition anyVeto {N : Type} (votes : list (AgentId * @VoteEntryOf N)) : bool :=
  existsb (fun e => bool_decide (vote (snd e) = Vote.VETO)) votes.

(** The score as the loop accumulates it, entry by entry, in the
    arithmetic of the weights. *)
Definition signedStep {N : Type} `{JsNumber N} (score : N)
    (e : AgentId * @VoteEntryOf N) : N :=
  match vote (snd e) with
  | Vote.APPROVE => num_add score (weight (snd e))
  | Vote.REJECT => num_sub score (weight (snd e))
  | Vote.ABSTAIN | Vote.VETO => score
  end.

Definition accumulatedScore {N : Type} `{JsNumber N}
    (votes : list (AgentId * @VoteEntryOf N)) : N :=
  fold_left signedStep votes num_zero.

(** The outcome a score gives. *)
Definition outcomeOf {N : Type} `{JsNumber N}
    (votes : list (AgentId * @VoteEntryOf N)) (score : N) : VoteOutcome :=
  if anyVeto votes then VETOED
  else if num_gtb score num_zero then APPROVED
  else if num_ltb score num_zero then REJECTED
  else DEADLOCKED.

(** Four votes whose weights are the doubles nearest to 0.1, 0.8, 2 and
    2.9, in the order of the keys of the vote record. *)
Definition doubleBallot : list (AgentId * @VoteEntryOf float) :=
  [(ENTJ, {| vote := Vote.APPROVE; weight := 0x1.999999999999ap-4%float |});
   (ISFJ, {| vote := Vote.APPROVE; weight := 0x1.999999999999ap-1%float |});
   (INFJ, {| vote := Vote.APPROVE; weight := 2%float |});
   (ESTP, {| vote := Vote.REJECT; weight := 0x1.7333333333333p+1%float |})].

(** The same votes with the rationals their weights stand for. *)
Definition exactVotes (votes : list (AgentId * @VoteEntryOf float))
  : list (AgentId * VoteEntry) :=
  List.map (fun e => (fst e, {| vote := vote (snd e);
                                weight := exactValue (weight (snd e)) |})) votes.

(** The outcome as the spec words it. *)
Definition tallyVotes_spec (votes : list (AgentId * VoteEntry)) : VoteOutcome :=
  if anyVeto votes then VETOED
  else if Js.gtb (signedSum votes) 0 then APPROVED
  else if Js.ltb (signedSum votes) 0 then REJECTED
  else DEADLOCKED.

(** The [{type, score, luck}] triple of a roll. *)
Definition rollTriple (r : RNGResult) : RNGResultType * Z * Q :=
  (rng_type r, rng_score r, rng_luck r).

(** The authors of the last two log entries. *)
Definition lastTwoAuthors (recentLogs : list CouncilLogEntry) : list AgentId :=
  omap agentId (Js.slice_last 2 recentLogs).

Definition shouldForceOf (r : option ConvergenceResult) : option bool :=
  option_map shouldForce r.

Definition speechBy (a : AgentId) : CouncilLogEntry :=
  {| agentId := Some a; log_type := LogType.SPEECH; log_targetAgent := None |}.

Definition sampleProfile : UserProfile :=
  {| mbtiType := None; rigidityCoefficient := 5 # 10 |}.

Definition sampleBlock (key : string) (owner : AgentId) (cost : Q)
    (deadline : bool) (escrow : EscrowState) : ScheduleBlock :=
  {| block_id := key; category := WORK_AI; taskName := key;
     tokenCost := cost; modelTier := gpt_4o; isDeadline := deadline;
     isLocked := false; ownerAgent := owner; escrowState := Some escrow;
     finalGrade := None |}.

Definition agentWith (a : AgentId) (w sat : Q) : AgentState :=
  {| id := a; currentWeight := w;
     resourceInventory := DEFAULT_RESOURCE_INVENTORY; status := IDLE;
     satisfaction := sat; influence := 25; isSanctioned := false |}.

Definition contextOf (agents : list AgentState) : CouncilContext :=
  {| currentRound := 1; agentStates := agents; recentLogs := [];
     userProfile := sampleProfile; scheduleBlocks := None |}.

(** The report of a settlement, for a given state of the generator. *)
Definition reportOf (input : SettlementInput) (rng : Js.RandomSource)
  : SettlementReport :=
  fst (buildSettlementReport input rng).

Definition investmentOf (tokens : Q) (g : TaskGrade) : CollapseResult :=
  {| cr_taskId := "t"; cr_ownerAgent := ENTJ; cr_category := None;
     initialGrade := g; cr_finalGrade := g; tokenInvested := tokens;
     levelCosts := getTaskLevelCosts tokens; tradedWith := None;
     cr_isDeadline := false |}.

Definition settlementOf (l : list CollapseResult) (budget : Q) : SettlementInput :=
  {| collapseResults := l; in_trades := []; in_agentStates := [];
     totalBudget := budget; luckModifier := None |}.

Definition sampleConfig (blocks : list ScheduleBlock) : OrchestratorConfig :=
  {| maxRounds := 25; cfg_userProfile := sampleProfile;
     cfg_tokenAllocation := DEFAULT_TOKEN_ALLOCATION;
     cfg_scheduleBlocks := Some blocks |}.

(** The collapse results a finished session reports. *)
Definition sessionResults (o : Outcome SessionOutput) : option (list CollapseResult) :=
  match o with
  | Done out => Some (rep_collapseResults (settlementReport out))
  | _ => None
  end.

(** Accounting over the grade map of the collapse. *)
Fixpoint sumZOver {T} (f : T -> Z) (l : list T) : Z :=
  match l with
  | [] => 0
  | x :: r => f x + sumZOver f r
  end.

Definition keyOf (tm : TaskMeta) : string := block_id (block tm).

Definition spentOf (m : gmap string GradeInfo) (k : string) : Z :=
  match m !! k with
  | Some gi => tokenSpent gi
  | None => 0
  end.

Definition spentOn (m : gmap string GradeInfo) (tms : list TaskMeta) : Z :=
  sumZOver (fun tm => spentOf m (keyOf tm)) tms.

(** What an accepted trade adds to the total investment. *)
Definition tradeSurplus (t : TradeProposal) : Z :=
  tokenNeeded (demand t) - tokenFreed (offer t).

Definition totalBudgets (budgets : AgentId -> Z) : Z :=
  budgets ENTJ + budgets ISFJ + budgets INFJ + budgets ESTP.

Definition totalInvested (rs : list CollapseResult) : Q :=
  sumOver tokenInvested rs.

(** Sane agent states: a weight that is not negative and a satisfaction
    between 0 and 100. *)
Definition saneAgent (a : AgentState) : Prop :=
  (0 <= currentWeight a /\ 0 <= satisfaction a /\ satisfaction a <= 100)%Q.

(** One agent with a quarter of the weight, three quarters for ISFJ. *)
Definition tradeAgents : list AgentState :=
  [agentWith ENTJ 1 100; agentWith ISFJ 3 100;
   agentWith INFJ 0 100; agentWith ESTP 0 100].

Definition tradeBlocks : list ScheduleBlock :=
  [sampleBlock "t1" ENTJ 1250 false PENDING;
   sampleBlock "t2" ISFJ 200 false PENDING;
   sampleBlock "t3" ISFJ 174 false PENDING].

Definition deadlineBlocks : list ScheduleBlock :=
  [sampleBlock "deadline" ENTJ 500 true PENDING].

(** The tasks an agent allocates, and its allocation. *)
Definition allocationOf (taskMeta : list TaskMeta) (budgets : AgentId -> Z)
    (a : AgentId) : GradeAllocationResult :=
  allocateGradesForAgent (groupByOwner taskMeta a) (budgets a).

(** What [attemptP2PTrade] returns, when it returns a trade. *)
Definition tradeShape (requestingAgent : AgentId) (targetTaskId : string)
    (neededTokens : Z) (currentGrades : gmap string GradeInfo)
    (partnerAgent : AgentId) (pt : TaskMeta) (gi : GradeInfo)
    (t : TradeProposal) : Prop :=
  isDeadline (block pt) = false
  /\ currentGrades !! keyOf pt = Some gi
  /\ offer_taskId (offer t) = keyOf pt
  /\ demand_taskId (demand t) = targetTaskId
  /\ tokenNeeded (demand t) = neededTokens
  /\ sourceAgent t = requestingAgent
  /\ targetAgent t = partnerAgent
  /\ accepted t = true.

(** The invariant of the trade pass: the total spent is the total before
    the pass plus the surplus of every accepted trade, and every accepted
    trade offers a task that is not a deadline task. *)
Definition offerAllowed (taskMeta : list TaskMeta) (t : TradeProposal) : Prop :=
  exists pt, In pt taskMeta /\ keyOf pt = offer_taskId (offer t)
             /\ isDeadline (block pt) = false.

Definition tradeInvariant (taskMeta : list TaskMeta) (base : Z)
    (st : TradeState) : Prop :=
  spentOn (adjustedGrades st) taskMeta
  = base + sumZOver tradeSurplus (trades st)
  /\ Forall (offerAllowed taskMeta) (trades st).

(** The agent ids of a session, in order. *)
Definition agentIds (s : Session) : list AgentId :=
  List.map id (agentStates (context s)).

(** The weight the agent list gives to an agent id. *)
Definition weightShare (a : AgentId) (agents : list AgentState) : Q :=
  sumOver (fun s => if decide (id s = a) then currentWeight s else 0%Q) agents.

(** ** Definitions used to state the further properties *)

(** Two tasks of one agent, the second one a deadline task. *)
Definition mixedBlocks : list ScheduleBlock :=
  [sampleBlock "chore" ENTJ 300 false PENDING;
   sampleBlock "deadline" ENTJ 500 true PENDING].

(** The deadline task of [mixedBlocks], as [makeTaskMeta] builds it. *)
Definition deadlineTask : TaskMeta :=
  {| block := sampleBlock "deadline" ENTJ 500 true PENDING;
     tm_levelCosts := getTaskLevelCosts 500;
     tm_ownerAgent := ENTJ |}.

(** A task of ENTJ that a trade can upgrade, and two tasks of ISFJ: a
    deadline task, listed first, and one that can be downgraded. *)
Definition deadlineTradeBlocks : list ScheduleBlock :=
  [sampleBlock "t1" ENTJ 1000 false PENDING;
   sampleBlock "d1" ISFJ 200 true PENDING;
   sampleBlock "t3" ISFJ 174 false PENDING].

(** The shape of a trade that [attemptP2PTrade] accepts. *)
Definition wellFormedTrade (t : TradeProposal) : Prop :=
  accepted t = true
  /\ sourceAgent t <> targetAgent t
  /\ upgradeTo (demand t) = TaskGrade.B
  /\ gradeRank (upgradeFrom (demand t)) < gradeRank TaskGrade.B
  /\ downgradeTo (offer t) = lowerGrade (downgradeFrom (offer t))
  /\ gradeRank TaskGrade.C <= gradeRank (downgradeTo (offer t))
  /\ 0 < tokenNeeded (demand t)
  /\ tokenNeeded (demand t) <= 2 * tokenFreed (offer t)
  /\ (riskScore t < benefitScore t)%Q.

(** A result that [validateCollapseResults] reports no error for. *)
Definition acceptable (r : CollapseResult) : Prop :=
  ~ (cr_isDeadline r = true /\ cr_finalGrade r = TaskGrade.D)
  /\ (0 <= tokenInvested r)%Q.

(** The grade a grade map gives to a task; [buildCollapseResult] reads an
    absent task as C. *)
Definition gradeOf (m : gmap string GradeInfo) (k : string) : TaskGrade :=
  match m !! k with
  | Some gi => grade gi
  | None => TaskGrade.C
  end.

(** The tasks no trade mentions have the grade of the initial allocation. *)
Definition untouched (initial : gmap string GradeInfo) (st : TradeState) : Prop :=
  forall k, Js.find (tradeMentions k) (trades st) = None ->
            adjustedGrades st !! k = initial !! k.

(** No deadline task is graded below its initial grade. *)
Definition deadlinesKept (taskMeta : list TaskMeta)
    (initial : gmap string GradeInfo) (st : TradeState) : Prop :=
  forall tm, In tm taskMeta -> isDeadline (block tm) = true ->
             gradeRank (gradeOf initial (keyOf tm))
             <= gradeRank (gradeOf (adjustedGrades st) (keyOf tm)).

(** One grade A task of 166 tokens, with the largest luck modifier. *)
Definition luckyInput : SettlementInput :=
  {| collapseResults := [investmentOf 166 TaskGrade.A]; in_trades := [];
     in_agentStates := []; totalBudget := 1000;
     luckModifier := Some (5 # 10)%Q |}.

(** The luck of a roll, from the first draw [r] and the modifier. *)
Definition luckOf (r luckModifier : Q) : Q :=
  Js.max (-(5 # 10)) (Js.min (5 # 10) (-(5 # 10) + r + luckModifier)).

(** The score of a roll, from its luck. *)
Definition scoreOf (tokenInvested : Q) (grade : TaskGrade) (luck : Q) : Z :=
  Js.round (tokenInvested * LEVEL_COST_MULTIPLIERS grade * (1 + luck)).


(** The weights of the agents of a session, in order. *)
Definition weights (s : Session) : list Q :=
  List.map currentWeight (agentStates (context s)).

(** A violation is guarded by an agent with veto power, is CRITICAL exactly
    when it is a system bottom line, and is a WARNING only for the wealth
    reserve. *)
Definition wellGuarded (v : BottomLineViolation) : Prop :=
  AGENT_DEFINITIONS_hasVetoPower (guardianAgent v) = true
  /\ (severity v = CRITICAL <-> bl_type v = SBL)
  /\ (severity v = WARNING ->
      bl_resource v = OfResource WLTH /\ (currentValue v < threshold v)%Q).

(** A proposal that costs 20 HP. *)
Definition harmfulProposal : ResourceDelta :=
  {| delta_TIME := None; delta_HP := Some (DeltaNumber (-20));
     delta_SOC := None; delta_WLTH := None |}.

(** An automatic trade pairs an agent short of its primary resource with
    the agent that holds the most of it. *)
Definition soundSuggestion (agentStates : list AgentState)
    (t : AutoTradeSuggestion) : Prop :=
  ats_sourceAgent t <> ats_targetAgent t
  /\ exists poor rich,
       In poor agentStates /\ In rich agentStates
       /\ id poor = ats_sourceAgent t /\ id rich = ats_targetAgent t
       /\ let res := AGENT_DEFINITIONS_primaryResource (id poor) in
          (inventoryAt (resourceInventory poor) res < 30)%Q
          /\ (60 < inventoryAt (resourceInventory rich) res)%Q
          /\ (forall other, In other agentStates -> id other <> id poor ->
                (inventoryAt (resourceInventory other) res
                 <= inventoryAt (resourceInventory rich) res)%Q)
          /\ ats_demand t = singleDelta res 15
          /\ ats_offer t
             = singleDelta (AGENT_DEFINITIONS_primaryResource (id rich)) 10.

(** No resource of the inventory is negative. *)
Definition nonNegative (inv : ResourceInventory) : Prop :=
  (0 <= inv_TIME inv /\ 0 <= inv_HP inv /\ 0 <= inv_SOC inv /\ 0 <= inv_WLTH inv)%Q.

(** The satisfaction of an agent lies in [0, 100]. *)
Definition satisfactionInRange (a : AgentState) : Prop :=
  (0 <= satisfaction a /\ satisfaction a <= 100)%Q.

(** No resource of an agent is negative. *)
Definition resourcesNonNegative (a : AgentState) : Prop :=
  nonNegative (resourceInventory a).

(** What a turn may do to the session: it appends log entries and updates
    satisfaction, resources and status of agents, within their ranges. *)
Definition turnStep (s s' : Session) : Prop :=
  (exists effects, s' = fold_left applyEffect effects s)
  /\ List.map (fun a => (id a, currentWeight a, influence a, isSanctioned a))
              (agentStates (context s'))
     = List.map (fun a => (id a, currentWeight a, influence a, isSanctioned a))
                (agentStates (context s))
  /\ (Forall satisfactionInRange (agentStates (context s)) ->
      Forall satisfactionInRange (agentStates (context s')))
  /\ (Forall resourcesNonNegative (agentStates (context s)) ->
      Forall resourcesNonNegative (agentStates (context s')))
  /\ (exists entries,
        logs s' = logs s ++ entries
        /\ Forall (fun e => log_type e <> LogType.VETO) entries).

(** A fresh session over a list of agents. *)
Definition sessionOf (agents : list AgentState) : Session :=
  {| context := contextOf agents; logs := []; session_status := SESSION_ACTIVE;
     currentTick := 0; previousRoundStates := None |}.

(** An agent with a given amount of TIME. *)
Definition agentHolding (a : AgentId) (time : Q) : AgentState :=
  {| id := a; currentWeight := 1;
     resourceInventory := {| inv_TIME := time; inv_HP := 100; inv_SOC := 50;
                             inv_WLTH := 500 |};
     status := IDLE; satisfaction := 50; influence := 25;
     isSanctioned := false |}.

(** The token cost of the blocks an agent owns. *)
Definition demandOf (a : AgentId) (blocks : list ScheduleBlock) : Q :=
  sumOver tokenCost
    (List.filter (fun b => AgentId_eqb (ownerAgent b) a) blocks).

(** The invariant of the [agentDemands] loop of [detectTokenConflict]: one
    entry per owner met so far, holding the cost of its blocks. *)
Definition demandsFor (d : list (AgentId * Q)) (blocks : list ScheduleBlock)
  : Prop :=
  NoDup (List.map fst d)
  /\ (forall a, In a (List.map fst d) <-> exists b, In b blocks /\ ownerAgent b = a)
  /\ (forall e, In e d -> (snd e == demandOf (fst e) blocks)%Q)
  /\ (sumOver snd d == sumOver tokenCost blocks)%Q.

(** The keys of [categoryBreakdown]. *)
Definition allCategories : list DigitalTaskCategory :=
  [SLEEP_AI; WORK_AI; ENTERTAIN_AI; SOCIAL_AI; SAVINGS_AI; GAMING_AI;
   HEALTH_AI; LEARNING_AI; SYSTEM_CAT].

(** The keys of [modelTierBreakdown]. *)
Definition allTiers : list ModelTier := [gpt_4o; gpt_4o_mini; rule_based].

(* ================================================================== *)
(** * Part II: properties                                              *)
(* ================================================================== *)

(** ** Numbers *)

Section JsNumbers.

Lemma ltb_lt (x y : Q) : Js.ltb x y = true <-> (x < y)%Q.
Proof.
  unfold Js.ltb. rewrite negb_true_iff.
  split; intros H.
  - apply Qnot_le_lt. intros Hle. apply Qle_bool_iff in Hle. congruence.
  - destruct (Qle_bool y x) eqn:E; [|reflexivity].
    apply Qle_bool_iff in E. exfalso. apply (Qlt_not_le _ _ H E).
Qed.

Lemma ltb_ge (x y : Q) : Js.ltb x y = false <-> (y <= x)%Q.
Proof.
  unfold Js.ltb. rewrite negb_false_iff. apply Qle_bool_iff.
Qed.

Lemma leb_le (x y : Q) : Js.leb x y = true <-> (x <= y)%Q.
Proof. apply Qle_bool_iff. Qed.

Lemma gtb_gt (x y : Q) : Js.gtb x y = true <-> (y < x)%Q.
Proof. apply ltb_lt. Qed.

#[global] Instance ltb_proper : Proper (Qeq ==> Qeq ==> eq) Js.ltb.
Proof.
  intros x x' Hx y y' Hy.
  destruct (Js.ltb x y) eqn:E1, (Js.ltb x' y') eqn:E2; try reflexivity.
  - apply ltb_lt in E1. apply ltb_ge in E2. rewrite Hx, Hy in E1. lra.
  - apply ltb_ge in E1. apply ltb_lt in E2. rewrite Hx, Hy in E1. lra.
Qed.

#[global] Instance gtb_proper : Proper (Qeq ==> Qeq ==> eq) Js.gtb.
Proof. intros x x' Hx y y' Hy. unfold Js.gtb. now rewrite Hx, Hy. Qed.

Lemma max_spec (x y : Q) : (Js.max x y == Qmax x y)%Q.
Proof.
  unfold Js.max. destruct (Js.ltb x y) eqn:E.
  - apply ltb_lt in E. symmetry. apply Q.max_r. lra.
  - apply ltb_ge in E. symmetry. apply Q.max_l. lra.
Qed.

Lemma max_ge_l (x y : Q) : (x <= Js.max x y)%Q.
Proof.
  unfold Js.max. destruct (Js.ltb x y) eqn:E.
  - apply ltb_lt in E. lra.
  - lra.
Qed.

(** [Math.round] returns the nearest integer, ties going up. *)
Lemma round_nearest (x : Q) :
  (x - (1 # 2) < inject_Z (Js.round x) /\ inject_Z (Js.round x) <= x + (1 # 2))%Q.
Proof.
  unfold Js.round.
  pose proof (Qfloor_le (x + (1 # 2))) as Hle.
  pose proof (Qlt_floor (x + (1 # 2))) as Hlt.
  rewrite inject_Z_plus in Hlt. change (inject_Z 1) with 1%Q in Hlt.
  split; lra.
Qed.

Lemma round_inject_Z (z : Z) : Js.round (inject_Z z) = z.
Proof.
  unfold Js.round.
  pose proof (Qfloor_le (inject_Z z + (1 # 2))) as Hle.
  pose proof (Qlt_floor (inject_Z z + (1 # 2))) as Hlt.
  rewrite inject_Z_plus in Hlt. change (inject_Z 1) with 1%Q in Hlt.
  generalize dependent (Qfloor (inject_Z z + (1 # 2))). intros f Hle Hlt.
  assert (H1 : (inject_Z f < inject_Z (z + 1))%Q).
  { rewrite inject_Z_plus. change (inject_Z 1) with 1%Q. lra. }
  assert (H2 : (inject_Z (z + -1) < inject_Z f)%Q).
  { rewrite inject_Z_plus. change (inject_Z (-1)) with (-1 # 1)%Q. lra. }
  rewrite <- Zlt_Qlt in H1, H2. lia.
Qed.

Lemma round_nonneg (x : Q) : (0 <= x)%Q -> 0 <= Js.round x.
Proof.
  intros Hx. destruct (round_nearest x) as [Hlo _].
  assert (H : (inject_Z (-1) < inject_Z (Js.round x))%Q)
    by (change (inject_Z (-1)) with (-1 # 1)%Q; lra).
  rewrite <- Zlt_Qlt in H. lia.
Qed.

Lemma sort_insert_nonempty {A} (cmp : A -> A -> Q) x l :
  Js.sort_insert cmp x l <> [].
Proof. destruct l; simpl; [discriminate|]. destruct (Js.leb _ _); discriminate. Qed.

Lemma sort_nonempty {A} (cmp : A -> A -> Q) (l : list A) :
  l <> [] -> Js.sort cmp l <> [].
Proof. destruct l; [congruence|]. intros _. apply sort_insert_nonempty. Qed.

Lemma sort_insert_perm {A} (cmp : A -> A -> Q) x l :
  Permutation (x :: l) (Js.sort_insert cmp x l).
Proof.
  induction l as [|y r IH]; simpl; [reflexivity|].
  destruct (Js.leb _ _); [reflexivity|].
  rewrite perm_swap. now apply perm_skip.
Qed.

Lemma sort_perm {A} (cmp : A -> A -> Q) (l : list A) :
  Permutation l (Js.sort cmp l).
Proof.
  induction l as [|x r IH]; simpl; [reflexivity|].
  rewrite <- sort_insert_perm. now apply perm_skip.
Qed.

End JsNumbers.

(** ** Escrow state machine (schedule-engine.ts) *)

Section Escrow.

Lemma freezeEscrow_length (blocks : list ScheduleBlock) :
  length (freezeEscrow blocks) = length blocks.
Proof. unfold freezeEscrow. apply length_map. Qed.

Lemma applyEscrowOp_released (op : EscrowOp) (b : ScheduleBlock) :
  escrowState b = Some RELEASED ->
  escrowState (applyEscrowOp op b) = Some RELEASED.
Proof.
  intros H. destruct op as [|g]; simpl; [|reflexivity].
  rewrite H. reflexivity.
Qed.

(** Once released, a block stays released under any run of operations: it
    is never frozen again. *)
Lemma released_is_final (ops : list EscrowOp) (b : ScheduleBlock) :
  escrowState b = Some RELEASED ->
  escrowState (applyEscrowOps ops b) = Some RELEASED.
Proof.
  unfold applyEscrowOps. revert b.
  induction ops as [|op ops IH]; intros b H; simpl; [exact H|].
  apply IH. now apply applyEscrowOp_released.
Qed.

(** [freezeEscrow] leaves a burned block burned. *)
Lemma freezeEscrow_keeps_burned (b : ScheduleBlock) :
  escrowState b = Some BURNED ->
  List.map escrowState (freezeEscrow [b]) = [Some BURNED].
Proof. intros H. simpl. now rewrite H. Qed.

(** C5 (escrow monotonicity), the failing case: [releaseEscrow] has no
    guard on the current state, so a block whose escrow is BURNED leaves
    that state and becomes RELEASED, whatever the grade; [freezeEscrow]
    on the same block keeps it BURNED. *)
Theorem C5_releaseEscrow_leaves_burned (b : ScheduleBlock) (g : TaskGrade) :
  escrowState (set_escrow b (Some BURNED)) = Some BURNED
  /\ escrowState (releaseEscrow (set_escrow b (Some BURNED)) g) = Some RELEASED
  /\ List.map escrowState (freezeEscrow [set_escrow b (Some BURNED)])
     = [Some BURNED].
Proof. repeat split. Qed.

End Escrow.

(** ** Vote tally (negotiation-engine.ts) *)

Section Tally.

Lemma tally_score (votes : list (AgentId * VoteEntry)) (st : TallyState) :
  (ts_approvalScore (fold_left tallyStep votes st)
   == ts_approvalScore st + signedSum votes)%Q.
Proof.
  revert st. induction votes as [|[a v] r IH]; intros st.
  - unfold signedSum. simpl. lra.
  - simpl fold_left. rewrite IH. unfold signedSum. simpl sumOver.
    unfold tallyStep, weightOf. simpl.
    destruct (vote v); simpl; lra.
Qed.

Lemma tally_veto_kept {N : Type} `{JsNumber N}
    (votes : list (AgentId * @VoteEntryOf N)) (st : @TallyStateOf N) :
  is_Some (ts_vetoAgent st) ->
  is_Some (ts_vetoAgent (fold_left tallyStep votes st)).
Proof.
  revert st. induction votes as [|[a v] r IH]; intros st Hs; simpl; [exact Hs|].
  apply IH. unfold tallyStep. destruct (vote v); simpl; eauto.
Qed.

Lemma tally_veto {N : Type} `{JsNumber N}
    (votes : list (AgentId * @VoteEntryOf N)) (st : @TallyStateOf N) :
  ts_vetoAgent st = None ->
  is_Some (ts_vetoAgent (fold_left tallyStep votes st)) <-> anyVeto votes = true.
Proof.
  revert st. induction votes as [|[a v] r IH]; intros st Hs.
  - simpl. rewrite Hs. split; [intros [x Hx]; discriminate | discriminate].
  - simpl fold_left. unfold anyVeto. simpl existsb. fold (anyVeto r).
    destruct (decide (vote v = Vote.VETO)) as [Ev|Ev].
    + rewrite bool_decide_eq_true_2 by exact Ev. simpl.
      split; [reflexivity|]. intros _.
      apply tally_veto_kept. unfold tallyStep. rewrite Ev. simpl. eauto.
    + rewrite bool_decide_eq_false_2 by exact Ev. simpl.
      apply IH. unfold tallyStep. destruct (vote v); simpl; congruence.
Qed.

Lemma tally_accumulates {N : Type} `{JsNumber N}
    (votes : list (AgentId * @VoteEntryOf N)) (st : @TallyStateOf N) :
  ts_approvalScore (fold_left tallyStep votes st)
  = fold_left signedStep votes (ts_approvalScore st).
Proof.
  revert st. induction votes as [|[a v] r IH]; intros st; [reflexivity|].
  simpl fold_left. rewrite IH. f_equal.
  unfold tallyStep, signedStep. simpl. destruct (vote v); reflexivity.
Qed.

(** In exact arithmetic the order of the entries plays no part: the
    result is the outcome of the signed sum, and [approvalScore] is that
    sum. *)
Lemma tallyVotes_exact (votes : list (AgentId * VoteEntry)) (pid : string) :
  result (tallyVotes votes pid) = tallyVotes_spec votes
  /\ (approvalScore (tallyVotes votes pid) == signedSum votes)%Q.
Proof.
  unfold tallyVotes, tallyVotes_spec. simpl.
  set (st0 := {| ts_approvalScore := 0%Q; ts_totalWeight := 0%Q;
                 ts_vetoAgent := None |}).
  pose proof (tally_score votes st0) as Hs.
  pose proof (tally_veto votes st0 eq_refl) as Hv.
  assert (Hs' : (ts_approvalScore (fold_left tallyStep votes st0) == signedSum votes)%Q).
  { rewrite Hs. simpl. lra. }
  split; [|exact Hs'].
  destruct (ts_vetoAgent (fold_left tallyStep votes st0)) as [a|] eqn:E.
  - destruct Hv as [Hv _]. rewrite Hv; [reflexivity|eauto].
  - destruct (anyVeto votes) eqn:Ea.
    + destruct Hv as [_ Hv]. destruct (Hv eq_refl) as [x Hx]. discriminate.
    + rewrite (gtb_proper _ _ Hs' _ _ (Qeq_refl 0)).
      rewrite (ltb_proper _ _ Hs' _ _ (Qeq_refl 0)). reflexivity.
Qed.

(** C7 as stated fails in the arithmetic of the code: approve 0.1, 0.8
    and 2 against reject 2.9 has a signed sum of weights that is positive
    (5 / 2^55 for the doubles nearest to these numbers), and the tally is
    DEADLOCKED: 0.1 + 0.8 + 2 is rounded to the double nearest to 2.9. *)
Lemma C7_counterexample :
  ~ (forall votes : list (AgentId * @VoteEntryOf float),
        result (tallyVotes votes "proposal") = tallyVotes_spec (exactVotes votes)).
Proof.
  intros Hall. specialize (Hall doubleBallot).
  vm_compute in Hall. discriminate.
Qed.

(** C7, amended: in the arithmetic of the weights, be it exact or that of
    doubles, [approvalScore] is the score accumulated entry by entry (plus
    an APPROVE weight, minus a REJECT weight, from 0); a VETO vote of any
    agent gives VETOED whatever the weights; without one the result is
    APPROVED when that score is above 0, REJECTED when it is below 0, and
    DEADLOCKED otherwise. *)
Theorem C7_tallyVotes_outcome {N : Type} `{JsNumber N}
    (votes : list (AgentId * @VoteEntryOf N)) (pid : string) :
  approvalScore (tallyVotes votes pid) = accumulatedScore votes
  /\ result (tallyVotes votes pid) = outcomeOf votes (accumulatedScore votes).
Proof.
  unfold tallyVotes, outcomeOf, accumulatedScore.
  cbn [approvalScore result].
  pose proof (tally_accumulates votes
                {| ts_approvalScore := num_zero; ts_totalWeight := num_zero;
                   ts_vetoAgent := None |}) as Hs.
  cbn [ts_approvalScore] in Hs.
  pose proof (tally_veto votes
                {| ts_approvalScore := num_zero; ts_totalWeight := num_zero;
                   ts_vetoAgent := None |} eq_refl) as Hv.
  set (st0 := {| ts_approvalScore := num_zero; ts_totalWeight := num_zero;
                 ts_vetoAgent := None |}) in *.
  split; [exact Hs|]. rewrite <- Hs.
  destruct (ts_vetoAgent (fold_left tallyStep votes st0)) as [a|] eqn:E.
  - destruct Hv as [Hv _]. rewrite Hv; [reflexivity|eauto].
  - destruct (anyVeto votes) eqn:Ea; [|reflexivity].
    destruct Hv as [_ Hv]. destruct (Hv eq_refl) as [x Hx]. discriminate.
Qed.

End Tally.

(** ** Convergence (negotiation-engine.ts) *)

Section Convergence.

(** C4 as stated fails: with [maxRounds = 5] the call at round 5 is at the
    configured max round, and yet the min-round guard, which is tested
    first, answers [shouldForce = false]. *)
Lemma C4_counterexample :
  ~ (forall (agents : list AgentState) (prev : option (list AgentState))
            (round maxRounds : Z),
        (round < 10 ->
         shouldForceOf (forceConvergence agents round maxRounds 10 prev)
         = Some false)
        /\ (round >= maxRounds ->
            shouldForceOf (forceConvergence agents round maxRounds 10 prev)
            = Some true)).
Proof.
  intros H.
  destruct (H createAllAgentStates None 5 5) as [_ H2].
  specialize (H2 ltac:(lia)). vm_compute in H2. discriminate.
Qed.

(** With no agent the max-round branch reads [sorted[0].id] of an empty
    array and throws. *)
Lemma forceConvergence_no_agent_throws (prev : option (list AgentState)) :
  forceConvergence [] 25 25 10 prev = None.
Proof. reflexivity. Qed.

(** C4, amended: with [minRounds = 10], [shouldForce] is false at every
    round below 10, and true at every round that is at least 10 and at
    least [maxRounds], for a non-empty agent list. *)
Theorem C4_forceConvergence_bounds
    (agents : list AgentState) (prev : option (list AgentState))
    (round maxRounds : Z) :
  (round < 10 ->
   shouldForceOf (forceConvergence agents round maxRounds 10 prev) = Some false)
  /\ (10 <= round -> maxRounds <= round -> agents <> [] ->
      shouldForceOf (forceConvergence agents round maxRounds 10 prev) = Some true).
Proof.
  unfold forceConvergence. split.
  - intros H. apply Z.ltb_lt in H. rewrite H. reflexivity.
  - intros H10 Hmax Hne.
    assert (E1 : (round <? 10) = false) by (apply Z.ltb_ge; lia).
    assert (E2 : (round <? maxRounds) = false) by (apply Z.ltb_ge; lia).
    rewrite E1, E2.
    pose proof (sort_nonempty dominanceCmp agents Hne) as Hs.
    destruct (Js.sort dominanceCmp agents); [congruence|reflexivity].
Qed.

Lemma C4_forceConvergence_bounds_witness :
  (3 < 10
   /\ shouldForceOf (forceConvergence createAllAgentStates 3 25 10 None)
      = Some false)
  /\ (10 <= 25 /\ 25 <= 25 /\ createAllAgentStates <> []
      /\ shouldForceOf (forceConvergence createAllAgentStates 25 25 10 None)
         = Some true).
Proof.
  split.
  - split; [lia|].
    apply (proj1 (C4_forceConvergence_bounds createAllAgentStates None 3 25)).
    lia.
  - split; [lia|]. split; [lia|]. split; [discriminate|].
    apply (proj2 (C4_forceConvergence_bounds createAllAgentStates None 25 25));
      [lia | lia | discriminate].
Defined.

End Convergence.

(** ** The roll (settlement-engine.ts) *)

Section Roll.

(** C8: grade D, or a token investment that is zero or negative, always
    rolls CRITICAL_FAIL, whatever the luck modifier, the draws and the
    score. *)
Theorem C8_rollEnhanced_forced_fail
    (tokenInvested : Q) (grade : TaskGrade) (luckModifier : Q)
    (rng : Js.RandomSource) :
  grade = TaskGrade.D \/ (tokenInvested <= 0)%Q ->
  rng_type (fst (rollEnhanced tokenInvested grade luckModifier rng))
  = RNG.CRITICAL_FAIL.
Proof.
  intros H.
  assert (Hc : bool_decide (grade = TaskGrade.D) || Js.leb tokenInvested 0 = true).
  { destruct H as [H|H].
    - rewrite bool_decide_eq_true_2 by exact H. reflexivity.
    - apply orb_true_iff. right. now apply leb_le. }
  unfold rollEnhanced, Js.bind, Js.random, Js.randomIndex, Js.ret.
  cbv zeta.
  destruct (if Js.gtb _ _ then _ else _) as [ty sc].
  rewrite Hc. reflexivity.
Qed.

Lemma C8_rollEnhanced_forced_fail_witness :
  (TaskGrade.D = TaskGrade.D \/ (500 <= 0)%Q)
  /\ rng_type (fst (rollEnhanced 500 TaskGrade.D 0 (fun _ => 9 # 10)))
     = RNG.CRITICAL_FAIL.
Proof.
  split; [left; reflexivity|].
  apply (C8_rollEnhanced_forced_fail 500 TaskGrade.D 0 (fun _ => 9 # 10)).
  left. reflexivity.
Defined.

(** The triple does depend on the draw: on the inputs [(100, A, 0)] two
    states of the generator give different triples. *)
Lemma rollEnhanced_depends_on_the_draw :
  ~ (forall (tokenInvested : Q) (grade : TaskGrade) (luckModifier : Q)
            (run1 run2 : Js.RandomSource),
        rollTriple (fst (rollEnhanced tokenInvested grade luckModifier run1))
        = rollTriple (fst (rollEnhanced tokenInvested grade luckModifier run2))).
Proof.
  intros H.
  specialize (H 100%Q TaskGrade.A 0%Q (fun _ => 0%Q) (fun _ => (9 # 10)%Q)).
  vm_compute in H. discriminate.
Qed.

(** C9: the triple is a function of the inputs and of the first value
    [Math.random()] returns during the call.  Two runs on identical inputs
    from the same state of the random source, and more generally any two
    that agree on that first draw, produce the same triple, whatever the
    later draws are. *)
Theorem C9_rollEnhanced_first_draw
    (tokenInvested : Q) (grade : TaskGrade) (luckModifier : Q)
    (run1 run2 : Js.RandomSource) :
  run1 0%nat = run2 0%nat ->
  rollTriple (fst (rollEnhanced tokenInvested grade luckModifier run1))
  = rollTriple (fst (rollEnhanced tokenInvested grade luckModifier run2)).
Proof.
  intros H.
  unfold rollEnhanced, Js.bind, Js.random, Js.randomIndex, Js.ret.
  cbv zeta. rewrite H.
  destruct (if Js.gtb _ _ then _ else _) as [ty sc].
  destruct (bool_decide (grade = TaskGrade.D) || Js.leb tokenInvested 0);
    reflexivity.
Qed.

Lemma C9_rollEnhanced_first_draw_witness :
  (fun n : nat => if Nat.eqb n 0 then 3 # 10 else 0)%Q 0%nat
  = (fun n : nat => if Nat.eqb n 0 then 3 # 10 else 7 # 10)%Q 0%nat
  /\ rollTriple (fst (rollEnhanced 100 TaskGrade.A 0
                        (fun n => if Nat.eqb n 0 then 3 # 10 else 0)%Q))
     = rollTriple (fst (rollEnhanced 100 TaskGrade.A 0
                          (fun n => if Nat.eqb n 0 then 3 # 10 else 7 # 10)%Q)).
Proof.
  split; [reflexivity|].
  apply (C9_rollEnhanced_first_draw 100 TaskGrade.A 0
           (fun n => if Nat.eqb n 0 then 3 # 10 else 0)%Q
           (fun n => if Nat.eqb n 0 then 3 # 10 else 7 # 10)%Q).
  reflexivity.
Defined.

End Roll.

(** ** Speaker selection (theater-engine.ts) *)

Section Speaker.

(** The controversy override never returns a recent speaker. *)
Lemma hot_topic_speaker_not_recent (tick : Z) (agents : list AgentState)
    (recentLogs : list CouncilLogEntry) (a : AgentId) :
  selectSpeakerForTick tick agents recentLogs
  = {| speaker := Some a; reason := HotTopic |} ->
  ~ In a (lastTwoAuthors recentLogs).
Proof.
  unfold selectSpeakerForTick, lastTwoAuthors.
  set (recent := omap agentId (Js.slice_last 2 recentLogs)).
  intros H Hin.
  destruct (Z.rem tick 7 =? 0); [|discriminate].
  destruct (_ && _); [|discriminate].
  destruct (Js.find _ _) as [c|] eqn:Ef; [|discriminate].
  injection H as ->.
  apply find_some in Ef. destruct Ef as [_ Ef].
  apply negb_true_iff in Ef.
  assert (Ht : includes recent (Some a) = true).
  { simpl. apply existsb_exists. exists a. split; [exact Hin|].
    unfold AgentId_eqb. now apply bool_decide_eq_true_2. }
  congruence.
Qed.

(** The rotation returns a recent speaker only when the agent of the
    tick and the next one in rotation both wrote one of the last two
    entries. *)
Lemma rotation_repeats_only_after_two (tick : Z) (agents : list AgentState)
    (recentLogs : list CouncilLogEntry) :
  let base := allIds_at (Z.rem tick 4) in
  let next := allIds_at (Z.rem (Z.rem tick 4 + 1) 4) in
  includes (lastTwoAuthors recentLogs)
           (speaker (selectSpeakerForTick tick agents recentLogs)) = true ->
  includes (lastTwoAuthors recentLogs) base = true
  /\ includes (lastTwoAuthors recentLogs) next = true
  /\ selectSpeakerForTick tick agents recentLogs
     = {| speaker := next; reason := Rotation |}.
Proof.
  intros base next.
  unfold selectSpeakerForTick, lastTwoAuthors.
  change (Z.of_nat (length allIds)) with 4. fold base next.
  set (recent := omap agentId (Js.slice_last 2 recentLogs)).
  assert (Hfb : includes recent
                  (if includes recent base then next else base) = true ->
                includes recent base = true /\ includes recent next = true
                /\ (if includes recent base then next else base) = next).
  { destruct (includes recent base) eqn:Eb; [tauto|]. congruence. }
  destruct (Z.rem tick 7 =? 0).
  - destruct (_ && _) eqn:Ec.
    + destruct (Js.find _ _) as [c|] eqn:Ef.
      * simpl. intros Hc. apply find_some in Ef. destruct Ef as [_ Ef].
        apply negb_true_iff in Ef. simpl in Ef. congruence.
      * simpl. intros H. destruct (Hfb H) as (H1 & H2 & H3).
        rewrite H3. tauto.
    + simpl. intros H. destruct (Hfb H) as (H1 & H2 & H3). rewrite H3. tauto.
  - simpl. intros H. destruct (Hfb H) as (H1 & H2 & H3). rewrite H3. tauto.
Qed.

(** C10, the failing case: at tick 5 the rotation is at ISFJ; the last two
    log entries are by ISFJ and INFJ; the rotation moves one step to INFJ,
    who wrote the last entry, and INFJ is returned. *)
Theorem C10_speaker_repeats :
  let recentLogs := [speechBy ENTJ; speechBy ISFJ; speechBy INFJ] in
  selectSpeakerForTick 5 createAllAgentStates recentLogs
  = {| speaker := Some INFJ; reason := Rotation |}
  /\ lastTwoAuthors recentLogs = [ISFJ; INFJ]
  /\ In INFJ (lastTwoAuthors recentLogs).
Proof. vm_compute. repeat split. right. left. reflexivity. Qed.

End Speaker.

(** ** Settlement report (settlement-engine.ts) *)

Section Settlement.

Lemma fold_invested (l : list CollapseResult) (acc : Q) :
  (fold_left (fun sum cr => sum + tokenInvested cr) l acc
   == acc + sumOver tokenInvested l)%Q.
Proof.
  revert acc. induction l as [|cr r IH]; intros acc; simpl.
  - lra.
  - rewrite IH. lra.
Qed.

Lemma mapM_length {T U} (f : T -> Js.Rand U) (l : list T) (rng : Js.RandomSource) :
  length (fst (Js.mapM f l rng)) = length l.
Proof.
  revert rng. induction l as [|x r IH]; intros rng; simpl; [reflexivity|].
  unfold Js.bind, Js.ret.
  destruct (f x rng) as [y rng1].
  specialize (IH rng1). destruct (Js.mapM f r rng1) as [ys rng2].
  simpl in *. now rewrite IH.
Qed.

Lemma report_results (input : SettlementInput) (rng : Js.RandomSource) :
  rep_collapseResults (reportOf input rng) = collapseResults input.
Proof.
  unfold reportOf, buildSettlementReport, Js.bind, Js.ret.
  destruct (Js.mapM _ _ rng) as [cards rng1].
  destruct (Js.mapM _ _ rng1) as [dl rng2]. reflexivity.
Qed.

Lemma report_cards_length (input : SettlementInput) (rng : Js.RandomSource) :
  length (eventCards (reportOf input rng)) = length (collapseResults input).
Proof.
  unfold reportOf, buildSettlementReport, Js.bind, Js.ret.
  pose proof (mapM_length
    (fun cr => generateEventCard cr (default 0%Q (luckModifier input)))
    (collapseResults input) rng) as Hl.
  destruct (Js.mapM _ _ rng) as [cards rng1].
  destruct (Js.mapM _ _ rng1) as [dl rng2]. exact Hl.
Qed.

(** C6: in the report, [totalSpent] is the sum of [tokenInvested];
    [totalRemaining] is [max(0, totalBudget - totalSpent)]; [carryOver] is
    half of it rounded to the nearest integer; [meltdownOccurred] holds
    exactly when [totalSpent > totalBudget * 1.2]; and a meltdown makes the
    overall grade D whatever the event cards are. *)
Theorem C6_token_settlement (input : SettlementInput) (rng : Js.RandomSource) :
  (totalSpent (tokenSettlement (reportOf input rng))
   == sumOver tokenInvested (collapseResults input))%Q
  /\ (totalRemaining (tokenSettlement (reportOf input rng))
      == Qmax 0 (totalBudget input
                 - totalSpent (tokenSettlement (reportOf input rng))))%Q
  /\ carryOver (tokenSettlement (reportOf input rng))
     = Js.round (totalRemaining (tokenSettlement (reportOf input rng)) * (5 # 10))
  /\ (meltdownOccurred (tokenSettlement (reportOf input rng)) = true
      <-> (totalBudget input * (12 # 10)
           < totalSpent (tokenSettlement (reportOf input rng)))%Q)
  /\ (meltdownOccurred (tokenSettlement (reportOf input rng)) = true ->
      overallGrade (reportOf input rng) = TaskGrade.D).
Proof.
  unfold reportOf, buildSettlementReport, Js.bind, Js.ret.
  destruct (Js.mapM _ _ rng) as [cards rng1].
  destruct (Js.mapM _ _ rng1) as [dl rng2].
  cbn [fst tokenSettlement totalSpent totalRemaining carryOver
       meltdownOccurred overallGrade].
  repeat split.
  - rewrite fold_invested. lra.
  - apply max_spec.
  - apply gtb_gt.
  - apply gtb_gt.
  - intros Hm. unfold calculateOverallGrade. now rewrite Hm.
Qed.

Lemma C6_token_settlement_witness :
  meltdownOccurred
    (tokenSettlement
       (reportOf (settlementOf [investmentOf 2000 TaskGrade.S] 1000)
                 (fun _ => 9 # 10))) = true
  /\ overallGrade (reportOf (settlementOf [investmentOf 2000 TaskGrade.S] 1000)
                            (fun _ => 9 # 10)) = TaskGrade.D.
Proof.
  split; [reflexivity|].
  apply (proj2 (proj2 (proj2 (proj2
           (C6_token_settlement
              (settlementOf [investmentOf 2000 TaskGrade.S] 1000)
              (fun _ => 9 # 10)))))).
  reflexivity.
Defined.

(** The rounding of [carryOver]: the integer nearest to half of the
    remaining budget. *)
Lemma carryOver_is_half (input : SettlementInput) (rng : Js.RandomSource) :
  let ts := tokenSettlement (reportOf input rng) in
  (totalRemaining ts * (1 # 2) - (1 # 2) < inject_Z (carryOver ts)
   /\ inject_Z (carryOver ts) <= totalRemaining ts * (1 # 2) + (1 # 2))%Q.
Proof.
  unfold reportOf, buildSettlementReport, Js.bind, Js.ret.
  destruct (Js.mapM _ _ rng) as [cards rng1].
  destruct (Js.mapM _ _ rng1) as [dl rng2].
  cbn [fst tokenSettlement totalRemaining carryOver].
  match goal with
  | |- context [Js.round (?r * (5 # 10))] =>
      pose proof (round_nearest (r * (5 # 10))) as [H1 H2]
  end.
  split; lra.
Qed.

End Settlement.

(** ** The session driver (orchestrator.ts) *)

Section SessionDriver.

Variable config : OrchestratorConfig.
Variable service : TextService.

Lemma updateAgentState_ids (l : list AgentState) (a : AgentId) (u : AgentUpdate) :
  List.map id (updateAgentState l a u) = List.map id l.
Proof.
  unfold updateAgentState. rewrite List.map_map. apply List.map_ext.
  intros x. destruct (AgentId_eqb (id x) a); reflexivity.
Qed.

Lemma applyEffect_keeps (s : Session) (e : TurnEffect) :
  agentIds (applyEffect s e) = agentIds s
  /\ currentRound (context (applyEffect s e)) = currentRound (context s)
  /\ session_status (applyEffect s e) = session_status s.
Proof.
  destruct e as [a u|entry]; unfold agentIds; simpl.
  - rewrite updateAgentState_ids. repeat split.
  - repeat split.
Qed.

Lemma applyEffects_keep (effects : list TurnEffect) (s : Session) :
  agentIds (fold_left applyEffect effects s) = agentIds s
  /\ currentRound (context (fold_left applyEffect effects s))
     = currentRound (context s)
  /\ session_status (fold_left applyEffect effects s) = session_status s.
Proof.
  revert s. induction effects as [|e r IH]; intros s; simpl; [repeat split|].
  destruct (IH (applyEffect s e)) as (H1 & H2 & H3).
  destruct (applyEffect_keeps s e) as (K1 & K2 & K3).
  repeat split; congruence.
Qed.

Lemma electChair_some (agents : list AgentState) :
  agents <> [] -> is_Some (electChair agents).
Proof.
  intros H. unfold electChair.
  pose proof (sort_nonempty (fun a b => (currentWeight b - currentWeight a)%Q)
                agents H) as Hs.
  destruct (Js.sort _ agents); [congruence|eauto].
Qed.

Lemma forceConvergence_some (agents : list AgentState) (round maxR minR : Z)
    (prev : option (list AgentState)) :
  agents <> [] -> is_Some (forceConvergence agents round maxR minR prev).
Proof.
  intros H. unfold forceConvergence.
  pose proof (sort_nonempty dominanceCmp agents H) as Hs.
  destruct (round <? minR); [eauto|].
  destruct (round <? maxR).
  - destruct (_ && _); [|eauto].
    destruct (Js.sort dominanceCmp agents); [congruence|eauto].
  - destruct (Js.sort dominanceCmp agents); [congruence|eauto].
Qed.

Lemma nonempty_of_ids (s : Session) :
  agentIds s = ALL_AGENT_IDS -> agentStates (context s) <> [].
Proof.
  unfold agentIds. destruct (agentStates (context s)); [discriminate|congruence].
Qed.

(** One iteration over the four agents never throws; it either ends the
    loop with the session concluded or moves to the next round. *)
Lemma negotiationStep_spec (s : Session) :
  agentIds s = ALL_AGENT_IDS ->
  match negotiationStep config service s with
  | Continue s' =>
      currentRound (context s') = currentRound (context s) + 1
      /\ agentIds s' = ALL_AGENT_IDS
  | Break s' => agentIds s' = ALL_AGENT_IDS /\ session_status s' = CONCLUDED
  | Throws => False
  end.
Proof.
  intros H4. unfold negotiationStep. cbv zeta.
  set (s1 := {| context := context s; logs := logs s;
                session_status := session_status s;
                currentTick := currentTick s + 1;
                previousRoundStates := previousRoundStates s |}).
  assert (Hne : agentStates (context s1) <> [])
    by (apply (nonempty_of_ids s1); exact H4).
  assert (Hu : exists s2,
    match urgency (getTickPacing (currentTick s1) maxTickRounds) with
    | high =>
        match electChair (agentStates (context s1)) with
        | None => None
        | Some _ =>
            Some (if buildUrgencyMessage_nonempty (currentTick s1) maxTickRounds
                  then addLog s1 (systemLog None) else s1)
        end
    | _ => Some s1
    end = Some s2
    /\ agentIds s2 = ALL_AGENT_IDS
    /\ currentRound (context s2) = currentRound (context s)).
  { destruct (urgency _); try (exists s1; repeat split; exact H4).
    destruct (electChair_some _ Hne) as [c ->].
    destruct (buildUrgencyMessage_nonempty _ _);
      eexists; repeat split; exact H4. }
  destruct Hu as (s2 & -> & H42 & Hr2).
  destruct (service _ _ _) as [|effects].
  - split; [simpl; lia | exact H42].
  - destruct (applyEffects_keep effects s2) as (K1 & K2 & K3).
    set (s3 := fold_left applyEffect effects s2) in *.
    assert (K4 : agentIds s3 = ALL_AGENT_IDS) by congruence.
    destruct (forceConvergence_some (agentStates (context s3))
                (currentRound (context s3)) (maxRounds config) 10
                (previousRoundStates s3) (nonempty_of_ids s3 K4)) as [cv ->].
    destruct (shouldForce cv).
    + split; [exact K4|reflexivity].
    + split; [simpl; lia|exact K4].
Qed.

(** The negotiation loop ends within [maxRounds - currentRound + 1]
    iterations, and on exit its guard is false. *)
Lemma negotiationLoop_terminates (fuel : nat) (s : Session) :
  agentIds s = ALL_AGENT_IDS ->
  maxRounds config - currentRound (context s) + 1 <= Z.of_nat fuel ->
  exists s', negotiationLoop fuel config service s = Done s'
             /\ agentIds s' = ALL_AGENT_IDS
             /\ loopGuard config s' = false.
Proof.
  revert s. induction fuel as [|fuel IH]; intros s H4 Hf.
  - simpl. destruct (loopGuard config s) eqn:Eg.
    + exfalso. unfold loopGuard in Eg. apply andb_true_iff in Eg.
      destruct Eg as [_ Eg]. apply Z.leb_le in Eg. lia.
    + exists s. repeat split; assumption.
  - simpl. destruct (loopGuard config s) eqn:Eg.
    + pose proof (negotiationStep_spec s H4) as Hs.
      destruct (negotiationStep config service s) as [s'|s'|].
      * destruct Hs as [Hr H4']. apply IH; [exact H4'|lia].
      * destruct Hs as [H4' Hc]. exists s'. repeat split; [exact H4'|].
        unfold loopGuard. rewrite Hc. reflexivity.
      * contradiction.
    + exists s. repeat split; assumption.
Qed.

Lemma collapseFromAgentStates_ids (ctx : CouncilContext) :
  List.map cr_taskId (collapseFromAgentStates ctx)
  = List.map (fun a => ("agent_task_" ++ agentName a)%string)
             (List.map id (agentStates ctx)).
Proof.
  unfold collapseFromAgentStates. rewrite !List.map_map. reflexivity.
Qed.

(** The driver returns for every configuration and every behaviour of the
    text service, and what it reports is one collapse result for each of
    the four agents: the task list of the configuration plays no part. *)
Lemma session_reports_agent_results (rng : Js.RandomSource) :
  exists results,
    sessionResults (runCouncilSession config service rng) = Some results
    /\ List.map cr_taskId results
       = ["agent_task_ENTJ"; "agent_task_ISFJ"; "agent_task_INFJ";
          "agent_task_ESTP"]%string.
Proof.
  unfold runCouncilSession, runCouncilSessionWith.
  set (s0 := addLog (addLog (initialSession config) (systemLog None))
                    (systemLog None)).
  assert (H0 : agentIds s0 = ALL_AGENT_IDS) by reflexivity.
  assert (Hf : maxRounds config - currentRound (context s0) + 1
               <= Z.of_nat (Z.to_nat (maxRounds config))).
  { change (currentRound (context s0)) with 1. lia. }
  destruct (negotiationLoop_terminates _ s0 H0 Hf) as (s1 & -> & H1 & _).
  cbv zeta.
  set (s2 := addLog s1 (systemLog None)).
  set (crs := collapseFromAgentStates (context s2)).
  assert (Hc : List.map cr_taskId crs
               = ["agent_task_ENTJ"; "agent_task_ISFJ"; "agent_task_INFJ";
                  "agent_task_ESTP"]%string).
  { unfold crs. rewrite collapseFromAgentStates_ids.
    change (List.map id (agentStates (context s2))) with (agentIds s1).
    rewrite H1. reflexivity. }
  set (s3 := fold_left _ crs s2).
  set (input := {| collapseResults := crs; in_trades := [];
                   in_agentStates := agentStates (context s3);
                   totalBudget := 1000; luckModifier := None |}).
  pose proof (report_results input rng) as Hr.
  unfold reportOf in Hr.
  destruct (buildSettlementReport input rng) as [report rng'].
  simpl in Hr.
  exists crs. split; [|exact Hc]. simpl. now rewrite Hr.
Qed.

End SessionDriver.

(** C3, the failing case: a session over a task list with a single
    (deadline) task ends, for every behaviour of the text service and of
    the generator, and reports four collapse results, one for each agent
    and none for the task. *)
Theorem C3_single_task_session (service : TextService) (rng : Js.RandomSource) :
  exists results,
    sessionResults
      (runCouncilSession
         (sampleConfig [sampleBlock "t1" ENTJ 100 true PENDING]) service rng)
    = Some results
    /\ length results = 4%nat
    /\ List.map cr_taskId results
       = ["agent_task_ENTJ"; "agent_task_ISFJ"; "agent_task_INFJ";
          "agent_task_ESTP"]%string.
Proof.
  destruct (session_reports_agent_results
              (sampleConfig [sampleBlock "t1" ENTJ 100 true PENDING])
              service rng) as (results & Hr & Hids).
  exists results. split; [exact Hr|]. split; [|exact Hids].
  rewrite <- (length_map cr_taskId), Hids. reflexivity.
Qed.

(** ** The collapse (collapse-engine.ts) *)

Section CollapseAccounting.

Lemma sumZOver_perm {T} (f : T -> Z) (l l' : list T) :
  Permutation l l' -> sumZOver f l = sumZOver f l'.
Proof. induction 1; simpl; lia. Qed.

Lemma sumZOver_ext {T} (f g : T -> Z) (l : list T) :
  (forall x, In x l -> f x = g x) -> sumZOver f l = sumZOver g l.
Proof.
  induction l as [|x r IH]; intros H; simpl; [reflexivity|].
  rewrite (H x) by (left; reflexivity). rewrite IH; [reflexivity|].
  intros y Hy. apply H. now right.
Qed.

Lemma spentOf_insert_eq (m : gmap string GradeInfo) (k : string) (v : GradeInfo) :
  spentOf (<[k := v]> m) k = tokenSpent v.
Proof. unfold spentOf. now rewrite lookup_insert_eq. Qed.

Lemma spentOf_insert_ne (m : gmap string GradeInfo) (k k' : string) (v : GradeInfo) :
  k <> k' -> spentOf (<[k := v]> m) k' = spentOf m k'.
Proof. intros H. unfold spentOf. now rewrite lookup_insert_ne. Qed.

Lemma spentOn_insert_notin (m : gmap string GradeInfo) (k : string)
    (v : GradeInfo) (tms : list TaskMeta) :
  ~ In k (List.map keyOf tms) ->
  spentOn (<[k := v]> m) tms = spentOn m tms.
Proof.
  intros H. unfold spentOn. apply sumZOver_ext. intros tm Htm.
  apply spentOf_insert_ne. intros ->. apply H. now apply in_map.
Qed.

Lemma spentOn_insert_in (m : gmap string GradeInfo) (k : string)
    (v : GradeInfo) (tms : list TaskMeta) :
  NoDup (List.map keyOf tms) -> In k (List.map keyOf tms) ->
  spentOn (<[k := v]> m) tms = spentOn m tms - spentOf m k + tokenSpent v.
Proof.
  induction tms as [|tm r IH]; intros Hnd Hin; [destruct Hin|].
  simpl in Hnd. apply NoDup_cons in Hnd. destruct Hnd as [Hni Hnd].
  change (spentOn (<[k:=v]> m) (tm :: r))
    with (spentOf (<[k:=v]> m) (keyOf tm) + spentOn (<[k:=v]> m) r).
  change (spentOn m (tm :: r)) with (spentOf m (keyOf tm) + spentOn m r).
  destruct (decide (k = keyOf tm)) as [->|Hne].
  - rewrite spentOf_insert_eq.
    rewrite spentOn_insert_notin; [lia|].
    intros H. apply Hni. now apply list_elem_of_In.
  - rewrite spentOf_insert_ne by exact Hne.
    rewrite IH; [lia|exact Hnd|].
    destruct Hin as [Hin|Hin]; [congruence|exact Hin].
Qed.

Lemma NoDup_map_inj {T U} (f : T -> U) (l : list T) (x y : T) :
  NoDup (List.map f l) -> In x l -> In y l -> f x = f y -> x = y.
Proof.
  induction l as [|z r IH]; intros Hnd Hx Hy Hf; [destruct Hx|].
  simpl in Hnd. apply NoDup_cons in Hnd. destruct Hnd as [Hni Hnd].
  destruct Hx as [->|Hx], Hy as [->|Hy].
  - reflexivity.
  - exfalso. apply Hni. rewrite Hf. apply list_elem_of_In. now apply in_map.
  - exfalso. apply Hni. rewrite <- Hf. apply list_elem_of_In. now apply in_map.
  - now apply IH.
Qed.

(** *** One agent's allocation *)

Ltac case_cost :=
  match goal with
  | |- context [?a <=? ?b] => destruct (Z.leb_spec a b)
  end.

Lemma allocateStep_remaining (acc : GradeAllocationResult) (tm : TaskMeta) :
  0 <= remaining acc -> 0 <= remaining (allocateStep acc tm).
Proof. intros H. unfold allocateStep. repeat case_cost; simpl; lia. Qed.

Lemma allocateStep_spent (acc : GradeAllocationResult) (tm : TaskMeta) :
  spentOf (grades (allocateStep acc tm)) (keyOf tm)
  = remaining acc - remaining (allocateStep acc tm).
Proof.
  unfold allocateStep, keyOf.
  repeat case_cost; simpl; rewrite spentOf_insert_eq; simpl; lia.
Qed.

Lemma allocateStep_other (acc : GradeAllocationResult) (tm : TaskMeta) (k : string) :
  k <> keyOf tm -> grades (allocateStep acc tm) !! k = grades acc !! k.
Proof.
  intros H. unfold allocateStep, keyOf in *.
  repeat case_cost; simpl; rewrite lookup_insert_ne; congruence.
Qed.

Lemma allocateStep_self (acc : GradeAllocationResult) (tm : TaskMeta) :
  is_Some (grades (allocateStep acc tm) !! keyOf tm).
Proof.
  unfold allocateStep, keyOf.
  repeat case_cost; simpl; rewrite lookup_insert_eq; eauto.
Qed.

Lemma allocateFold_other (l : list TaskMeta) (acc : GradeAllocationResult)
    (k : string) :
  ~ In k (List.map keyOf l) ->
  grades (fold_left allocateStep l acc) !! k = grades acc !! k.
Proof.
  revert acc. induction l as [|tm r IH]; intros acc H; simpl; [reflexivity|].
  rewrite IH.
  - apply allocateStep_other. intros ->. apply H. now left.
  - intros Hin. apply H. now right.
Qed.

Lemma allocateFold_self (l : list TaskMeta) (acc : GradeAllocationResult)
    (k : string) :
  In k (List.map keyOf l) ->
  is_Some (grades (fold_left allocateStep l acc) !! k).
Proof.
  revert acc. induction l as [|tm r IH]; intros acc H; [destruct H|].
  simpl. destruct (in_dec string_dec k (List.map keyOf r)) as [Hin|Hni].
  - now apply IH.
  - rewrite allocateFold_other by exact Hni.
    destruct H as [<-|H]; [apply allocateStep_self|contradiction].
Qed.

Lemma allocateFold_remaining (l : list TaskMeta) (acc : GradeAllocationResult) :
  0 <= remaining acc -> 0 <= remaining (fold_left allocateStep l acc).
Proof.
  revert acc. induction l as [|tm r IH]; intros acc H; simpl; [exact H|].
  apply IH. now apply allocateStep_remaining.
Qed.

Lemma allocateFold_spent (l : list TaskMeta) (acc : GradeAllocationResult) :
  NoDup (List.map keyOf l) ->
  spentOn (grades (fold_left allocateStep l acc)) l
  = remaining acc - remaining (fold_left allocateStep l acc).
Proof.
  revert acc. induction l as [|tm r IH]; intros acc Hnd.
  - simpl. unfold spentOn. simpl. lia.
  - simpl in Hnd. apply NoDup_cons in Hnd. destruct Hnd as [Hni Hnd].
    simpl fold_left.
    change (spentOn ?m (tm :: r)) with (spentOf m (keyOf tm) + spentOn m r).
    rewrite IH by exact Hnd.
    unfold spentOf at 1. rewrite allocateFold_other.
    + fold (spentOf (grades (allocateStep acc tm)) (keyOf tm)).
      rewrite allocateStep_spent. lia.
    + intros H. apply Hni. now apply list_elem_of_In.
Qed.

(** What [allocateGradesForAgent] spends on the tasks of an agent is the
    budget minus what remains; nothing remains below zero; the map holds
    exactly the tasks of the agent. *)
Lemma allocateGradesForAgent_spec (tasks : list TaskMeta) (budget : Z) :
  NoDup (List.map keyOf tasks) ->
  spentOn (grades (allocateGradesForAgent tasks budget)) tasks
  = budget - remaining (allocateGradesForAgent tasks budget)
  /\ (0 <= budget -> 0 <= remaining (allocateGradesForAgent tasks budget))
  /\ (forall k, ~ In k (List.map keyOf tasks) ->
                grades (allocateGradesForAgent tasks budget) !! k = None)
  /\ (forall k, In k (List.map keyOf tasks) ->
                is_Some (grades (allocateGradesForAgent tasks budget) !! k)).
Proof.
  intros Hnd. unfold allocateGradesForAgent.
  pose proof (sort_perm allocationCmp tasks) as Hp.
  set (sorted := Js.sort allocationCmp tasks) in *.
  set (acc := {| grades := ∅; remaining := budget |}).
  assert (Hk : Permutation (List.map keyOf tasks) (List.map keyOf sorted))
    by now apply Permutation_map.
  assert (Hnd' : NoDup (List.map keyOf sorted)).
  { apply NoDup_ListNoDup. apply (Permutation_NoDup Hk).
    now apply NoDup_ListNoDup. }
  repeat split.
  - unfold spentOn. rewrite (sumZOver_perm _ _ _ Hp).
    apply (allocateFold_spent sorted acc Hnd').
  - intros Hb. now apply allocateFold_remaining.
  - intros k Hk'. rewrite allocateFold_other; [apply lookup_empty|].
    intros Hin. apply Hk'. apply (Permutation_in _ (Permutation_sym Hk) Hin).
  - intros k Hk'. apply allocateFold_self.
    apply (Permutation_in _ Hk Hk').
Qed.

End CollapseAccounting.

Section InitialAllocation.

Variable taskMeta : list TaskMeta.
Hypothesis keys_distinct : NoDup (List.map keyOf taskMeta).
Variable budgets : AgentId -> Z.

Local Abbreviation tasksOf := (groupByOwner taskMeta).
Local Abbreviation alloc := (allocationOf taskMeta budgets).

Lemma group_in (a : AgentId) (tm : TaskMeta) :
  In tm (groupByOwner taskMeta a) <-> In tm taskMeta /\ tm_ownerAgent tm = a.
Proof.
  unfold groupByOwner. rewrite filter_In. unfold AgentId_eqb.
  now rewrite bool_decide_eq_true.
Qed.

Lemma filter_keys_NoDup (p : TaskMeta -> bool) (l : list TaskMeta) :
  NoDup (List.map keyOf l) -> NoDup (List.map keyOf (List.filter p l)).
Proof.
  induction l as [|tm r IH]; intros H; simpl; [constructor|].
  simpl in H. apply NoDup_cons in H. destruct H as [Hni Hnd].
  destruct (p tm); simpl; [|now apply IH].
  apply NoDup_cons. split; [|now apply IH].
  intros Hin. apply Hni. apply list_elem_of_In in Hin. apply list_elem_of_In.
  apply in_map_iff in Hin. destruct Hin as (x & Hx & Hin).
  apply filter_In in Hin. rewrite <- Hx. apply in_map. tauto.
Qed.

Lemma group_NoDup (a : AgentId) : NoDup (List.map keyOf (tasksOf a)).
Proof. apply filter_keys_NoDup. exact keys_distinct. Qed.

Lemma key_in_group (a : AgentId) (tm : TaskMeta) :
  In tm taskMeta ->
  In (keyOf tm) (List.map keyOf (tasksOf a)) <-> tm_ownerAgent tm = a.
Proof.
  intros Htm. split.
  - intros Hin. apply in_map_iff in Hin. destruct Hin as (tm' & Hk & Hin).
    apply group_in in Hin. destruct Hin as [Hin Ho].
    assert (tm' = tm) by (apply (NoDup_map_inj keyOf taskMeta); assumption).
    congruence.
  - intros Ho. apply in_map. apply group_in. tauto.
Qed.

Lemma alloc_lookup_other (a : AgentId) (tm : TaskMeta) :
  In tm taskMeta -> tm_ownerAgent tm <> a ->
  grades (alloc a) !! keyOf tm = None.
Proof.
  intros Htm Ho.
  destruct (allocateGradesForAgent_spec (tasksOf a) (budgets a) (group_NoDup a))
    as (_ & _ & Hnone & _).
  apply Hnone. rewrite key_in_group by exact Htm. exact Ho.
Qed.

Lemma alloc_lookup_own (tm : TaskMeta) :
  In tm taskMeta -> is_Some (grades (alloc (tm_ownerAgent tm)) !! keyOf tm).
Proof.
  intros Htm.
  destruct (allocateGradesForAgent_spec (tasksOf (tm_ownerAgent tm))
              (budgets (tm_ownerAgent tm)) (group_NoDup _))
    as (_ & _ & _ & Hsome).
  apply Hsome. now apply key_in_group.
Qed.

Lemma initialAllocation_unfold :
  initialGrades (initialAllocation budgets tasksOf)
  = grades (alloc ESTP) ∪ (grades (alloc INFJ) ∪ (grades (alloc ISFJ)
      ∪ (grades (alloc ENTJ) ∪ ∅)))
  /\ forall a, initialRemaining (initialAllocation budgets tasksOf) a
               = remaining (alloc a).
Proof.
  split; [reflexivity|]. intros a. destruct a; reflexivity.
Qed.

Lemma initial_lookup (tm : TaskMeta) :
  In tm taskMeta ->
  initialGrades (initialAllocation budgets tasksOf) !! keyOf tm
  = grades (alloc (tm_ownerAgent tm)) !! keyOf tm.
Proof.
  intros Htm. rewrite (proj1 initialAllocation_unfold).
  pose proof (alloc_lookup_own tm Htm) as [gi Hown].
  pose proof (fun a => alloc_lookup_other a tm Htm) as Hother.
  destruct (tm_ownerAgent tm) eqn:Eo.
  - rewrite lookup_union_r by (apply Hother; discriminate).
    rewrite lookup_union_r by (apply Hother; discriminate).
    rewrite lookup_union_r by (apply Hother; discriminate).
    rewrite Hown. now apply lookup_union_Some_l.
  - rewrite lookup_union_r by (apply Hother; discriminate).
    rewrite lookup_union_r by (apply Hother; discriminate).
    rewrite Hown. now apply lookup_union_Some_l.
  - rewrite lookup_union_r by (apply Hother; discriminate).
    rewrite Hown. now apply lookup_union_Some_l.
  - rewrite Hown. now apply lookup_union_Some_l.
Qed.

Lemma sum_by_owner (F : AgentId -> TaskMeta -> Z) (l : list TaskMeta) :
  sumZOver (fun tm => F (tm_ownerAgent tm) tm) l
  = sumZOver (F ENTJ) (groupByOwner l ENTJ)
    + sumZOver (F ISFJ) (groupByOwner l ISFJ)
    + sumZOver (F INFJ) (groupByOwner l INFJ)
    + sumZOver (F ESTP) (groupByOwner l ESTP).
Proof.
  induction l as [|tm r IH]; [reflexivity|].
  unfold groupByOwner in *. simpl. rewrite IH.
  destruct (tm_ownerAgent tm); simpl; lia.
Qed.

(** Before any trade, what is spent on all tasks is what the four agents
    spent out of their budgets. *)
Lemma initial_spent :
  spentOn (initialGrades (initialAllocation budgets tasksOf)) taskMeta
  = (budgets ENTJ - remaining (alloc ENTJ))
    + (budgets ISFJ - remaining (alloc ISFJ))
    + (budgets INFJ - remaining (alloc INFJ))
    + (budgets ESTP - remaining (alloc ESTP)).
Proof.
  unfold spentOn.
  rewrite (sumZOver_ext _
    (fun tm => spentOf (grades (alloc (tm_ownerAgent tm))) (keyOf tm))).
  2:{ intros tm Htm. unfold spentOf. now rewrite initial_lookup. }
  rewrite (sum_by_owner (fun a tm => spentOf (grades (alloc a)) (keyOf tm))).
  pose proof (fun a => proj1 (allocateGradesForAgent_spec (tasksOf a)
                               (budgets a) (group_NoDup a))) as Hs.
  unfold spentOn, allocationOf in *. cbv beta.
  now rewrite !Hs.
Qed.

Lemma initial_spent_le :
  (forall a, 0 <= budgets a) ->
  spentOn (initialGrades (initialAllocation budgets tasksOf)) taskMeta
  <= totalBudgets budgets.
Proof.
  intros Hb. rewrite initial_spent. unfold totalBudgets.
  pose proof (fun a => proj1 (proj2 (allocateGradesForAgent_spec (tasksOf a)
                               (budgets a) (group_NoDup a))) (Hb a)) as Hr.
  pose proof (Hr ENTJ). pose proof (Hr ISFJ).
  pose proof (Hr INFJ). pose proof (Hr ESTP).
  unfold allocationOf. lia.
Qed.

End InitialAllocation.

Section TradePass.

Variable taskMeta : list TaskMeta.
Hypothesis keys_distinct : NoDup (List.map keyOf taskMeta).
Variable profile : UserProfile.

Local Abbreviation tasksOf := (groupByOwner taskMeta).

Lemma sumZOver_app {T} (f : T -> Z) (l l' : list T) :
  sumZOver f (l ++ l') = sumZOver f l + sumZOver f l'.
Proof. induction l as [|x r IH]; simpl; lia. Qed.

Lemma tradeWithPartner_spec (req : AgentId) (tid : string) (cur des : TaskGrade)
    (needed : Z) (gradesMap : gmap string GradeInfo) (partner : AgentId)
    (tasks : list TaskMeta) (t : TradeProposal) :
  tradeWithPartner req tid cur des needed gradesMap profile partner tasks = Some t ->
  exists pt gi, In pt tasks /\ tradeShape req tid needed gradesMap partner pt gi t.
Proof.
  induction tasks as [|pt r IH]; intros H; simpl in H; [discriminate|].
  assert (Hrec : tradeWithPartner req tid cur des needed gradesMap profile
                   partner r = Some t ->
                 exists pt' gi, In pt' (pt :: r)
                   /\ tradeShape req tid needed gradesMap partner pt' gi t).
  { intros Hr. destruct (IH Hr) as (pt' & gi & Hin & Hs).
    exists pt', gi. split; [now right|exact Hs]. }
  revert H.
  destruct (isDeadline (block pt)) eqn:Ed; [exact Hrec|].
  destruct (gradesMap !! block_id (block pt)) as [gi|] eqn:Eg; [|exact Hrec].
  destruct (_ <=? _); [exact Hrec|].
  destruct (levelCost _ _) as [c|]; [|exact Hrec].
  destruct (Js.ltb _ _); [exact Hrec|].
  destruct (Js.gtb _ _); [|exact Hrec].
  intros H. injection H as <-. exists pt, gi. split; [now left|].
  unfold tradeShape, keyOf. simpl. repeat split; assumption.
Qed.

Lemma attemptP2PTrade_spec (req : AgentId) (tid : string) (cur des : TaskGrade)
    (needed : Z) (rem : AgentId -> Z) (gradesMap : gmap string GradeInfo)
    (t : TradeProposal) :
  attemptP2PTrade req tid cur des needed rem tasksOf gradesMap profile = Some t ->
  exists partner pt gi,
    partner <> req /\ In pt (tasksOf partner)
    /\ tradeShape req tid needed gradesMap partner pt gi t.
Proof.
  unfold attemptP2PTrade.
  set (candidates := Js.sort _ _).
  assert (Hc : forall a, In a candidates -> a <> req).
  { intros a Ha. unfold candidates in Ha.
    apply (Permutation_in _ (Permutation_sym (sort_perm _ _))) in Ha.
    apply filter_In in Ha. destruct Ha as [_ Ha].
    apply andb_true_iff in Ha. destruct Ha as [Ha _].
    apply negb_true_iff in Ha. unfold AgentId_eqb in Ha.
    now apply bool_decide_eq_false in Ha. }
  clearbody candidates.
  induction candidates as [|p r IH]; intros H; simpl in H; [discriminate|].
  revert H.
  destruct (tradeWithPartner _ _ _ _ _ _ _ p _) as [t'|] eqn:Et; intros H.
  - injection H as ->.
    destruct (tradeWithPartner_spec _ _ _ _ _ _ _ _ _ Et) as (pt & gi & Hin & Hs).
    exists p, pt, gi. split; [apply Hc; now left|]. split; assumption.
  - apply IH; [|exact H]. intros a Ha. apply Hc. now right.
Qed.

Local Abbreviation tradeInvariant := (tradeInvariant taskMeta).

Lemma applyTradeResult_inv (base : Z) (st : TradeState) (tm pt : TaskMeta)
    (current gi : GradeInfo) (a partner : AgentId) (needed : Z)
    (t : TradeProposal) :
  In tm taskMeta -> tm_ownerAgent tm = a ->
  In pt (tasksOf partner) -> partner <> a ->
  adjustedGrades st !! keyOf tm = Some current ->
  tradeShape a (keyOf tm) needed (adjustedGrades st) partner pt gi t ->
  tradeInvariant base st ->
  tradeInvariant base (applyTradeResult st current t).
Proof.
  intros Htm Ho Hpt Hp Hcur (Hd & Hgi & Hok & Hdk & Hn & _) [Hs Hf].
  apply group_in in Hpt. destruct Hpt as [Hpt Hpo].
  assert (Hne : keyOf tm <> keyOf pt).
  { intros Hk. apply Hp.
    assert (tm = pt) by (apply (NoDup_map_inj keyOf taskMeta); assumption).
    congruence. }
  unfold tradeInvariant, applyTradeResult. cbn [adjustedGrades trades].
  rewrite Hdk, Hok. split.
  - rewrite lookup_insert_ne by exact Hne. rewrite Hgi.
    rewrite round_inject_Z.
    rewrite spentOn_insert_in;
      [|exact keys_distinct|now apply in_map].
    rewrite spentOn_insert_in;
      [|exact keys_distinct|now apply in_map].
    rewrite spentOf_insert_ne by exact Hne.
    unfold spentOf at 1 2. rewrite Hgi, Hcur. cbn [tokenSpent].
    rewrite sumZOver_app. unfold tradeSurplus at 2. simpl. lia.
  - apply Forall_app. split; [exact Hf|].
    constructor; [|constructor]. exists pt. repeat split; congruence.
Qed.

Lemma tradeStepTask_inv (base : Z) (a : AgentId) (state : AgentState)
    (st : TradeState) (tm : TaskMeta) :
  In tm taskMeta -> tm_ownerAgent tm = a ->
  tradeInvariant base st ->
  tradeInvariant base (tradeStepTask a state tasksOf profile st tm).
Proof.
  intros Htm Ho Hinv. unfold tradeStepTask.
  destruct (adjustedGrades st !! block_id (block tm)) as [current|] eqn:Ec;
    [|exact Hinv].
  destruct (negb _); [exact Hinv|].
  destruct (_ <=? 0); [exact Hinv|].
  destruct (attemptP2PTrade _ _ _ _ _ _ _ _ _) as [t|] eqn:Et; [|exact Hinv].
  destruct (attemptP2PTrade_spec _ _ _ _ _ _ _ _ Et)
    as (partner & pt & gi & Hp & Hpt & Hshape).
  now apply (applyTradeResult_inv base st tm pt current gi a partner
               (cost_B (tm_levelCosts tm) - tokenSpent current) t).
Qed.

Lemma tradeStepAgent_inv (base : Z) (ctx : CouncilContext) (st : TradeState)
    (a : AgentId) :
  userProfile ctx = profile ->
  tradeInvariant base st ->
  tradeInvariant base (tradeStepAgent ctx tasksOf st a).
Proof.
  intros Hprof Hinv. unfold tradeStepAgent.
  destruct (findAgent a (agentStates ctx)) as [state|]; [|exact Hinv].
  rewrite Hprof.
  assert (Hall : forall tm, In tm (tasksOf a) ->
                            In tm taskMeta /\ tm_ownerAgent tm = a).
  { intros tm. apply group_in. }
  revert st Hinv. induction (tasksOf a) as [|tm r IH]; intros st Hinv; simpl;
    [exact Hinv|].
  apply IH.
  - intros tm' Hin. apply Hall. now right.
  - destruct (Hall tm (or_introl eq_refl)) as [Htm Ho].
    now apply tradeStepTask_inv.
Qed.

Lemma tradePass_inv (base : Z) (ctx : CouncilContext) (agents : list AgentId)
    (st : TradeState) :
  userProfile ctx = profile ->
  tradeInvariant base st ->
  tradeInvariant base (fold_left (tradeStepAgent ctx tasksOf) agents st).
Proof.
  intros Hprof. revert st. induction agents as [|a r IH]; intros st Hinv; simpl;
    [exact Hinv|].
  apply IH. now apply tradeStepAgent_inv.
Qed.

End TradePass.

Section AgentBudgets.

Variable totalBudget : Q.
Hypothesis budget_nonneg : (0 <= totalBudget)%Q.

Local Abbreviation budgetStep totalWeight :=
  (fun (budgets : AgentId -> Z) (agent : AgentState) =>
     upd budgets (id agent)
       (Js.round (totalBudget * (currentWeight agent / totalWeight)
                  * ((5 # 10) + satisfaction agent / 100 * (5 # 10))))).

Lemma satMultiplier_range (sat : Q) :
  (0 <= sat -> sat <= 100 ->
   0 <= (5 # 10) + sat / 100 * (5 # 10)
   /\ (5 # 10) + sat / 100 * (5 # 10) <= 1)%Q.
Proof.
  intros H0 H1.
  assert (E : (sat / 100 == sat * (1 # 100))%Q) by field.
  rewrite E. split; lra.
Qed.

Lemma share_bound (s : AgentState) (c : Q) :
  saneAgent s -> (0 <= c)%Q ->
  let x := (totalBudget * (currentWeight s * c)
            * ((5 # 10) + satisfaction s / 100 * (5 # 10)))%Q in
  (0 <= x /\ x <= totalBudget * (currentWeight s * c))%Q.
Proof.
  intros (Hw & Hs0 & Hs1) Hc x.
  destruct (satMultiplier_range (satisfaction s) Hs0 Hs1) as [Hm0 Hm1].
  assert (Hp : (0 <= totalBudget * (currentWeight s * c))%Q).
  { apply Qmult_le_0_compat; [exact budget_nonneg|].
    now apply Qmult_le_0_compat. }
  unfold x. split.
  - now apply Qmult_le_0_compat.
  - nra.
Qed.

Lemma weightShare_nonneg (a : AgentId) (agents : list AgentState) :
  Forall saneAgent agents -> (0 <= weightShare a agents)%Q.
Proof.
  unfold weightShare. induction 1 as [|s r Hs _ IH]; simpl; [lra|].
  destruct Hs as (Hw & _). destruct (decide (id s = a)); lra.
Qed.

Lemma budget_fold (totalWeight : Q) (agents : list AgentState) :
  (0 < totalWeight)%Q -> Forall saneAgent agents ->
  forall (f : AgentId -> Z) (acc : AgentId -> Q),
    (forall a, (0 <= acc a)%Q) ->
    (forall a, 0 <= f a
               /\ (inject_Z (f a)
                   <= totalBudget * (acc a * / totalWeight) + (1 # 2))%Q) ->
    forall a,
      0 <= fold_left (budgetStep totalWeight) agents f a
      /\ (inject_Z (fold_left (budgetStep totalWeight) agents f a)
          <= totalBudget * ((acc a + weightShare a agents) * / totalWeight)
             + (1 # 2))%Q.
Proof.
  intros HW Hsane.
  assert (Hc : (0 <= / totalWeight)%Q) by (apply Qinv_le_0_compat; lra).
  induction Hsane as [|s r Hs Hr IH]; intros f acc Hacc Hf a.
  - simpl. destruct (Hf a) as [H0 H1]. split; [exact H0|].
    unfold weightShare. simpl.
    assert (E : (totalBudget * ((acc a + 0) * / totalWeight)
                 == totalBudget * (acc a * / totalWeight))%Q) by ring.
    rewrite E. exact H1.
  - simpl fold_left.
    set (acc' := fun b => (acc b + (if decide (id s = b)
                                    then currentWeight s else 0))%Q).
    assert (Hacc' : forall b, (0 <= acc' b)%Q).
    { intros b. unfold acc'. destruct Hs as (Hw & _).
      specialize (Hacc b). destruct (decide (id s = b)); lra. }
    specialize (IH (budgetStep totalWeight f s) acc' Hacc').
    assert (Hf' : forall b,
      0 <= budgetStep totalWeight f s b
      /\ (inject_Z (budgetStep totalWeight f s b)
          <= totalBudget * (acc' b * / totalWeight) + (1 # 2))%Q).
    { intros b. unfold upd, acc'.
      destruct (share_bound s (/ totalWeight) Hs Hc) as [Hx0 Hx1].
      destruct (decide (b = id s)) as [->|Hne].
      - rewrite decide_True by reflexivity.
        unfold Qdiv. split; [now apply round_nonneg|].
        match goal with
        | |- (inject_Z (Js.round ?x) <= _)%Q =>
            destruct (round_nearest x) as [_ Hr2]
        end.
        assert (Hp : (0 <= totalBudget * (acc (id s) * / totalWeight))%Q).
        { apply Qmult_le_0_compat; [exact budget_nonneg|].
          apply Qmult_le_0_compat; [apply Hacc|exact Hc]. }
        unfold Qdiv in *. lra.
      - rewrite decide_False by congruence.
        destruct (Hf b) as [H0 H1]. split; [exact H0|].
        assert (E : (totalBudget * ((acc b + 0) * / totalWeight)
                     == totalBudget * (acc b * / totalWeight))%Q) by ring.
        rewrite E. exact H1. }
    destruct (IH Hf' a) as [H0 H1]. split; [exact H0|].
    unfold weightShare in *. simpl sumOver.
    assert (E : (totalBudget
                 * ((acc a + ((if decide (id s = a) then currentWeight s else 0)
                              + sumOver (fun s0 => if decide (id s0 = a)
                                                   then currentWeight s0 else 0) r))
                    * / totalWeight)
                 == totalBudget
                    * ((acc' a + sumOver (fun s0 => if decide (id s0 = a)
                                                    then currentWeight s0 else 0) r)
                       * / totalWeight))%Q) by (unfold acc'; ring).
    rewrite E. exact H1.
Qed.

Lemma weightShare_total (agents : list AgentState) :
  (weightShare ENTJ agents + weightShare ISFJ agents
   + weightShare INFJ agents + weightShare ESTP agents
   == sumOver currentWeight agents)%Q.
Proof.
  unfold weightShare. induction agents as [|s r IH]; simpl; [lra|].
  destruct (id s); simpl; lra.
Qed.

Lemma sumQ_sumOver (l : list AgentState) :
  (Js.sumQ (List.map currentWeight l) == sumOver currentWeight l)%Q.
Proof.
  unfold Js.sumQ.
  assert (H : forall acc, (fold_left Qplus (List.map currentWeight l) acc
                           == acc + sumOver currentWeight l)%Q).
  { induction l as [|s r IH]; intros acc; simpl; [lra|]. rewrite IH. lra. }
  rewrite H. lra.
Qed.

Lemma sumOver_weights_nonneg (agents : list AgentState) :
  Forall saneAgent agents -> (0 <= sumOver currentWeight agents)%Q.
Proof.
  induction 1 as [|s r Hs _ IH]; simpl; [lra|].
  destruct Hs as (Hw & _). lra.
Qed.

(** The four rounded budgets are not negative and add up to at most the
    total budget plus 2 (each rounding adds at most one half). *)
Lemma calculateAgentBudgets_bound (agents : list AgentState) :
  Forall saneAgent agents ->
  (forall a, 0 <= calculateAgentBudgets agents totalBudget a)
  /\ (inject_Z (totalBudgets (calculateAgentBudgets agents totalBudget))
      <= totalBudget + 2)%Q.
Proof.
  intros Hsane. unfold calculateAgentBudgets.
  pose proof (sumQ_sumOver agents) as Hsum.
  pose proof (sumOver_weights_nonneg agents Hsane) as Hpos.
  pose proof (weightShare_total agents) as Htot.
  set (sum := Js.sumQ (List.map currentWeight agents)) in *.
  set (W := if Qeq_bool sum 0 then 1%Q else sum).
  assert (HW : (0 < W)%Q).
  { unfold W. destruct (Qeq_bool sum 0) eqn:E; [lra|].
    apply Qeq_bool_neq in E. lra. }
  assert (Hbase : forall a : AgentId,
    0 <= (fun _ : AgentId => 0) a
    /\ (inject_Z ((fun _ : AgentId => 0%Z) a)
        <= totalBudget * ((fun _ : AgentId => 0%Q) a * / W) + (1 # 2))%Q).
  { intros a. split; [lia|]. cbv beta. change (inject_Z 0) with 0%Q. lra. }
  pose proof (budget_fold W agents HW Hsane (fun _ => 0) (fun _ => 0%Q)
                (fun _ => Qle_refl 0) Hbase) as Hb.
  cbv beta in Hb.
  split; [intros a; apply Hb|].
  unfold totalBudgets. rewrite !inject_Z_plus.
  destruct (Hb ENTJ) as [_ H1]. destruct (Hb ISFJ) as [_ H2].
  destruct (Hb INFJ) as [_ H3]. destruct (Hb ESTP) as [_ H4].
  assert (Hshare : (totalBudget * (sumOver currentWeight agents * / W)
                    <= totalBudget)%Q).
  { unfold W. destruct (Qeq_bool sum 0) eqn:E.
    - apply Qeq_bool_iff in E. rewrite <- Hsum, E.
      assert (E0 : (totalBudget * (0 * / 1) == 0)%Q) by ring.
      rewrite E0. exact budget_nonneg.
    - apply Qeq_bool_neq in E. rewrite <- Hsum.
      assert (E1 : (totalBudget * (sum * / sum) == totalBudget)%Q)
        by (field; exact E).
      rewrite E1. lra. }
  rewrite <- Htot in Hshare.
  lra.
Qed.

End AgentBudgets.

Section CollapseResults.

Lemma makeTaskMeta_keys (blocks : list ScheduleBlock) :
  List.map keyOf (makeTaskMeta blocks) = List.map block_id blocks.
Proof. unfold makeTaskMeta. rewrite List.map_map. reflexivity. Qed.

Lemma results_invested (initial adjusted : gmap string GradeInfo)
    (trs : list TradeProposal) (taskMeta : list TaskMeta) :
  (totalInvested (List.map (buildCollapseResult initial adjusted trs) taskMeta)
   == inject_Z (spentOn adjusted taskMeta))%Q.
Proof.
  unfold totalInvested, spentOn.
  induction taskMeta as [|tm r IH]; simpl; [reflexivity|].
  rewrite IH, inject_Z_plus. unfold spentOf, keyOf.
  destruct (adjusted !! block_id (block tm)); simpl; lra.
Qed.

(** The state in which the trade pass of [collapseAllTasks] ends. *)
Lemma collapse_trade_invariant (ctx : CouncilContext)
    (blocks : list ScheduleBlock) (totalBudget : Q) :
  NoDup (List.map block_id blocks) ->
  let taskMeta := makeTaskMeta blocks in
  let budgets := calculateAgentBudgets (agentStates ctx) totalBudget in
  let init := initialAllocation budgets (groupByOwner taskMeta) in
  tradeInvariant taskMeta (spentOn (initialGrades init) taskMeta)
    (fold_left (tradeStepAgent ctx (groupByOwner taskMeta)) ALL_AGENT_IDS
       {| trades := []; adjustedGrades := initialGrades init;
          agentRemaining := initialRemaining init |}).
Proof.
  intros Hnd taskMeta budgets init.
  assert (Hk : NoDup (List.map keyOf taskMeta))
    by (unfold taskMeta; now rewrite makeTaskMeta_keys).
  apply (tradePass_inv taskMeta Hk (userProfile ctx)); [reflexivity|].
  split; [simpl; lia|constructor].
Qed.

(** The accounting of the collapse: the total investment is at most the
    sum of the four agent budgets plus the surplus of the accepted trades. *)
Lemma collapse_accounting (ctx : CouncilContext) (blocks : list ScheduleBlock)
    (totalBudget : Q) :
  NoDup (List.map block_id blocks) ->
  (forall a, 0 <= calculateAgentBudgets (agentStates ctx) totalBudget a) ->
  (totalInvested (results (collapseAllTasks ctx blocks totalBudget))
   <= inject_Z (totalBudgets (calculateAgentBudgets (agentStates ctx) totalBudget)
                + sumZOver tradeSurplus
                    (out_trades (collapseAllTasks ctx blocks totalBudget))))%Q.
Proof.
  intros Hnd Hb.
  destruct (collapse_trade_invariant ctx blocks totalBudget Hnd) as [Hs _].
  unfold collapseAllTasks. cbn [results out_trades].
  rewrite results_invested. rewrite <- Zle_Qle. rewrite Hs.
  assert (Hk : NoDup (List.map keyOf (makeTaskMeta blocks)))
    by now rewrite makeTaskMeta_keys.
  pose proof (initial_spent_le (makeTaskMeta blocks) Hk _ Hb). lia.
Qed.

(** No accepted trade offers a deadline task. *)
Lemma trade_offers_skip_deadline (ctx : CouncilContext)
    (blocks : list ScheduleBlock) (totalBudget : Q) (t : TradeProposal)
    (b : ScheduleBlock) :
  NoDup (List.map block_id blocks) ->
  In t (out_trades (collapseAllTasks ctx blocks totalBudget)) ->
  In b blocks -> block_id b = offer_taskId (offer t) ->
  isDeadline b = false.
Proof.
  intros Hnd Ht Hb Hid.
  destruct (collapse_trade_invariant ctx blocks totalBudget Hnd) as [_ Hf].
  unfold collapseAllTasks in Ht. cbn [out_trades] in Ht.
  rewrite List.Forall_forall in Hf.
  destruct (Hf t Ht) as (pt & Hpt & Hk & Hd).
  unfold makeTaskMeta in Hpt. apply in_map_iff in Hpt.
  destruct Hpt as (b' & <- & Hb'). unfold keyOf in Hk. simpl in Hk, Hd.
  assert (b = b').
  { apply (NoDup_map_inj block_id blocks); [assumption..|congruence]. }
  congruence.
Qed.

End CollapseResults.

(** C1 as stated fails: budgets 250 and 750 out of 1000 are spent down to
    0 and 2; ENTJ then trades its task up from C to B for 375 tokens
    against a downgrade of an ISFJ task that frees 200; the investments
    add up to 625 + 200 + 348 = 1173 > 1000. *)
Lemma C1_counterexample :
  ~ (totalInvested
       (results (collapseAllTasks (contextOf tradeAgents) tradeBlocks 1000))
     <= 1000)%Q.
Proof. vm_compute. intros H. apply H. reflexivity. Qed.

(** Without any trade the roundings alone can exceed the budget: four
    agents with a budget of 2 get 1 token each and spend it. *)
Lemma rounding_exceeds_budget :
  let blocks := [sampleBlock "a" ENTJ 5 false PENDING;
                 sampleBlock "b" ISFJ 5 false PENDING;
                 sampleBlock "c" INFJ 5 false PENDING;
                 sampleBlock "d" ESTP 5 false PENDING] in
  let agents := [agentWith ENTJ 1 100; agentWith ISFJ 1 100;
                 agentWith INFJ 1 100; agentWith ESTP 1 100] in
  out_trades (collapseAllTasks (contextOf agents) blocks 2) = []
  /\ (2 < totalInvested (results (collapseAllTasks (contextOf agents) blocks 2)))%Q.
Proof. vm_compute. split; reflexivity. Qed.

(** C1, amended: for pairwise distinct task ids, a total budget that is
    not negative and agents with a weight that is not negative and a
    satisfaction in [0, 100], the sum of [tokenInvested] over the results
    of [collapseAllTasks] is at most [totalBudget + 2] (the roundings of
    the four agent budgets) plus, for every accepted trade,
    [tokenNeeded - tokenFreed]. *)
Theorem C1_budget_accounting (ctx : CouncilContext)
    (blocks : list ScheduleBlock) (totalBudget : Q) :
  NoDup (List.map block_id blocks) ->
  (0 <= totalBudget)%Q ->
  Forall saneAgent (agentStates ctx) ->
  (totalInvested (results (collapseAllTasks ctx blocks totalBudget))
   <= totalBudget + 2
      + inject_Z (sumZOver tradeSurplus
                    (out_trades (collapseAllTasks ctx blocks totalBudget))))%Q.
Proof.
  intros Hnd HT Hsane.
  destruct (calculateAgentBudgets_bound totalBudget HT (agentStates ctx) Hsane)
    as [Hb Hsum].
  pose proof (collapse_accounting ctx blocks totalBudget Hnd Hb) as Hacc.
  rewrite inject_Z_plus in Hacc. lra.
Qed.

Lemma C1_budget_accounting_witness :
  NoDup (List.map block_id tradeBlocks)
  /\ (0 <= 1000)%Q
  /\ Forall saneAgent (agentStates (contextOf tradeAgents))
  /\ (totalInvested
        (results (collapseAllTasks (contextOf tradeAgents) tradeBlocks 1000))
      <= 1000 + 2
         + inject_Z (sumZOver tradeSurplus
                       (out_trades (collapseAllTasks (contextOf tradeAgents)
                                      tradeBlocks 1000))))%Q.
Proof.
  assert (H1 : NoDup (List.map block_id tradeBlocks)).
  { apply (bool_decide_unpack _). vm_compute. exact I. }
  assert (H2 : (0 <= 1000)%Q) by lra.
  assert (H3 : Forall saneAgent (agentStates (contextOf tradeAgents))).
  { repeat constructor; simpl; lra. }
  split; [exact H1|]. split; [exact H2|]. split; [exact H3|].
  exact (C1_budget_accounting (contextOf tradeAgents) tradeBlocks 1000 H1 H2 H3).
Defined.

(** C2, the failing case: four default agents (weight 1, satisfaction 50)
    and a budget of 100 give ENTJ 19 tokens; its deadline task costs 100
    at grade C, so [allocateGradesForAgent] grades it D; no trade follows
    (satisfaction is not above 60); and [validateCollapseResults] of the
    same module rejects the result. *)
Theorem C2_deadline_task_graded_D :
  List.map (fun r => (cr_taskId r, cr_isDeadline r, cr_finalGrade r))
    (results (collapseAllTasks (contextOf createAllAgentStates) deadlineBlocks 100))
  = [("deadline"%string, true, TaskGrade.D)]
  /\ out_trades (collapseAllTasks (contextOf createAllAgentStates)
                                  deadlineBlocks 100) = []
  /\ validateCollapseResults
       (results (collapseAllTasks (contextOf createAllAgentStates)
                                  deadlineBlocks 100))
     = {| valid := false; errors := [DeadlineAtD "deadline"] |}.
Proof. vm_compute. repeat split. Qed.

(* ================================================================== *)
(** * Part III: further properties                                    *)
(* ================================================================== *)

(** ** Grades and trades (types.ts, collapse-engine.ts) *)

Section MoreNumbers.

Lemma round_mono (x y : Q) : (x <= y)%Q -> Js.round x <= Js.round y.
Proof. intros H. unfold Js.round. apply Qfloor_resp_le. lra. Qed.

End MoreNumbers.

Section Costs.

(** X1: for a base cost that is not negative, the level costs of
    [getTaskLevelCosts] are ordered: [0 <= C <= B <= A <= S]. *)
Theorem getTaskLevelCosts_monotone (baseTokenCost : Q) :
  (0 <= baseTokenCost)%Q ->
  0 <= cost_C (getTaskLevelCosts baseTokenCost)
  /\ cost_C (getTaskLevelCosts baseTokenCost) <= cost_B (getTaskLevelCosts baseTokenCost)
  /\ cost_B (getTaskLevelCosts baseTokenCost) <= cost_A (getTaskLevelCosts baseTokenCost)
  /\ cost_A (getTaskLevelCosts baseTokenCost) <= cost_S (getTaskLevelCosts baseTokenCost).
Proof.
  intros H. unfold getTaskLevelCosts. cbn [cost_C cost_B cost_A cost_S].
  repeat split.
  - apply round_nonneg. lra.
  - apply round_mono. lra.
  - apply round_mono. lra.
  - apply round_mono. lra.
Qed.

Lemma getTaskLevelCosts_monotone_witness :
  (0 <= 100)%Q
  /\ 0 <= cost_C (getTaskLevelCosts 100)
  /\ cost_C (getTaskLevelCosts 100) <= cost_B (getTaskLevelCosts 100)
  /\ cost_B (getTaskLevelCosts 100) <= cost_A (getTaskLevelCosts 100)
  /\ cost_A (getTaskLevelCosts 100) <= cost_S (getTaskLevelCosts 100).
Proof.
  assert (H : (0 <= 100)%Q) by lra.
  split; [exact H|]. exact (getTaskLevelCosts_monotone 100 H).
Defined.

End Costs.

Section DeadlineFirst.

Local Abbreviation dl := (fun tm : TaskMeta => isDeadline (block tm)).
Local Abbreviation ndl := (fun tm : TaskMeta => negb (isDeadline (block tm))).

Lemma sort_insert_deadline_split (x : TaskMeta) (D N : list TaskMeta) :
  Forall (fun tm => dl tm = true) D -> Forall (fun tm => dl tm = false) N ->
  Js.sort_insert allocationCmp x (D ++ N)
  = if dl x then Js.sort_insert allocationCmp x D ++ N
    else D ++ Js.sort_insert allocationCmp x N.
Proof.
  intros HD HN. induction HD as [|d D' Hd HD' IH].
  - simpl. destruct (isDeadline (block x)) eqn:Ex; [|reflexivity].
    destruct HN as [|n N' Hn HN']; [reflexivity|].
    simpl. unfold allocationCmp. rewrite Ex, Hn. reflexivity.
  - simpl. cbv beta in Hd, IH.
    destruct (isDeadline (block x)) eqn:Ex.
    + unfold allocationCmp at 1 3. rewrite Ex, Hd. simpl.
      destruct (Js.leb _ 0); [reflexivity|].
      simpl. now rewrite IH.
    + unfold allocationCmp at 1. rewrite Ex, Hd. simpl.
      now rewrite IH.
Qed.

Lemma sort_deadline_split (l : list TaskMeta) :
  Js.sort allocationCmp l
  = Js.sort allocationCmp (List.filter dl l)
    ++ Js.sort allocationCmp (List.filter ndl l).
Proof.
  induction l as [|x r IH]; [reflexivity|].
  simpl. rewrite IH.
  rewrite sort_insert_deadline_split.
  - destruct (isDeadline (block x)); reflexivity.
  - apply List.Forall_forall. intros tm Hin.
    apply (Permutation_in _ (Permutation_sym (sort_perm _ _))) in Hin.
    apply filter_In in Hin. tauto.
  - apply List.Forall_forall. intros tm Hin.
    apply (Permutation_in _ (Permutation_sym (sort_perm _ _))) in Hin.
    apply filter_In in Hin. destruct Hin as [_ Hin].
    now apply negb_true_iff in Hin.
Qed.

(** X2: [allocateGradesForAgent] serves deadline tasks first: for tasks
    with distinct ids, what a deadline task receives is what it would
    receive if the agent had its deadline tasks only. *)
Theorem deadline_tasks_allocated_first (tasks : list TaskMeta) (budget : Z)
    (tm : TaskMeta) :
  NoDup (List.map keyOf tasks) -> In tm tasks -> isDeadline (block tm) = true ->
  grades (allocateGradesForAgent tasks budget) !! keyOf tm
  = grades (allocateGradesForAgent
              (List.filter (fun t => isDeadline (block t)) tasks) budget)
      !! keyOf tm.
Proof.
  intros Hnd Hin Hdl. unfold allocateGradesForAgent.
  rewrite (sort_deadline_split tasks), fold_left_app.
  apply allocateFold_other. intros Hk.
  apply in_map_iff in Hk. destruct Hk as (tm' & Hk & Hin').
  apply (Permutation_in _ (Permutation_sym (sort_perm _ _))) in Hin'.
  apply filter_In in Hin'. destruct Hin' as [Hin' Hn].
  assert (tm' = tm) by (apply (NoDup_map_inj keyOf tasks); assumption).
  subst tm'. rewrite Hdl in Hn. discriminate.
Qed.

End DeadlineFirst.

Lemma deadline_tasks_allocated_first_witness :
  NoDup (List.map keyOf (makeTaskMeta mixedBlocks))
  /\ In deadlineTask (makeTaskMeta mixedBlocks)
  /\ isDeadline (block deadlineTask) = true
  /\ grades (allocateGradesForAgent (makeTaskMeta mixedBlocks) 600)
        !! keyOf deadlineTask
     = grades (allocateGradesForAgent
                 (List.filter (fun t => isDeadline (block t))
                              (makeTaskMeta mixedBlocks)) 600)
         !! keyOf deadlineTask.
Proof.
  assert (H1 : NoDup (List.map keyOf (makeTaskMeta mixedBlocks))).
  { apply (bool_decide_unpack _). vm_compute. exact I. }
  assert (H2 : In deadlineTask (makeTaskMeta mixedBlocks)).
  { simpl. right. left. reflexivity. }
  assert (H3 : isDeadline (block deadlineTask) = true) by reflexivity.
  split; [exact H1|]. split; [exact H2|]. split; [exact H3|].
  exact (deadline_tasks_allocated_first (makeTaskMeta mixedBlocks) 600
           deadlineTask H1 H2 H3).
Defined.

Section TradeShape.

Variable profile : UserProfile.

Lemma tradeWithPartner_wf (req : AgentId) (tid : string) (cur des : TaskGrade)
    (needed : Z) (gradesMap : gmap string GradeInfo) (partner : AgentId)
    (tasks : list TaskMeta) (t : TradeProposal) :
  tradeWithPartner req tid cur des needed gradesMap profile partner tasks = Some t ->
  accepted t = true /\ sourceAgent t = req /\ targetAgent t = partner
  /\ upgradeFrom (demand t) = cur /\ upgradeTo (demand t) = des
  /\ tokenNeeded (demand t) = needed
  /\ downgradeTo (offer t) = lowerGrade (downgradeFrom (offer t))
  /\ gradeRank TaskGrade.C <= gradeRank (downgradeTo (offer t))
  /\ needed <= 2 * tokenFreed (offer t)
  /\ (riskScore t < benefitScore t)%Q.
Proof.
  induction tasks as [|pt r IH]; intros H; simpl in H; [discriminate|].
  revert H.
  destruct (isDeadline (block pt)); [exact IH|].
  destruct (gradesMap !! block_id (block pt)) as [gi|]; [|exact IH].
  destruct (_ <=? _) eqn:Er; [exact IH|].
  destruct (levelCost _ _) as [c|]; [|exact IH].
  destruct (Js.ltb _ _) eqn:El; [exact IH|].
  destruct (Js.gtb _ _) eqn:Eg; [|exact IH].
  intros H. injection H as <-. clear IH. cbn.
  apply Z.leb_gt in Er. apply ltb_ge in El. apply gtb_gt in Eg.
  assert (Hr : 1 <= gradeRank (lowerGrade (grade gi))).
  { destruct (grade gi); simpl in *; lia. }
  assert (Hn : needed <= 2 * (tokenSpent gi - c)).
  { rewrite Zle_Qle, inject_Z_mult. change (inject_Z 2) with 2%Q. lra. }
  do 7 (split; [reflexivity|]).
  split; [exact Hr|]. split; [exact Hn|exact Eg].
Qed.

Lemma attemptP2PTrade_wf (req : AgentId) (tid : string) (cur des : TaskGrade)
    (needed : Z) (rem : AgentId -> Z) (agentTasks : AgentId -> list TaskMeta)
    (gradesMap : gmap string GradeInfo) (t : TradeProposal) :
  attemptP2PTrade req tid cur des needed rem agentTasks gradesMap profile = Some t ->
  accepted t = true /\ sourceAgent t = req /\ targetAgent t <> req
  /\ upgradeFrom (demand t) = cur /\ upgradeTo (demand t) = des
  /\ tokenNeeded (demand t) = needed
  /\ downgradeTo (offer t) = lowerGrade (downgradeFrom (offer t))
  /\ gradeRank TaskGrade.C <= gradeRank (downgradeTo (offer t))
  /\ needed <= 2 * tokenFreed (offer t)
  /\ (riskScore t < benefitScore t)%Q.
Proof.
  unfold attemptP2PTrade.
  set (candidates := Js.sort _ _).
  assert (Hc : forall a, In a candidates -> a <> req).
  { intros a Ha. unfold candidates in Ha.
    apply (Permutation_in _ (Permutation_sym (sort_perm _ _))) in Ha.
    apply filter_In in Ha. destruct Ha as [_ Ha].
    apply andb_true_iff in Ha. destruct Ha as [Ha _].
    apply negb_true_iff in Ha. unfold AgentId_eqb in Ha.
    now apply bool_decide_eq_false in Ha. }
  clearbody candidates.
  induction candidates as [|p r IH]; intros H; simpl in H; [discriminate|].
  revert H.
  destruct (tradeWithPartner _ _ _ _ _ _ _ p _) as [t'|] eqn:Et; intros H.
  - injection H as ->.
    destruct (tradeWithPartner_wf _ _ _ _ _ _ _ _ _ Et)
      as (H1 & H2 & H3 & H4).
    split; [exact H1|]. split; [exact H2|]. split; [|exact H4].
    rewrite H3. apply Hc. now left.
  - apply IH; [|exact H]. intros a Ha. apply Hc. now right.
Qed.

Lemma tradeStepTask_wf (a : AgentId) (state : AgentState)
    (agentTasks : AgentId -> list TaskMeta) (st : TradeState) (tm : TaskMeta) :
  Forall wellFormedTrade (trades st) ->
  Forall wellFormedTrade (trades (tradeStepTask a state agentTasks profile st tm)).
Proof.
  intros Hinv. unfold tradeStepTask.
  destruct (adjustedGrades st !! block_id (block tm)) as [current|];
    [|exact Hinv].
  destruct (Js.gtb (satisfaction state) 60 && _) eqn:Ew; [|exact Hinv].
  cbn [negb].
  destruct (_ <=? 0) eqn:Eu; [exact Hinv|].
  destruct (attemptP2PTrade _ _ _ _ _ _ _ _ _) as [t|] eqn:Et; [|exact Hinv].
  destruct (attemptP2PTrade_wf _ _ _ _ _ _ _ _ _ Et)
    as (H1 & H2 & H3 & H4 & H5 & H6 & H7 & H8 & H9 & H10).
  unfold applyTradeResult. cbn [trades].
  apply Forall_app. split; [exact Hinv|].
  constructor; [|constructor].
  apply andb_true_iff in Ew. destruct Ew as [_ Ew].
  apply Z.ltb_lt in Ew. apply Z.leb_gt in Eu.
  unfold wellFormedTrade. rewrite H4, H5, H6, H2.
  split; [exact H1|]. split; [congruence|]. split; [reflexivity|].
  split; [exact Ew|]. split; [exact H7|]. split; [exact H8|].
  split; [lia|]. split; [exact H9|exact H10].
Qed.

Lemma tradePass_wf (ctx : CouncilContext) (agentTasks : AgentId -> list TaskMeta)
    (agents : list AgentId) (st : TradeState) :
  userProfile ctx = profile ->
  Forall wellFormedTrade (trades st) ->
  Forall wellFormedTrade
    (trades (fold_left (tradeStepAgent ctx agentTasks) agents st)).
Proof.
  intros Hprof. revert st.
  induction agents as [|a r IH]; intros st Hinv; simpl; [exact Hinv|].
  apply IH. unfold tradeStepAgent.
  destruct (findAgent a (agentStates ctx)) as [state|]; [|exact Hinv].
  rewrite Hprof.
  revert st Hinv. induction (agentTasks a) as [|tm l IHl]; intros st Hinv;
    simpl; [exact Hinv|].
  apply IHl. now apply tradeStepTask_wf.
Qed.

End TradeShape.

(** X3: every trade [collapseAllTasks] reports is accepted, is between two
    different agents, raises the demand task to B from a lower grade,
    lowers the offer task by one grade and not below C, needs a positive
    number of tokens that is at most twice what the offer frees, and has
    a benefit above its risk. *)
Theorem accepted_trades_well_formed (ctx : CouncilContext)
    (blocks : list ScheduleBlock) (totalBudget : Q) :
  Forall wellFormedTrade (out_trades (collapseAllTasks ctx blocks totalBudget)).
Proof.
  unfold collapseAllTasks. cbn [out_trades].
  apply (tradePass_wf (userProfile ctx)); [reflexivity|constructor].
Qed.

Section NoTrade.

Variable ctx : CouncilContext.
Hypothesis unsatisfied :
  Forall (fun a => (satisfaction a <= 60)%Q) (agentStates ctx).

Lemma tradeStepAgent_idle (agentTasks : AgentId -> list TaskMeta)
    (st : TradeState) (a : AgentId) :
  tradeStepAgent ctx agentTasks st a = st.
Proof.
  unfold tradeStepAgent.
  destruct (findAgent a (agentStates ctx)) as [state|] eqn:Ef; [|reflexivity].
  apply find_some in Ef. destruct Ef as [Hin _].
  assert (Hs : (satisfaction state <= 60)%Q).
  { revert Hin. apply (proj1 (List.Forall_forall _ _) unsatisfied). }
  assert (Hg : Js.gtb (satisfaction state) 60 = false).
  { destruct (Js.gtb (satisfaction state) 60) eqn:E; [|reflexivity].
    apply gtb_gt in E. lra. }
  induction (agentTasks a) as [|tm l IH]; simpl; [reflexivity|].
  unfold tradeStepTask at 2.
  destruct (adjustedGrades st !! block_id (block tm)); [|exact IH].
  rewrite Hg. simpl. exact IH.
Qed.

Lemma tradePass_idle (agentTasks : AgentId -> list TaskMeta)
    (agents : list AgentId) (st : TradeState) :
  fold_left (tradeStepAgent ctx agentTasks) agents st = st.
Proof.
  induction agents as [|a r IH]; simpl; [reflexivity|].
  now rewrite tradeStepAgent_idle.
Qed.

End NoTrade.

(** X4: when no agent has a satisfaction above 60, [collapseAllTasks]
    makes no trade and every result keeps its initial grade. *)
Theorem no_trade_below_satisfaction_60 (ctx : CouncilContext)
    (blocks : list ScheduleBlock) (totalBudget : Q) :
  Forall (fun a => (satisfaction a <= 60)%Q) (agentStates ctx) ->
  out_trades (collapseAllTasks ctx blocks totalBudget) = []
  /\ Forall (fun r => cr_finalGrade r = initialGrade r /\ tradedWith r = None)
            (results (collapseAllTasks ctx blocks totalBudget)).
Proof.
  intros H. unfold collapseAllTasks. cbn [out_trades results].
  rewrite (tradePass_idle ctx H). cbn [trades adjustedGrades].
  split; [reflexivity|].
  apply List.Forall_forall. intros r Hr.
  apply in_map_iff in Hr. destruct Hr as (tm & <- & _).
  unfold buildCollapseResult. cbn.
  split; [|reflexivity].
  destruct (_ !! block_id (block tm)); reflexivity.
Qed.

Lemma no_trade_below_satisfaction_60_witness :
  Forall (fun a => (satisfaction a <= 60)%Q)
         (agentStates (contextOf createAllAgentStates))
  /\ out_trades (collapseAllTasks (contextOf createAllAgentStates) tradeBlocks 1000) = []
  /\ Forall (fun r => cr_finalGrade r = initialGrade r /\ tradedWith r = None)
            (results (collapseAllTasks (contextOf createAllAgentStates)
                                       tradeBlocks 1000)).
Proof.
  assert (H : Forall (fun a => (satisfaction a <= 60)%Q)
                     (agentStates (contextOf createAllAgentStates))).
  { repeat constructor; simpl; lra. }
  split; [exact H|].
  exact (no_trade_below_satisfaction_60 (contextOf createAllAgentStates)
           tradeBlocks 1000 H).
Defined.

Section Validation.

Lemma validateOne_nil (r : CollapseResult) :
  validateOne r = [] <-> acceptable r.
Proof.
  unfold validateOne, acceptable.
  assert (Hr : (gradeRank (cr_finalGrade r) <? 0) = false).
  { apply Z.ltb_ge. destruct (cr_finalGrade r); simpl; lia. }
  rewrite Hr. simpl.
  destruct (cr_isDeadline r); simpl.
  - destruct (decide (cr_finalGrade r = TaskGrade.D)) as [E|E].
    + rewrite bool_decide_eq_true_2 by exact E. simpl.
      split; [discriminate|]. intros [Hn _]. exfalso. now apply Hn.
    + rewrite bool_decide_eq_false_2 by exact E. simpl.
      destruct (Js.ltb (tokenInvested r) 0) eqn:El.
      * apply ltb_lt in El. split; [discriminate|]. intros [_ Hp]. lra.
      * apply ltb_ge in El. split; [|reflexivity]. intros _.
        split; [intros [_ Hd]; contradiction|exact El].
  - destruct (Js.ltb (tokenInvested r) 0) eqn:El.
    + apply ltb_lt in El. split; [discriminate|]. intros [_ Hp]. lra.
    + apply ltb_ge in El. split; [|reflexivity]. intros _.
      split; [intros [Hd _]; discriminate|exact El].
Qed.

Lemma validate_valid_iff (rs : list CollapseResult) :
  valid (validateCollapseResults rs) = true <-> Forall acceptable rs.
Proof.
  unfold validateCollapseResults. cbn [valid].
  rewrite Nat.eqb_eq. induction rs as [|r l IH]; simpl.
  - split; [constructor|reflexivity].
  - rewrite length_app. split.
    + intros H. constructor.
      * apply validateOne_nil. destruct (validateOne r); [reflexivity|].
        simpl in H. lia.
      * apply IH. lia.
    + intros H. inversion H as [|? ? Hr Hl]; subst.
      apply validateOne_nil in Hr. rewrite Hr. simpl. now apply IH.
Qed.

Theorem validateCollapseResults_characterised (rs : list CollapseResult) :
  (valid (validateCollapseResults rs) = true <-> Forall acceptable rs)
  /\ (valid (validateCollapseResults rs) = true
      <-> errors (validateCollapseResults rs) = [])
  /\ Forall (fun e => match e with InvalidGrade _ => False | _ => True end)
            (errors (validateCollapseResults rs)).
Proof.
  split; [apply validate_valid_iff|]. split.
  - unfold validateCollapseResults. cbn [valid errors].
    rewrite Nat.eqb_eq. destruct (concat _); simpl; split; try reflexivity;
      try discriminate.
  - unfold validateCollapseResults. cbn [errors].
    induction rs as [|r l IH]; simpl; [constructor|].
    apply Forall_app. split; [|exact IH].
    unfold validateOne.
    assert (Hr : (gradeRank (cr_finalGrade r) <? 0) = false).
    { apply Z.ltb_ge. destruct (cr_finalGrade r); simpl; lia. }
    rewrite Hr. simpl.
    destruct (_ && _); destruct (Js.ltb _ _); repeat constructor.
Qed.

(** X5: for agent weights that are not negative, the results of
    [collapseFromAgentStates] pass [validateCollapseResults]. *)
Theorem collapseFromAgentStates_validates (ctx : CouncilContext) :
  Forall (fun a => (0 <= currentWeight a)%Q) (agentStates ctx) ->
  validateCollapseResults (collapseFromAgentStates ctx)
  = {| valid := true; errors := [] |}.
Proof.
  intros H.
  assert (Hv : valid (validateCollapseResults (collapseFromAgentStates ctx)) = true).
  { apply validate_valid_iff. apply List.Forall_forall. intros r Hr.
    unfold collapseFromAgentStates in Hr. apply in_map_iff in Hr.
    destruct Hr as (a & <- & Ha).
    split; cbn [tokenInvested cr_isDeadline cr_finalGrade].
    - intros [Hd _]. discriminate.
    - pose proof (proj1 (List.Forall_forall _ _) H a Ha) as Hw. cbv beta in Hw.
      rewrite <- (Zle_Qle 0). apply round_nonneg. nra. }
  revert Hv. unfold validateCollapseResults. cbn [valid].
  destruct (concat _); [reflexivity|discriminate].
Qed.

Lemma collapseFromAgentStates_validates_witness :
  Forall (fun a => (0 <= currentWeight a)%Q)
         (agentStates (contextOf createAllAgentStates))
  /\ validateCollapseResults (collapseFromAgentStates (contextOf createAllAgentStates))
     = {| valid := true; errors := [] |}.
Proof.
  assert (H : Forall (fun a => (0 <= currentWeight a)%Q)
                     (agentStates (contextOf createAllAgentStates))).
  { repeat constructor; simpl; lra. }
  split; [exact H|].
  exact (collapseFromAgentStates_validates (contextOf createAllAgentStates) H).
Defined.

End Validation.

Section TradeEffects.

Variable initial : gmap string GradeInfo.

Lemma find_snoc_none {A} (p : A -> bool) (l : list A) (x : A) :
  List.find p (l ++ [x]) = None -> List.find p l = None /\ p x = false.
Proof.
  induction l as [|y r IH]; simpl.
  - destruct (p x); [discriminate|]. now split.
  - destruct (p y); [discriminate|]. exact IH.
Qed.

Lemma applyTradeResult_lookup (st : TradeState) (current : GradeInfo)
    (t : TradeProposal) (k : string) :
  tradeMentions k t = false ->
  adjustedGrades (applyTradeResult st current t) !! k = adjustedGrades st !! k.
Proof.
  unfold tradeMentions. intros H. apply orb_false_iff in H.
  destruct H as [H1 H2]. apply String.eqb_neq in H1, H2.
  unfold applyTradeResult. cbn [adjustedGrades].
  rewrite lookup_insert_ne by exact H2.
  now rewrite lookup_insert_ne by exact H1.
Qed.

Lemma tradeStepTask_untouched (a : AgentId) (state : AgentState)
    (agentTasks : AgentId -> list TaskMeta) (profile : UserProfile)
    (st : TradeState) (tm : TaskMeta) :
  untouched initial st ->
  untouched initial (tradeStepTask a state agentTasks profile st tm).
Proof.
  intros Hinv. unfold tradeStepTask.
  destruct (adjustedGrades st !! block_id (block tm)) as [current|];
    [|exact Hinv].
  destruct (negb _); [exact Hinv|].
  destruct (_ <=? 0); [exact Hinv|].
  destruct (attemptP2PTrade _ _ _ _ _ _ _ _ _) as [t|]; [|exact Hinv].
  intros k Hk. unfold applyTradeResult in Hk. cbn [trades] in Hk.
  apply find_snoc_none in Hk. destruct Hk as [Hk Ht].
  rewrite applyTradeResult_lookup by exact Ht. now apply Hinv.
Qed.

Lemma tradePass_untouched (ctx : CouncilContext)
    (agentTasks : AgentId -> list TaskMeta) (agents : list AgentId)
    (st : TradeState) :
  untouched initial st ->
  untouched initial (fold_left (tradeStepAgent ctx agentTasks) agents st).
Proof.
  revert st.
  induction agents as [|a r IH]; intros st Hinv; simpl; [exact Hinv|].
  apply IH. unfold tradeStepAgent.
  destruct (findAgent a (agentStates ctx)) as [state|]; [|exact Hinv].
  revert st Hinv. induction (agentTasks a) as [|tm l IHl]; intros st Hinv;
    simpl; [exact Hinv|].
  apply IHl. now apply tradeStepTask_untouched.
Qed.

Variable taskMeta : list TaskMeta.
Hypothesis keys_distinct : NoDup (List.map keyOf taskMeta).

Lemma tradeStepTask_deadlines (a : AgentId) (state : AgentState)
    (profile : UserProfile) (st : TradeState) (tm : TaskMeta) :
  In tm taskMeta ->
  deadlinesKept taskMeta initial st ->
  deadlinesKept taskMeta initial
    (tradeStepTask a state (groupByOwner taskMeta) profile st tm).
Proof.
  intros Htm Hinv. unfold tradeStepTask.
  destruct (adjustedGrades st !! block_id (block tm)) as [current|] eqn:Ec;
    [|exact Hinv].
  destruct (Js.gtb (satisfaction state) 60 && _) eqn:Ew; [|exact Hinv].
  cbn [negb].
  destruct (_ <=? 0); [exact Hinv|].
  destruct (attemptP2PTrade _ _ _ _ _ _ _ _ _) as [t|] eqn:Et; [|exact Hinv].
  destruct (attemptP2PTrade_spec _ _ _ _ _ _ _ _ _ _ Et)
    as (partner & pt & gi & _ & Hpt & Hd & _ & Hok & Hdk & _).
  destruct (attemptP2PTrade_wf _ _ _ _ _ _ _ _ _ _ Et)
    as (_ & _ & _ & _ & Hup & _).
  apply group_in in Hpt. destruct Hpt as [Hpt _].
  apply andb_true_iff in Ew. destruct Ew as [_ Ew]. apply Z.ltb_lt in Ew.
  intros tm' Hin' Hdl'. specialize (Hinv tm' Hin' Hdl').
  unfold applyTradeResult. cbn [adjustedGrades].
  assert (Hne : offer_taskId (offer t) <> keyOf tm').
  { rewrite Hok. intros Hk.
    assert (pt = tm') by (apply (NoDup_map_inj keyOf taskMeta); assumption).
    congruence. }
  unfold gradeOf at 2. rewrite lookup_insert_ne by exact Hne.
  rewrite Hdk.
  destruct (decide (block_id (block tm) = keyOf tm')) as [E|E].
  - rewrite E, lookup_insert_eq. cbn [grade]. rewrite Hup.
    unfold gradeOf at 2 in Hinv. rewrite <- E, Ec in Hinv.
    rewrite <- E. simpl in *. lia.
  - rewrite lookup_insert_ne by exact E. exact Hinv.
Qed.

Lemma tradePass_deadlines (ctx : CouncilContext) (agents : list AgentId)
    (st : TradeState) :
  deadlinesKept taskMeta initial st ->
  deadlinesKept taskMeta initial
    (fold_left (tradeStepAgent ctx (groupByOwner taskMeta)) agents st).
Proof.
  revert st.
  induction agents as [|a r IH]; intros st Hinv; simpl; [exact Hinv|].
  apply IH. unfold tradeStepAgent.
  destruct (findAgent a (agentStates ctx)) as [state|]; [|exact Hinv].
  assert (Hall : forall tm, In tm (groupByOwner taskMeta a) -> In tm taskMeta).
  { intros tm Hin. now apply group_in in Hin. }
  revert st Hinv. induction (groupByOwner taskMeta a) as [|tm l IHl];
    intros st Hinv; simpl; [exact Hinv|].
  apply IHl.
  - intros tm' Hin. apply Hall. now right.
  - apply tradeStepTask_deadlines; [|exact Hinv]. apply Hall. now left.
Qed.

End TradeEffects.

Lemma buildCollapseResult_grades (initial adjusted : gmap string GradeInfo)
    (trs : list TradeProposal) (tm : TaskMeta) :
  initialGrade (buildCollapseResult initial adjusted trs tm)
  = gradeOf initial (keyOf tm)
  /\ cr_finalGrade (buildCollapseResult initial adjusted trs tm)
     = gradeOf adjusted (keyOf tm).
Proof.
  unfold buildCollapseResult, gradeOf, keyOf. cbn.
  split; [reflexivity|].
  destruct (adjusted !! block_id (block tm)); reflexivity.
Qed.

(** X6: in the results of [collapseAllTasks], a task that took part in no
    trade has its initial grade as final grade. *)
Theorem untraded_tasks_keep_grade (ctx : CouncilContext)
    (blocks : list ScheduleBlock) (totalBudget : Q) :
  Forall (fun r => tradedWith r = None -> cr_finalGrade r = initialGrade r)
         (results (collapseAllTasks ctx blocks totalBudget)).
Proof.
  unfold collapseAllTasks. cbn [results].
  set (init := initialAllocation _ _).
  set (final := fold_left _ _ _).
  assert (Hu : untouched (initialGrades init) final).
  { apply tradePass_untouched. intros k _. reflexivity. }
  apply List.Forall_forall. intros r Hr.
  apply in_map_iff in Hr. destruct Hr as (tm & <- & _).
  intros Ht.
  destruct (buildCollapseResult_grades (initialGrades init)
              (adjustedGrades final) (trades final) tm) as [-> ->].
  unfold gradeOf. rewrite Hu; [reflexivity|].
  unfold buildCollapseResult in Ht. cbn [tradedWith] in Ht.
  unfold keyOf. destruct (Js.find _ _); [discriminate|reflexivity].
Qed.

(** X7: for blocks with distinct ids, the final grade of every deadline
    result of [collapseAllTasks] is at least its initial grade. *)
Theorem deadline_tasks_never_downgraded (ctx : CouncilContext)
    (blocks : list ScheduleBlock) (totalBudget : Q) :
  NoDup (List.map block_id blocks) ->
  Forall (fun r => cr_isDeadline r = true ->
                   gradeRank (initialGrade r) <= gradeRank (cr_finalGrade r))
         (results (collapseAllTasks ctx blocks totalBudget)).
Proof.
  intros Hnd. unfold collapseAllTasks. cbn [results].
  set (taskMeta := makeTaskMeta blocks).
  assert (Hk : NoDup (List.map keyOf taskMeta)).
  { unfold taskMeta. now rewrite makeTaskMeta_keys. }
  set (init := initialAllocation _ _).
  set (final := fold_left _ _ _).
  assert (Hd : deadlinesKept taskMeta (initialGrades init) final).
  { apply tradePass_deadlines; [exact Hk|]. intros tm _ _. cbn. lia. }
  apply List.Forall_forall. intros r Hr.
  apply in_map_iff in Hr. destruct Hr as (tm & <- & Hin).
  intros Hdl.
  destruct (buildCollapseResult_grades (initialGrades init)
              (adjustedGrades final) (trades final) tm) as [-> ->].
  now apply Hd.
Qed.

Lemma deadline_tasks_never_downgraded_witness :
  NoDup (List.map block_id deadlineTradeBlocks)
  /\ List.map (fun r => (cr_taskId r, cr_isDeadline r, tradedWith r))
       (results (collapseAllTasks (contextOf tradeAgents) deadlineTradeBlocks 1000))
     = [("t1"%string, false, Some ISFJ); ("d1"%string, true, None);
        ("t3"%string, false, Some ENTJ)]
  /\ Forall (fun r => cr_isDeadline r = true ->
                      gradeRank (initialGrade r) <= gradeRank (cr_finalGrade r))
            (results (collapseAllTasks (contextOf tradeAgents)
                                       deadlineTradeBlocks 1000)).
Proof.
  assert (H : NoDup (List.map block_id deadlineTradeBlocks)).
  { apply (bool_decide_unpack _). vm_compute. exact I. }
  split; [exact H|]. split; [reflexivity|].
  exact (deadline_tasks_never_downgraded (contextOf tradeAgents)
           deadlineTradeBlocks 1000 H).
Defined.

Section Draws.

Lemma frac_range (q : Q) : (0 <= Js.frac q /\ Js.frac q < 1)%Q.
Proof.
  unfold Js.frac.
  pose proof (Qfloor_le q) as H1. pose proof (Qlt_floor q) as H2.
  rewrite inject_Z_plus in H2. change (inject_Z 1) with 1%Q in H2.
  split; lra.
Qed.

Lemma random_range (src : Js.RandomSource) :
  (0 <= fst (Js.random src) /\ fst (Js.random src) < 1)%Q.
Proof. apply frac_range. Qed.

Lemma randomIndex_range (n : Z) (src : Js.RandomSource) :
  0 < n -> (fst (Js.randomIndex n src) < Z.to_nat n)%nat.
Proof.
  intros Hn. unfold Js.randomIndex, Js.bind, Js.random, Js.ret. cbn [fst].
  destruct (frac_range (src 0%nat)) as [H0 H1].
  set (r := Js.frac (src 0%nat)) in *.
  assert (Hq : (0 < inject_Z n)%Q).
  { rewrite <- (Zlt_Qlt 0). exact Hn. }
  assert (Hlo : 0 <= Qfloor (r * inject_Z n)).
  { change 0 with (Qfloor 0). apply Qfloor_resp_le. nra. }
  assert (Hhi : Qfloor (r * inject_Z n) < n).
  { rewrite Zlt_Qlt.
    pose proof (Qfloor_le (r * inject_Z n)) as Hf. nra. }
  lia.
Qed.

End Draws.

(** ** Rolls, cards and reports (a2a-engine.ts) *)

Lemma rollEnhanced_fields (t : Q) (g : TaskGrade) (m : Q) (src : Js.RandomSource) :
  let out := fst (rollEnhanced t g m src) in
  let luck := luckOf (Js.frac (src 0%nat)) m in
  let score := scoreOf t g luck in
  rng_luck out = luck
  /\ rng_score out = score
  /\ (rng_type out = RNG.CRITICAL_SUCCESS ->
      g <> TaskGrade.D /\ (0 < t)%Q
      /\ (250 < inject_Z score)%Q /\ (t * (15 # 10) < inject_Z score)%Q)
  /\ (rng_type out = RNG.SUCCESS ->
      g <> TaskGrade.D /\ (0 < t)%Q /\ (t * (5 # 10) < inject_Z score)%Q).
Proof.
  unfold rollEnhanced, Js.bind, Js.random, Js.randomIndex, Js.ret.
  cbv zeta. fold (luckOf (Js.frac (src 0%nat)) m).
  fold (scoreOf t g (luckOf (Js.frac (src 0%nat)) m)).
  generalize (scoreOf t g (luckOf (Js.frac (src 0%nat)) m)). intros score.
  unfold RNG_THRESHOLDS_criticalSuccess, RNG_THRESHOLDS_success,
    RNG_THRESHOLDS_barelyPassed.
  destruct (Js.gtb (inject_Z score) (Js.max 250 (t * (15 # 10)))) eqn:E1;
  [|destruct (Js.gtb (inject_Z score) (t * (5 # 10))) eqn:E2;
    [|destruct (Js.gtb (inject_Z score) 0) eqn:E3]];
  (destruct (bool_decide (g = TaskGrade.D) || Js.leb t 0) eqn:Ef;
   cbn; (split; [reflexivity|]); (split; [reflexivity|]);
   (split; intros H; try discriminate)).
  - apply orb_false_iff in Ef. destruct Ef as [Ed El].
    apply bool_decide_eq_false in Ed.
    assert (Ht : (0 < t)%Q).
    { destruct (Qlt_le_dec 0 t) as [?|Hle]; [assumption|].
      apply leb_le in Hle. congruence. }
    apply gtb_gt in E1.
    pose proof (max_ge_l 250 (t * (15 # 10))) as M1.
    assert (M2 : (t * (15 # 10) <= Js.max 250 (t * (15 # 10)))%Q).
    { unfold Js.max. destruct (Js.ltb 250 (t * (15 # 10))) eqn:E; [lra|].
      apply ltb_ge in E. exact E. }
    split; [exact Ed|]. split; [exact Ht|]. split; lra.
  - apply orb_false_iff in Ef. destruct Ef as [Ed El].
    apply bool_decide_eq_false in Ed.
    assert (Ht : (0 < t)%Q).
    { destruct (Qlt_le_dec 0 t) as [?|Hle]; [assumption|].
      apply leb_le in Hle. congruence. }
    apply gtb_gt in E2.
    split; [exact Ed|]. split; [exact Ht|exact E2].
Qed.

Lemma luckOf_range (r m : Q) : (-(1 # 2) <= luckOf r m /\ luckOf r m <= 1 # 2)%Q.
Proof.
  unfold luckOf, Js.max, Js.min.
  destruct (Js.ltb (-(5 # 10) + r + m) (5 # 10)) eqn:E1.
  - apply ltb_lt in E1.
    destruct (Js.ltb (-(5 # 10)) (-(5 # 10) + r + m)) eqn:E2.
    + apply ltb_lt in E2. split; lra.
    + split; lra.
  - destruct (Js.ltb (-(5 # 10)) (5 # 10)) eqn:E2; split; lra.
Qed.

Lemma luckOf_below (r m : Q) : (r < 1 -> m <= 0 -> luckOf r m < 1 # 2)%Q.
Proof.
  intros Hr Hm. unfold luckOf, Js.max, Js.min.
  destruct (Js.ltb (-(5 # 10) + r + m) (5 # 10)) eqn:E1.
  - destruct (Js.ltb (-(5 # 10)) (-(5 # 10) + r + m)) eqn:E2; lra.
  - apply ltb_ge in E1. lra.
Qed.

Lemma multiplier_range (g : TaskGrade) :
  (0 <= LEVEL_COST_MULTIPLIERS g /\ LEVEL_COST_MULTIPLIERS g <= 2)%Q.
Proof. destruct g; simpl; split; lra. Qed.

(** X8: the luck of [rollEnhanced] lies in [-1/2, 1/2]; for an investment
    that is not negative the score is not negative and at most
    [tokenInvested * multiplier * 3/2 + 1/2]. *)
Theorem rollEnhanced_luck_and_score (t : Q) (g : TaskGrade) (m : Q)
    (src : Js.RandomSource) :
  (-(1 # 2) <= rng_luck (fst (rollEnhanced t g m src))
   /\ rng_luck (fst (rollEnhanced t g m src)) <= 1 # 2)%Q
  /\ ((0 <= t)%Q ->
      0 <= rng_score (fst (rollEnhanced t g m src))
      /\ (inject_Z (rng_score (fst (rollEnhanced t g m src)))
          <= t * LEVEL_COST_MULTIPLIERS g * (3 # 2) + (1 # 2))%Q).
Proof.
  destruct (rollEnhanced_fields t g m src) as (-> & -> & _).
  pose proof (luckOf_range (Js.frac (src 0%nat)) m) as [L1 L2].
  split; [split; assumption|]. intros Ht.
  pose proof (multiplier_range g) as [M1 M2].
  unfold scoreOf.
  generalize dependent (luckOf (Js.frac (src 0%nat)) m). intros l L1 L2.
  generalize dependent (LEVEL_COST_MULTIPLIERS g). intros k M1 M2.
  assert (Hp : (0 <= t * k)%Q) by (apply Qmult_le_0_compat; assumption).
  generalize dependent (t * k)%Q. intros p Hp.
  split.
  - apply round_nonneg. nra.
  - pose proof (round_nearest (p * (1 + l))) as [_ Hr]. nra.
Qed.

(** Grades B, C and D never roll a critical success. *)
Lemma no_critical_below_A (t : Q) (g : TaskGrade) (m : Q) (src : Js.RandomSource) :
  rng_type (fst (rollEnhanced t g m src)) = RNG.CRITICAL_SUCCESS ->
  g = TaskGrade.S \/ g = TaskGrade.A.
Proof.
  intros H.
  destruct (rollEnhanced_fields t g m src) as (_ & _ & Hc & _).
  destruct (Hc H) as (Hd & Ht & H250 & Hs). clear Hc.
  pose proof (luckOf_range (Js.frac (src 0%nat)) m) as [L1 L2].
  unfold scoreOf in *.
  generalize dependent (luckOf (Js.frac (src 0%nat)) m). intros l.
  intros H250 Hs L1 L2.
  destruct g; [now left|now right| | |congruence]; exfalso; simpl in *.
  - pose proof (round_nearest (t * (5 # 10) * (1 + l))) as [_ Hr].
    assert (Hx : (t * (5 # 10) * (1 + l) <= t * (75 # 100))%Q) by nra.
    lra.
  - pose proof (round_nearest (t * (2 # 10) * (1 + l))) as [_ Hr].
    assert (Hx : (t * (2 # 10) * (1 + l) <= t * (3 # 10))%Q) by nra.
    lra.
Qed.

(** Below 167 tokens grade A does not either: the score is at most
    [round (166 * 3/2) = 249], under the absolute threshold of 250. *)
Lemma no_critical_at_A (t m : Q) (src : Js.RandomSource) :
  (t <= 166)%Q ->
  rng_type (fst (rollEnhanced t TaskGrade.A m src)) <> RNG.CRITICAL_SUCCESS.
Proof.
  intros Hle H.
  destruct (rollEnhanced_fields t TaskGrade.A m src) as (_ & _ & Hc & _).
  destruct (Hc H) as (_ & Ht & H250 & _). clear Hc.
  pose proof (luckOf_range (Js.frac (src 0%nat)) m) as [_ L].
  unfold scoreOf in H250. simpl in H250.
  generalize dependent (luckOf (Js.frac (src 0%nat)) m). intros l H250 L.
  pose proof (round_nearest (t * 1 * (1 + l))) as [_ Hr].
  assert (Hx : (t * 1 * (1 + l) <= 249)%Q) by nra.
  lra.
Qed.

Lemma others_length (item : SpecialItem) :
  length (List.filter (fun x => negb (bool_decide (x = item))) SPECIAL_ITEMS) = 5%nat.
Proof. destruct item; reflexivity. Qed.

Lemma bind_unfold {T U} (c : Js.Rand T) (k : T -> Js.Rand U)
    (src : Js.RandomSource) :
  Js.bind c k src = k (fst (c src)) (snd (c src)).
Proof. unfold Js.bind. destruct (c src). reflexivity. Qed.

Lemma rollSpecialItems_spec (type : RNGResultType) (g : TaskGrade)
    (src : Js.RandomSource) :
  (length (fst (rollSpecialItems type g src)) <= 2)%nat
  /\ NoDup (fst (rollSpecialItems type g src))
  /\ (type <> RNG.CRITICAL_SUCCESS -> fst (rollSpecialItems type g src) = [])
  /\ (g <> TaskGrade.S -> (length (fst (rollSpecialItems type g src)) <= 1)%nat)
  /\ (type = RNG.CRITICAL_SUCCESS -> g = TaskGrade.S ->
      fst (rollSpecialItems type g src) <> []).
Proof.
  assert (Hone : forall x : SpecialItem, NoDup [x]).
  { intros x. apply NoDup_singleton. }
  assert (Hnil : forall s : Js.RandomSource,
    (length (fst (Js.ret (@nil SpecialItem) s)) <= 2)%nat
    /\ NoDup (fst (Js.ret (@nil SpecialItem) s))
    /\ fst (Js.ret (@nil SpecialItem) s) = []
    /\ (length (fst (Js.ret (@nil SpecialItem) s)) <= 1)%nat).
  { intros s. cbn. split; [lia|]. split; [constructor|]. split; [reflexivity|lia]. }
  assert (Hsingle : forall (item : SpecialItem) (s : Js.RandomSource),
    (length (fst (Js.ret [item] s)) <= 2)%nat
    /\ NoDup (fst (Js.ret [item] s))
    /\ (length (fst (Js.ret [item] s)) <= 1)%nat
    /\ fst (Js.ret [item] s) <> []).
  { intros item s. cbn. split; [lia|]. split; [apply Hone|].
    split; [lia|discriminate]. }
  unfold rollSpecialItems.
  destruct type;
    try (destruct (Hnil src) as (H1 & H2 & H3 & H4);
         split; [exact H1|]; split; [exact H2|]; split; [intros _; exact H3|];
         split; [intros _; exact H4|intros; congruence]).
  rewrite bind_unfold.
  pose proof (random_range src) as [_ Hr].
  generalize dependent (fst (Js.random src)). intros r Hr.
  generalize (snd (Js.random src)). intros src1.
  destruct (Js.gtb r (dropChance g)) eqn:Eg.
  - destruct (Hnil src1) as (H1 & H2 & H3 & H4).
    split; [exact H1|]. split; [exact H2|]. split; [intros _; exact H3|].
    split; [intros _; exact H4|].
    intros _ ->. apply gtb_gt in Eg. simpl in Eg. lra.
  - clear Eg. rewrite bind_unfold.
    generalize (fst (Js.randomIndex (Z.of_nat (length SPECIAL_ITEMS)) src1)).
    intros i.
    generalize (snd (Js.randomIndex (Z.of_nat (length SPECIAL_ITEMS)) src1)).
    intros src2.
    set (item := nth i SPECIAL_ITEMS TIME_SHARD).
    destruct g;
      try (destruct (Hsingle item src2) as (H1 & H2 & H4 & H5);
           split; [exact H1|]; split; [exact H2|]; split; [congruence|];
           split; [intros _; exact H4|intros _ _; exact H5]).
    rewrite bind_unfold.
    generalize (fst (Js.random src2)). intros r2.
    generalize (snd (Js.random src2)). intros src3.
    destruct (Js.ltb r2 (3 # 10)).
    + rewrite bind_unfold.
      pose proof (randomIndex_range (Z.of_nat (length SPECIAL_ITEMS) - 1) src3) as Hj.
      generalize dependent
        (fst (Js.randomIndex (Z.of_nat (length SPECIAL_ITEMS) - 1) src3)).
      intros j Hj.
      generalize (snd (Js.randomIndex (Z.of_nat (length SPECIAL_ITEMS) - 1) src3)).
      intros src4.
      cbn [fst Js.ret].
      set (others := List.filter _ SPECIAL_ITEMS).
      assert (Hin : In (nth j others TIME_SHARD) others).
      { apply nth_In. unfold others. rewrite others_length.
        simpl in Hj. apply Hj. lia. }
      unfold others in Hin at 2. apply filter_In in Hin. destruct Hin as [_ Hne].
      apply negb_true_iff, bool_decide_eq_false in Hne.
      split; [simpl; lia|]. split.
      * apply NoDup_cons. split; [|apply Hone].
        intros Hx. apply list_elem_of_In in Hx. destruct Hx as [Hx|[]].
        now apply Hne.
      * split; [congruence|]. split; [congruence|discriminate].
    + destruct (Hsingle item src3) as (H1 & H2 & H4 & H5).
      split; [exact H1|]. split; [exact H2|]. split; [congruence|].
      split; [intros _; exact H4|intros _ _; exact H5].
Qed.

Lemma generateEventCard_fields (cr : CollapseResult) (m : Q) (src : Js.RandomSource) :
  let card := fst (generateEventCard cr m src) in
  let roll := rollEnhanced (tokenInvested cr) (cr_finalGrade cr) m src in
  card_taskId card = cr_taskId cr
  /\ card_ownerAgent card = cr_ownerAgent cr
  /\ card_grade card = cr_finalGrade cr
  /\ score card = rng_score (fst roll)
  /\ luck card = rng_luck (fst roll)
  /\ statChanges card
     = calculateStatChanges (rng_type (fst roll)) (cr_finalGrade cr)
                            (cr_ownerAgent cr)
  /\ specialItems card
     = fst (rollSpecialItems (rng_type (fst roll)) (cr_finalGrade cr) (snd roll))
  /\ card_type card
     = if (0 <? Z.of_nat (length (specialItems card)))
       then SPECIAL_ITEM else RngCard (rng_type (fst roll)).
Proof.
  unfold generateEventCard. cbv zeta. rewrite !bind_unfold.
  unfold Js.ret. cbn [fst card_taskId card_ownerAgent card_grade score luck
                       statChanges specialItems card_type].
  repeat split.
Qed.

(** X9: an event card of type CRITICAL_SUCCESS has grade A: at grade S a
    critical success always drops an item, which makes the card a
    SPECIAL_ITEM; below A there is no critical success. *)
Theorem critical_success_card_is_grade_A (cr : CollapseResult) (m : Q)
    (src : Js.RandomSource) :
  card_type (fst (generateEventCard cr m src)) = RngCard RNG.CRITICAL_SUCCESS ->
  cr_finalGrade cr = TaskGrade.A.
Proof.
  destruct (generateEventCard_fields cr m src)
    as (_ & _ & _ & _ & _ & _ & Hi & Ht).
  rewrite Ht, Hi. clear Ht Hi.
  set (roll := rollEnhanced _ _ _ _).
  destruct (rollSpecialItems_spec (rng_type (fst roll)) (cr_finalGrade cr) (snd roll))
    as (_ & _ & _ & _ & Hs).
  destruct (fst (rollSpecialItems _ _ _)) as [|x l] eqn:Ei; [|discriminate].
  simpl. intros H. injection H as H.
  destruct (no_critical_below_A _ _ _ _ H) as [E|E]; [|exact E].
  exfalso. now apply Hs.
Qed.

Lemma critical_success_card_is_grade_A_witness :
  card_type
    (fst (generateEventCard (investmentOf 167 TaskGrade.A) (1 # 2)
            (fun _ => 9 # 10)))
  = RngCard RNG.CRITICAL_SUCCESS
  /\ cr_finalGrade (investmentOf 167 TaskGrade.A) = TaskGrade.A.
Proof.
  assert (H : card_type
    (fst (generateEventCard (investmentOf 167 TaskGrade.A) (1 # 2)
            (fun _ => 9 # 10)))
    = RngCard RNG.CRITICAL_SUCCESS) by (vm_compute; reflexivity).
  split; [exact H|].
  exact (critical_success_card_is_grade_A _ _ _ H).
Defined.

Section Reports.

Lemma mapM_map {T U V} (f : T -> Js.Rand U) (g : U -> V) (h : T -> V) :
  (forall x src, g (fst (f x src)) = h x) ->
  forall l src, List.map g (fst (Js.mapM f l src)) = List.map h l.
Proof.
  intros H l. induction l as [|x r IH]; intros src; [reflexivity|].
  simpl. rewrite !bind_unfold. cbn [Js.ret fst]. simpl.
  now rewrite H, IH.
Qed.

Lemma mapM_Forall {T U} (f : T -> Js.Rand U) (P : U -> Prop) (R : T -> Prop) :
  (forall x src, R x -> P (fst (f x src))) ->
  forall l src, Forall R l -> Forall P (fst (Js.mapM f l src)).
Proof.
  intros H l. induction l as [|x r IH]; intros src Hl; [constructor|].
  simpl. rewrite !bind_unfold. cbn [Js.ret fst].
  inversion Hl; subst. constructor; [now apply H|now apply IH].
Qed.

Variable input : SettlementInput.
Variable rng : Js.RandomSource.

Local Abbreviation m := (default 0%Q (luckModifier input)).
Local Abbreviation drawn :=
  (Js.mapM (fun cr => generateEventCard cr m) (collapseResults input) rng).

Lemma report_unfold :
  eventCards (reportOf input rng) = fst drawn
  /\ highlights (reportOf input rng)
     = Js.slice_first 12
         (List.concat (List.map cardHighlights (fst drawn))
          ++ List.map (fun _ => h_trade) (in_trades input)
          ++ (if 2 <=? comboCount (calculateComboBonus (fst drawn))
              then [h_combo] else []))
  /\ deliverables (reportOf input rng)
     = fst (Js.mapM generateDeliverable
              (List.filter
                 (fun cr => negb (bool_decide (cr_finalGrade cr = TaskGrade.D)))
                 (collapseResults input)) (snd drawn))
  /\ rep_trades (reportOf input rng) = in_trades input.
Proof.
  unfold reportOf, buildSettlementReport. cbv zeta.
  rewrite !bind_unfold. unfold Js.ret. cbn [fst eventCards highlights
    deliverables rep_trades].
  repeat split.
Qed.

Lemma report_structure_lemma :
  List.map card_taskId (eventCards (reportOf input rng))
  = List.map cr_taskId (collapseResults input)
  /\ List.map card_grade (eventCards (reportOf input rng))
     = List.map cr_finalGrade (collapseResults input)
  /\ List.map card_ownerAgent (eventCards (reportOf input rng))
     = List.map cr_ownerAgent (collapseResults input)
  /\ List.map level (deliverables (reportOf input rng))
     = List.filter (fun g => negb (bool_decide (g = TaskGrade.D)))
         (List.map cr_finalGrade (collapseResults input))
  /\ (length (highlights (reportOf input rng)) <= 12)%nat
  /\ List.map entry_grade (tasks (settlementToResultCard (reportOf input rng)))
     = List.map cr_finalGrade (collapseResults input).
Proof.
  destruct report_unfold as (Hc & Hh & Hd & _).
  assert (Hg : List.map card_grade (eventCards (reportOf input rng))
               = List.map cr_finalGrade (collapseResults input)).
  { rewrite Hc. apply mapM_map. intros x src.
    now destruct (generateEventCard_fields x m src) as (_ & _ & -> & _). }
  split; [|split; [exact Hg|split; [|split; [|split]]]].
  - rewrite Hc. apply mapM_map. intros x src.
    now destruct (generateEventCard_fields x m src) as (-> & _).
  - rewrite Hc. apply mapM_map. intros x src.
    now destruct (generateEventCard_fields x m src) as (_ & -> & _).
  - rewrite Hd.
    rewrite (mapM_map generateDeliverable level cr_finalGrade).
    + generalize (collapseResults input). intros l.
      induction l as [|x r IH]; [reflexivity|]. simpl.
      destruct (negb _); simpl; now rewrite IH.
    + intros x src. unfold generateDeliverable. rewrite bind_unfold. reflexivity.
  - rewrite Hh. unfold Js.slice_first. rewrite length_firstn. lia.
  - unfold settlementToResultCard. cbn [tasks]. rewrite List.map_map.
    exact Hg.
Qed.

End Reports.

Lemma card_not_critical (cr : CollapseResult) (m : Q) (src : Js.RandomSource) :
  (tokenInvested cr <= 166)%Q ->
  card_type (fst (generateEventCard cr m src)) <> RngCard RNG.CRITICAL_SUCCESS.
Proof.
  intros Hle H.
  destruct (generateEventCard_fields cr m src)
    as (_ & _ & _ & _ & _ & _ & Hi & Ht).
  rewrite Ht, Hi in H. clear Ht Hi.
  set (roll := rollEnhanced _ _ _ _) in H.
  destruct (rollSpecialItems_spec (rng_type (fst roll)) (cr_finalGrade cr) (snd roll))
    as (_ & _ & _ & _ & Hs).
  destruct (fst (rollSpecialItems _ _ _)) as [|x l] eqn:Ei; [|discriminate].
  simpl in H. injection H as H.
  destruct (no_critical_below_A _ _ _ _ H) as [E|E].
  - now apply Hs.
  - unfold roll in H. rewrite E in H.
    now apply (no_critical_at_A _ m src Hle).
Qed.

Lemma In_firstn {A} (n : nat) (l : list A) (x : A) :
  In x (firstn n l) -> In x l.
Proof.
  revert l. induction n as [|n IH]; intros [|y l] H; simpl in *; try contradiction.
  destruct H as [H|H]; [now left|right; now apply IH].
Qed.

Lemma no_critical_success_cards (input : SettlementInput)
    (rng : Js.RandomSource) :
  Forall (fun cr => (tokenInvested cr <= 166)%Q) (collapseResults input) ->
  Forall (fun c => card_type c <> RngCard RNG.CRITICAL_SUCCESS)
         (eventCards (reportOf input rng)).
Proof.
  intros Hz.
  destruct (report_unfold input rng) as (Hc & _).
  rewrite Hc.
  apply (mapM_Forall _ _ (fun cr => (tokenInvested cr <= 166)%Q)); [|exact Hz].
  intros x src Hx. now apply card_not_critical.
Qed.

(** X10: a settlement report whose results all invest at most 166 tokens
    holds no CRITICAL_SUCCESS card and no critical-success highlight,
    whatever the luck modifier and the draws. *)
Theorem report_without_critical_success (input : SettlementInput)
    (rng : Js.RandomSource) :
  Forall (fun cr => (tokenInvested cr <= 166)%Q) (collapseResults input) ->
  Forall (fun c => card_type c <> RngCard RNG.CRITICAL_SUCCESS)
         (eventCards (reportOf input rng))
  /\ ~ In h_critical_success (highlights (reportOf input rng)).
Proof.
  intros Hz.
  pose proof (no_critical_success_cards input rng Hz) as Hcards.
  destruct (report_unfold input rng) as (Hc & Hh & _).
  split; [exact Hcards|].
  rewrite Hh. intros Hin. apply In_firstn in Hin.
  rewrite Hc in Hcards.
  apply in_app_or in Hin. destruct Hin as [Hin|Hin].
  - apply in_concat in Hin. destruct Hin as (hs & Hhs & Hin).
    apply in_map_iff in Hhs. destruct Hhs as (c & <- & Hc').
    pose proof (proj1 (List.Forall_forall _ _) Hcards c Hc') as Hn.
    cbv beta in Hn. unfold cardHighlights in Hin.
    apply in_app_or in Hin. destruct Hin as [Hin|Hin].
    + destruct (card_type c) as [[]| | |]; simpl in Hin;
        contradiction.
    + apply in_app_or in Hin. destruct Hin as [Hin|Hin].
      * destruct (card_type c) as [[]| | |]; simpl in Hin;
          try contradiction; destruct Hin as [Hin|[]]; discriminate.
      * apply in_map_iff in Hin. destruct Hin as (? & Hin & _). discriminate.
  - apply in_app_or in Hin. destruct Hin as [Hin|Hin].
    + apply in_map_iff in Hin. destruct Hin as (? & Hin & _). discriminate.
    + destruct (2 <=? _); simpl in Hin; [destruct Hin as [Hin|[]]; discriminate|
                                         contradiction].
Qed.

Lemma report_without_critical_success_witness :
  Forall (fun cr => (tokenInvested cr <= 166)%Q) (collapseResults luckyInput)
  /\ Forall (fun c => card_type c <> RngCard RNG.CRITICAL_SUCCESS)
            (eventCards (reportOf luckyInput (fun _ => 9 # 10)))
  /\ ~ In h_critical_success
          (highlights (reportOf luckyInput (fun _ => 9 # 10))).
Proof.
  assert (H1 : Forall (fun cr => (tokenInvested cr <= 166)%Q)
                 (collapseResults luckyInput)).
  { repeat constructor. simpl. lra. }
  split; [exact H1|].
  exact (report_without_critical_success luckyInput (fun _ => 9 # 10) H1).
Defined.

(** X11: for a budget that is not negative, a report with a meltdown has
    nothing remaining, no surplus, no carry-over and overall grade D. *)
Theorem meltdown_leaves_nothing (input : SettlementInput) (rng : Js.RandomSource) :
  (0 <= totalBudget input)%Q ->
  meltdownOccurred (tokenSettlement (reportOf input rng)) = true ->
  totalRemaining (tokenSettlement (reportOf input rng)) = 0%Q
  /\ surplus (tokenSettlement (reportOf input rng)) = 0%Q
  /\ carryOver (tokenSettlement (reportOf input rng)) = 0
  /\ overallGrade (reportOf input rng) = TaskGrade.D.
Proof.
  unfold reportOf, buildSettlementReport. cbv zeta.
  rewrite !bind_unfold. unfold Js.ret.
  cbn [fst tokenSettlement totalRemaining surplus carryOver meltdownOccurred
       overallGrade].
  intros Hb Hm.
  assert (Hmax : Js.max 0 (totalBudget input
                   - fold_left (fun sum cr => (sum + tokenInvested cr)%Q)
                               (collapseResults input) 0%Q) = 0%Q).
  { apply gtb_gt in Hm. unfold Js.max.
    destruct (Js.ltb 0 _) eqn:E; [|reflexivity].
    apply ltb_lt in E. lra. }
  rewrite Hmax, Hm. repeat split.
Qed.

Lemma meltdown_leaves_nothing_witness :
  (0 <= totalBudget (settlementOf [investmentOf 2000 TaskGrade.S] 1000))%Q
  /\ meltdownOccurred
       (tokenSettlement (reportOf (settlementOf [investmentOf 2000 TaskGrade.S] 1000)
                                  (fun _ => 9 # 10))) = true
  /\ totalRemaining
       (tokenSettlement (reportOf (settlementOf [investmentOf 2000 TaskGrade.S] 1000)
                                  (fun _ => 9 # 10))) = 0%Q
  /\ surplus
       (tokenSettlement (reportOf (settlementOf [investmentOf 2000 TaskGrade.S] 1000)
                                  (fun _ => 9 # 10))) = 0%Q
  /\ carryOver
       (tokenSettlement (reportOf (settlementOf [investmentOf 2000 TaskGrade.S] 1000)
                                  (fun _ => 9 # 10))) = 0
  /\ overallGrade (reportOf (settlementOf [investmentOf 2000 TaskGrade.S] 1000)
                            (fun _ => 9 # 10)) = TaskGrade.D.
Proof.
  assert (H1 : (0 <= totalBudget (settlementOf [investmentOf 2000 TaskGrade.S] 1000))%Q)
    by (simpl; lra).
  assert (H2 : meltdownOccurred
       (tokenSettlement (reportOf (settlementOf [investmentOf 2000 TaskGrade.S] 1000)
                                  (fun _ => 9 # 10))) = true) by reflexivity.
  split; [exact H1|]. split; [exact H2|].
  exact (meltdown_leaves_nothing _ (fun _ => 9 # 10) H1 H2).
Defined.

(** X12: the combo count of [calculateComboBonus] is 0 or at least 2 and at
    most the number of cards; count 0 gives no bonus; the bonus stats are
    capped and not negative; the item is INSPIRE exactly from count 3. *)
Theorem calculateComboBonus_bounds (cards : list EventCard) :
  let combo := calculateComboBonus cards in
  (comboCount combo = 0 \/ 2 <= comboCount combo)
  /\ comboCount combo <= Z.of_nat (length cards)
  /\ (comboCount combo = 0 ->
      bonusStats combo = {| professional := 0; social := 0; sanity := 0; wealth := 0 |}
      /\ bonusItem combo = None)
  /\ 0 <= professional (bonusStats combo) <= 15
  /\ 0 <= social (bonusStats combo) <= 9
  /\ 0 <= sanity (bonusStats combo) <= 6
  /\ 0 <= wealth (bonusStats combo) <= 30
  /\ (bonusItem combo = Some INSPIRE <-> 3 <= comboCount combo)
  /\ (bonusItem combo = None \/ bonusItem combo = Some INSPIRE).
Proof.
  unfold calculateComboBonus. cbv zeta.
  pose proof (List.filter_length_le isSuccessCard cards) as Hl.
  set (n := Z.of_nat (length (List.filter isSuccessCard cards))).
  assert (Hn : 0 <= n <= Z.of_nat (length cards)) by (unfold n; lia).
  clearbody n.
  destruct (n <? 2) eqn:E.
  - apply Z.ltb_lt in E. cbn.
    repeat split; try lia; try discriminate; try (now left).
  - apply Z.ltb_ge in E. cbn.
    destruct (3 <=? n) eqn:E3.
    + apply Z.leb_le in E3. repeat split; try lia; try (now right).
    + apply Z.leb_gt in E3. repeat split; try lia; try discriminate; try (now left).
Qed.

(** X13: [rollEnhanced] gives CRITICAL_SUCCESS only for grade S or A; a
    grade C roll with an investment of at least 5/2 is BARELY_PASSED or
    CRITICAL_FAIL. *)
Theorem roll_outcomes_by_grade (t : Q) (g : TaskGrade) (m : Q)
    (src : Js.RandomSource) :
  (rng_type (fst (rollEnhanced t g m src)) = RNG.CRITICAL_SUCCESS ->
   g = TaskGrade.S \/ g = TaskGrade.A)
  /\ (g = TaskGrade.C -> (5 # 2 <= t)%Q ->
      rng_type (fst (rollEnhanced t g m src)) = RNG.BARELY_PASSED
      \/ rng_type (fst (rollEnhanced t g m src)) = RNG.CRITICAL_FAIL).
Proof.
  split; [apply no_critical_below_A|].
  intros -> Ht.
  destruct (rollEnhanced_fields t TaskGrade.C m src) as (_ & _ & Hc & Hs).
  destruct (rng_type (fst (rollEnhanced t TaskGrade.C m src))) eqn:E;
    [exfalso|exfalso|now left|now right].
  - destruct (no_critical_below_A _ _ _ _ E); discriminate.
  - destruct (Hs eq_refl) as (_ & _ & H). clear Hs Hc.
    pose proof (luckOf_range (Js.frac (src 0%nat)) m) as [L1 L2].
    unfold scoreOf in H. simpl in H.
    generalize dependent (luckOf (Js.frac (src 0%nat)) m). intros l H L1 L2.
    pose proof (round_nearest (t * (2 # 10) * (1 + l))) as [_ Hr].
    assert (Hx : (t * (2 # 10) * (1 + l) <= t * (3 # 10))%Q) by nra.
    lra.
Qed.

(** ** Sessions (orchestrator.ts) *)

Section SessionTrace.

Variable config : OrchestratorConfig.
Variable service : TextService.

Lemma updateAgentState_weights (l : list AgentState) (a : AgentId) (u : AgentUpdate) :
  List.map currentWeight (updateAgentState l a u) = List.map currentWeight l.
Proof.
  unfold updateAgentState. rewrite List.map_map. apply List.map_ext.
  intros x. destruct (AgentId_eqb (id x) a); reflexivity.
Qed.

Lemma applyEffects_weights (effects : list TurnEffect) (s : Session) :
  weights (fold_left applyEffect effects s) = weights s.
Proof.
  revert s. induction effects as [|e r IH]; intros s; simpl; [reflexivity|].
  rewrite IH. destruct e as [a u|entry]; unfold weights; simpl; [|reflexivity].
  apply updateAgentState_weights.
Qed.

Lemma forced_after_round_10 (agents : list AgentState) (round maxR : Z)
    (prev : option (list AgentState)) (cv : ConvergenceResult) :
  forceConvergence agents round maxR 10 prev = Some cv ->
  shouldForce cv = true -> 10 <= round.
Proof.
  unfold forceConvergence. destruct (round <? 10) eqn:E.
  - intros H. injection H as <-. discriminate.
  - intros _ _. now apply Z.ltb_ge in E.
Qed.

Lemma negotiationStep_trace (s : Session) :
  match negotiationStep config service s with
  | Continue s' =>
      currentRound (context s') = currentRound (context s) + 1
      /\ session_status s' = session_status s
      /\ weights s' = weights s
  | Break s' =>
      currentRound (context s') = currentRound (context s)
      /\ 10 <= currentRound (context s)
      /\ weights s' = weights s
  | Throws => True
  end.
Proof.
  unfold negotiationStep. cbv zeta.
  set (s1 := {| context := context s; logs := logs s;
                session_status := session_status s;
                currentTick := currentTick s + 1;
                previousRoundStates := previousRoundStates s |}).
  assert (Hu : forall o : option Session,
    (forall s2, o = Some s2 ->
       currentRound (context s2) = currentRound (context s)
       /\ session_status s2 = session_status s
       /\ weights s2 = weights s) ->
    match
      match o with
      | Some s2 =>
          match service (currentRound (context s2))
                  (speaker (selectSpeakerForTick (currentTick s2)
                              (agentStates (context s2))
                              (Js.slice_last 20 (logs s2))))
                  (agentStates (context s2)) with
          | CallFailed =>
              Continue (advanceRound (addLog s2
                 (systemLog (speaker (selectSpeakerForTick (currentTick s2)
                              (agentStates (context s2))
                              (Js.slice_last 20 (logs s2)))))))
          | Replied effects =>
              match forceConvergence
                      (agentStates (context (fold_left applyEffect effects s2)))
                      (currentRound (context (fold_left applyEffect effects s2)))
                      (maxRounds config) 10
                      (previousRoundStates (fold_left applyEffect effects s2)) with
              | Some convergence =>
                  if shouldForce convergence
                  then Break (addLog (conclude (fold_left applyEffect effects s2))
                                     (systemLog None))
                  else Continue
                    (advanceRound
                       {| context := context (fold_left applyEffect effects s2);
                          logs := logs (fold_left applyEffect effects s2);
                          session_status :=
                            session_status (fold_left applyEffect effects s2);
                          currentTick := currentTick (fold_left applyEffect effects s2);
                          previousRoundStates :=
                            Some (agentStates
                                    (context (fold_left applyEffect effects s2))) |})
              | None => Throws
              end
          end
      | None => Throws
      end
    with
    | Continue s' =>
        currentRound (context s') = currentRound (context s) + 1
        /\ session_status s' = session_status s
        /\ weights s' = weights s
    | Break s' =>
        currentRound (context s') = currentRound (context s)
        /\ 10 <= currentRound (context s)
        /\ weights s' = weights s
    | Throws => True
    end).
  { intros [s2|] Ho; [|exact I].
    destruct (Ho s2 eq_refl) as (Hr & Hs & Hw).
    destruct (service _ _ _) as [|effects].
    - split; [simpl; lia|]. split; assumption.
    - destruct (applyEffects_keep effects s2) as (_ & K2 & K3).
      pose proof (applyEffects_weights effects s2) as K4.
      set (s3 := fold_left applyEffect effects s2) in *.
      destruct (forceConvergence _ _ _ _ _) as [cv|] eqn:Ef; [|exact I].
      destruct (shouldForce cv) eqn:Ec.
      + pose proof (forced_after_round_10 _ _ _ _ _ Ef Ec) as H10.
        split; [simpl; lia|]. split; [lia|].
        unfold weights in *. simpl. congruence.
      + split; [simpl; lia|]. split; [simpl; congruence|].
        unfold weights in *. simpl. congruence. }
  apply Hu. intros s2 Hs2.
  destruct (urgency _).
  - injection Hs2 as <-. repeat split.
  - injection Hs2 as <-. repeat split.
  - destruct (electChair _); [|discriminate].
    destruct (buildUrgencyMessage_nonempty _ _); injection Hs2 as <-;
      repeat split.
Qed.

Lemma negotiationLoop_trace (fuel : nat) (s : Session) :
  agentIds s = ALL_AGENT_IDS ->
  session_status s = SESSION_ACTIVE ->
  maxRounds config - currentRound (context s) + 1 <= Z.of_nat fuel ->
  exists s', negotiationLoop fuel config service s = Done s'
             /\ agentIds s' = ALL_AGENT_IDS
             /\ weights s' = weights s
             /\ currentRound (context s) <= currentRound (context s')
             /\ currentRound (context s')
                <= Z.max (currentRound (context s)) (maxRounds config + 1)
             /\ (10 <= currentRound (context s')
                 \/ maxRounds config < currentRound (context s')).
Proof.
  revert s. induction fuel as [|fuel IH]; intros s H4 Ha Hf.
  - simpl. destruct (loopGuard config s) eqn:Eg.
    + exfalso. unfold loopGuard in Eg. apply andb_true_iff in Eg.
      destruct Eg as [_ Eg]. apply Z.leb_le in Eg. lia.
    + exists s. unfold loopGuard in Eg. rewrite Ha in Eg. simpl in Eg.
      apply Z.leb_gt in Eg.
      repeat split; try assumption; try lia.
  - simpl. destruct (loopGuard config s) eqn:Eg.
    + unfold loopGuard in Eg. apply andb_true_iff in Eg.
      destruct Eg as [_ Eg]. apply Z.leb_le in Eg.
      pose proof (negotiationStep_spec config service s H4) as Hs.
      pose proof (negotiationStep_trace s) as Ht.
      destruct (negotiationStep config service s) as [s'|s'|].
      * destruct Hs as [Hr H4']. destruct Ht as (_ & Hst & Hw).
        destruct (IH s' H4') as (s'' & Hd & K1 & K2 & K3 & K4 & K5);
          [congruence|lia|].
        exists s''. split; [exact Hd|]. split; [exact K1|].
        split; [congruence|]. split; [lia|]. split; [lia|exact K5].
      * destruct Hs as [H4' Hc]. destruct Ht as (Hr & H10 & Hw).
        exists s'. split; [reflexivity|]. split; [exact H4'|].
        split; [exact Hw|]. split; [lia|]. split; [lia|]. left. lia.
      * contradiction.
    + exists s. unfold loopGuard in Eg. rewrite Ha in Eg. simpl in Eg.
      apply Z.leb_gt in Eg.
      repeat split; try assumption; try lia.
Qed.

End SessionTrace.

Section SessionOutput.

Variable config : OrchestratorConfig.
Variable service : TextService.
Variable rng : Js.RandomSource.

Lemma broadcastCard_keeps (s : Session) (card : EventCard) :
  agentIds (broadcastCard s card) = agentIds s
  /\ weights (broadcastCard s card) = weights s
  /\ currentRound (context (broadcastCard s card)) = currentRound (context s).
Proof.
  unfold broadcastCard. cbv zeta.
  set (s1 := addLog s _).
  set (s2 := match findAgent _ _ with Some _ => _ | None => _ end).
  assert (H2 : agentIds s2 = agentIds s /\ weights s2 = weights s
               /\ currentRound (context s2) = currentRound (context s)).
  { unfold s2. destruct (findAgent _ _); [|repeat split].
    unfold agentIds, weights. simpl.
    rewrite updateAgentState_ids, updateAgentState_weights. repeat split. }
  clearbody s2. clear s1.
  revert s2 H2. induction (specialItems card) as [|x r IH]; intros s2 H2; simpl;
    [exact H2|].
  apply IH. exact H2.
Qed.

Lemma broadcastCards_keep (cards : list EventCard) (s : Session) :
  agentIds (fold_left broadcastCard cards s) = agentIds s
  /\ weights (fold_left broadcastCard cards s) = weights s
  /\ currentRound (context (fold_left broadcastCard cards s))
     = currentRound (context s).
Proof.
  revert s. induction cards as [|c r IH]; intros s; simpl; [repeat split|].
  destruct (IH (broadcastCard s c)) as (H1 & H2 & H3).
  destruct (broadcastCard_keeps s c) as (K1 & K2 & K3).
  repeat split; congruence.
Qed.

Lemma addLogs_keeps {T} (f : T -> CouncilLogEntry) (l : list T) (s : Session) :
  agentStates (context (fold_left (fun s x => addLog s (f x)) l s))
  = agentStates (context s)
  /\ currentRound (context (fold_left (fun s x => addLog s (f x)) l s))
     = currentRound (context s).
Proof.
  revert s. induction l as [|x r IH]; intros s; simpl; [repeat split|].
  destruct (IH (addLog s (f x))) as [H1 H2]. split; [exact H1|exact H2].
Qed.

Lemma session_output :
  exists (s1 : Session) (out : SessionOutput),
    runCouncilSession config service rng = Done out
    /\ agentIds s1 = ALL_AGENT_IDS
    /\ weights s1 = List.map (tokenAllocationToWeights (cfg_tokenAllocation config))
                             ALL_AGENT_IDS
    /\ 1 <= currentRound (context s1)
    /\ currentRound (context s1) <= Z.max 1 (maxRounds config + 1)
    /\ (10 <= currentRound (context s1)
        \/ maxRounds config < currentRound (context s1))
    /\ roundNumber out = currentRound (context s1)
    /\ List.map id (finalStates out) = ALL_AGENT_IDS
    /\ List.map currentWeight (finalStates out) = weights s1
    /\ resultCard out = settlementToResultCard (settlementReport out)
    /\ settlementReport out
       = reportOf {| collapseResults := collapseFromAgentStates (context s1);
                     in_trades := [];
                     in_agentStates := agentStates (context s1);
                     totalBudget := 1000;
                     luckModifier := None |} rng.
Proof.
  unfold runCouncilSession, runCouncilSessionWith.
  set (s0 := addLog (addLog (initialSession config) (systemLog None))
                    (systemLog None)).
  assert (H0 : agentIds s0 = ALL_AGENT_IDS) by reflexivity.
  assert (Ha : session_status s0 = SESSION_ACTIVE) by reflexivity.
  assert (Hf : maxRounds config - currentRound (context s0) + 1
               <= Z.of_nat (Z.to_nat (maxRounds config))).
  { change (currentRound (context s0)) with 1. lia. }
  destruct (negotiationLoop_trace config service _ s0 H0 Ha Hf)
    as (s1 & -> & H1 & Hw & Hlo & Hhi & Hten).
  change (currentRound (context s0)) with 1 in Hlo, Hhi.
  cbv zeta.
  set (s2 := addLog s1 (systemLog None)).
  change (collapseFromAgentStates (context s2))
    with (collapseFromAgentStates (context s1)).
  set (crs := collapseFromAgentStates (context s1)).
  destruct (addLogs_keeps (fun cr => systemLog (Some (cr_ownerAgent cr))) crs s2)
    as [Hs3 Hr3].
  set (s3 := fold_left _ crs s2) in *.
  change (agentStates (context s2)) with (agentStates (context s1)) in Hs3.
  change (currentRound (context s2)) with (currentRound (context s1)) in Hr3.
  rewrite Hs3.
  set (input := {| collapseResults := crs; in_trades := [];
                   in_agentStates := agentStates (context s1);
                   totalBudget := 1000; luckModifier := None |}).
  destruct (buildSettlementReport input rng) as [report rng'] eqn:Er.
  destruct (broadcastCards_keep (eventCards report) s3) as (B1 & B2 & B3).
  set (s4 := fold_left broadcastCard (eventCards report) s3) in *.
  exists s1. eexists. split; [reflexivity|].
  cbn [roundNumber finalStates resultCard settlementReport fst].
  split; [exact H1|]. split; [rewrite Hw; reflexivity|].
  split; [exact Hlo|]. split; [exact Hhi|]. split; [exact Hten|].
  split; [simpl; congruence|].
  split.
  { change (List.map id (agentStates (context (addLog s4 (systemLog None)))))
      with (agentIds s4).
    rewrite B1. unfold agentIds. rewrite Hs3. exact H1. }
  split.
  { change (List.map currentWeight
              (agentStates (context (addLog s4 (systemLog None)))))
      with (weights s4).
    rewrite B2. unfold weights. now rewrite Hs3. }
  split; [reflexivity|].
  change (report = fst (buildSettlementReport input rng)). now rewrite Er.
Qed.

End SessionOutput.



(** X14: [runCouncilSession] finishes for every configuration, text
    service and random source, at a round between
    [min 10 (maxRounds + 1)] and [max 1 (maxRounds + 1)], with the four
    agents in order and the weights of the token allocation. *)
Theorem session_round_bounds (config : OrchestratorConfig)
    (service : TextService) (rng : Js.RandomSource) :
  exists out,
    runCouncilSession config service rng = Done out
    /\ Z.min 10 (maxRounds config + 1) <= roundNumber out
    /\ roundNumber out <= Z.max 1 (maxRounds config + 1)
    /\ List.map id (finalStates out) = ALL_AGENT_IDS
    /\ List.map currentWeight (finalStates out)
       = List.map (tokenAllocationToWeights (cfg_tokenAllocation config))
                  ALL_AGENT_IDS.
Proof.
  destruct (session_output config service rng)
    as (s1 & out & Hrun & _ & Hw & Hlo & Hhi & Hten & Hr & Hid & Hfw & _).
  exists out. split; [exact Hrun|]. rewrite Hr.
  split; [lia|]. split; [exact Hhi|]. split; [exact Hid|congruence].
Qed.




(** ** Speakers and escrow (theater-engine.ts, schedule-engine.ts) *)

Section SpeakerMore.

Lemma includes_In (l : list AgentId) (a : AgentId) :
  includes l (Some a) = true <-> In a l.
Proof.
  unfold includes. rewrite existsb_exists. split.
  - intros (x & Hx & E). unfold AgentId_eqb in E.
    apply bool_decide_eq_true in E. now subst.
  - intros H. exists a. split; [exact H|].
    unfold AgentId_eqb. now apply bool_decide_eq_true.
Qed.

Lemma lastTwoAuthors_length (logs : list CouncilLogEntry) :
  (length (lastTwoAuthors logs) <= 2)%nat.
Proof.
  unfold lastTwoAuthors, Js.slice_last.
  assert (H : (length (skipn (length logs - 2) logs) <= 2)%nat).
  { rewrite length_skipn. lia. }
  revert H. generalize (skipn (length logs - 2) logs). intros l.
  intros H.
  assert (Ho : (length (omap agentId l) <= length l)%nat).
  { clear H. induction l as [|x r IH]; [simpl; lia|].
    change (omap agentId (x :: r))
      with (match agentId x with
            | Some y => y :: omap agentId r
            | None => omap agentId r
            end).
    destruct (agentId x); simpl length; lia. }
  lia.
Qed.

Lemma two_members (l : list AgentId) (a b : AgentId) :
  (length l <= 2)%nat -> a <> b -> In a l -> In b l ->
  l = [a; b] \/ l = [b; a].
Proof.
  intros Hl Hab Ha Hb.
  destruct l as [|x [|y [|z r]]]; simpl in *; try lia; try tauto.
  - destruct Ha as [->|[]], Hb as [->|[]]. congruence.
  - destruct Ha as [->|[->|[]]], Hb as [->|[->|[]]]; try congruence;
      [now left|now right].
Qed.

(** X16: for every tick that is not negative [selectSpeakerForTick]
    returns a speaker, and one of the last two authors only on the
    rotation path, when the base agent is the other of the two. *)
Theorem speaker_repeats_only_after_neighbours (n : nat) (agents : list AgentState)
    (logs : list CouncilLogEntry) :
  let sel := selectSpeakerForTick (Z.of_nat n) agents logs in
  exists a,
    speaker sel = Some a
    /\ (In a (lastTwoAuthors logs) ->
        exists b, b <> a
          /\ allIds_at (Z.rem (Z.of_nat n) 4) = Some b
          /\ (lastTwoAuthors logs = [b; a] \/ lastTwoAuthors logs = [a; b])
          /\ reason sel = Rotation).
Proof.
  intros sel.
  pose proof (rotation_repeats_only_after_two (Z.of_nat n) agents logs) as Hrot.
  cbv zeta in Hrot. fold sel in Hrot.
  assert (Hrem : 0 <= Z.rem (Z.of_nat n) 4 < 4).
  { apply Z.rem_bound_pos; lia. }
  assert (Hsome : exists a, speaker sel = Some a).
  { clear Hrot. unfold sel, selectSpeakerForTick. cbv zeta.
    change (Z.of_nat (length allIds)) with 4.
    set (r := Z.rem (Z.of_nat n) 4) in *.
    assert (Hb : exists x, allIds_at r = Some x).
    { assert (E : r = 0 \/ r = 1 \/ r = 2 \/ r = 3) by lia.
      destruct E as [E|[E|[E|E]]]; rewrite E; eexists; reflexivity. }
    assert (Hn : exists x, allIds_at (Z.rem (r + 1) 4) = Some x).
    { assert (E : r = 0 \/ r = 1 \/ r = 2 \/ r = 3) by lia.
      destruct E as [E|[E|[E|E]]]; rewrite E; eexists; reflexivity. }
    destruct Hb as [xb Hb]. destruct Hn as [xn Hn].
    assert (Hs1 : exists x,
      (if includes (omap agentId (Js.slice_last 2 logs)) (allIds_at r)
       then allIds_at (Z.rem (r + 1) 4) else allIds_at r) = Some x).
    { destruct (includes (omap agentId (Js.slice_last 2 logs)) (allIds_at r));
        eauto. }
    destruct Hs1 as [x1 Hs1]. rewrite Hs1.
    destruct (Z.rem (Z.of_nat n) 7 =? 0); [|eauto].
    destruct (_ && _); [|eauto].
    destruct (Js.find _ _); eauto. }
  destruct Hsome as [a Ha]. exists a. split; [exact Ha|].
  intros Hin. rewrite Ha in Hrot.
  apply includes_In in Hin. destruct (Hrot Hin) as (Hb & Hn & Hsel).
  rewrite Hsel in Ha. cbn [speaker] in Ha.
  rewrite Hsel. cbn [reason].
  set (r := Z.rem (Z.of_nat n) 4) in *.
  assert (E : r = 0 \/ r = 1 \/ r = 2 \/ r = 3) by lia.
  assert (Hpair : exists b, allIds_at r = Some b /\ b <> a).
  { destruct E as [E|[E|[E|E]]]; rewrite E in Ha |- *; cbn in Ha;
      injection Ha as <-; eexists; (split; [reflexivity|discriminate]). }
  destruct Hpair as (b & Hbb & Hne). exists b.
  split; [exact Hne|]. split; [exact Hbb|]. split; [|reflexivity].
  rewrite Hbb in Hb. apply includes_In in Hb.
  apply includes_In in Hin.
  apply two_members; [apply lastTwoAuthors_length|exact Hne|exact Hb|exact Hin].
Qed.

End SpeakerMore.

Section EscrowMore.

Lemma freezeEscrow_idempotent_lemma (blocks : list ScheduleBlock) :
  freezeEscrow (freezeEscrow blocks) = freezeEscrow blocks.
Proof.
  unfold freezeEscrow. rewrite List.map_map. apply List.map_ext.
  intros b. destruct (escrowState b) as [[]|]; reflexivity.
Qed.

(** X17: [freezeEscrow] is idempotent, leaves every block FROZEN, RELEASED
    or BURNED, and changes no field but the escrow state. *)
Theorem freezeEscrow_confirms (blocks : list ScheduleBlock) :
  freezeEscrow (freezeEscrow blocks) = freezeEscrow blocks
  /\ Forall (fun b => escrowState b = Some FROZEN
                      \/ escrowState b = Some RELEASED
                      \/ escrowState b = Some BURNED) (freezeEscrow blocks)
  /\ List.map escrowState (freezeEscrow blocks)
     = List.map (fun b => match escrowState b with
                          | Some RELEASED => Some RELEASED
                          | Some BURNED => Some BURNED
                          | _ => Some FROZEN
                          end) blocks
  /\ List.map (fun b => (block_id b, category b, taskName b, tokenCost b,
                         modelTier b, isDeadline b, isLocked b, ownerAgent b,
                         finalGrade b)) (freezeEscrow blocks)
     = List.map (fun b => (block_id b, category b, taskName b, tokenCost b,
                           modelTier b, isDeadline b, isLocked b, ownerAgent b,
                           finalGrade b)) blocks.
Proof.
  split; [apply freezeEscrow_idempotent_lemma|]. split; [|split].
  - unfold freezeEscrow. apply List.Forall_forall. intros b Hb.
    apply in_map_iff in Hb. destruct Hb as (b0 & <- & _).
    destruct (escrowState b0) as [[]|]; simpl; tauto.
  - unfold freezeEscrow. rewrite List.map_map. apply List.map_ext.
    intros b. destruct (escrowState b) as [[]|]; reflexivity.
  - unfold freezeEscrow. rewrite List.map_map. reflexivity.
Qed.

End EscrowMore.

(** ** Votes, vetoes, bottom lines and replies (negotiation-engine.ts, orchestrator.ts, agents.ts) *)

Section Votes.

Lemma calculateAgentVote_not_veto (agent : AgentState) (delta : ResourceDelta)
    (tw : Q) :
  vote (calculateAgentVote agent delta tw) <> Vote.VETO.
Proof.
  unfold calculateAgentVote. cbv zeta.
  destruct (nan_gtb _ 0); [discriminate|].
  destruct (nan_ltb _ _); [discriminate|].
  destruct (Js.gtb _ 60); [discriminate|].
  destruct (Js.ltb _ 30); discriminate.
Qed.

(** X18: [calculateAgentVote] never casts a VETO, so the tally of
    calculated votes is never VETOED; a gain of the primary resource is
    an APPROVE at full weight; a vote weighs at most
    [currentWeight * templateWeight]. *)
Theorem calculated_votes_never_vetoed (agents : list AgentState)
    (delta : ResourceDelta) (templateWeight : Q) (pid : string) :
  let votes :=
    List.map (fun a => (id a, calculateAgentVote a delta templateWeight)) agents in
  result (tallyVotes votes pid) <> VETOED
  /\ vetoAgent (tallyVotes votes pid) = None
  /\ Forall (fun a =>
       let v := calculateAgentVote a delta templateWeight in
       (nan_gtb (numericDelta delta (AGENT_DEFINITIONS_primaryResource (id a))) 0
        = true ->
        v = {| vote := Vote.APPROVE;
               weight := (currentWeight a * templateWeight)%Q |})
       /\ ((0 <= currentWeight a * templateWeight)%Q ->
           (0 <= weight v /\ weight v <= currentWeight a * templateWeight)%Q))
     agents.
Proof.
  intros votes.
  assert (Hnone : vetoAgent (tallyVotes votes pid) = None).
  { unfold tallyVotes. cbn [vetoAgent].
    destruct (ts_vetoAgent _) as [x|] eqn:E; [|reflexivity].
    exfalso.
    assert (Hs : is_Some (ts_vetoAgent (fold_left tallyStep votes
                   {| ts_approvalScore := num_zero; ts_totalWeight := num_zero;
                      ts_vetoAgent := None |}))) by (rewrite E; eauto).
    apply tally_veto in Hs; [|reflexivity].
    unfold anyVeto in Hs. apply existsb_exists in Hs.
    destruct Hs as (e & He & Hv). unfold votes in He.
    apply in_map_iff in He. destruct He as (a & <- & _).
    cbn [snd] in Hv. apply bool_decide_eq_true in Hv.
    now apply calculateAgentVote_not_veto in Hv. }
  split; [|split; [exact Hnone|]].
  - unfold tallyVotes in *. cbn [vetoAgent result] in *. rewrite Hnone.
    destruct (num_gtb _ _); [discriminate|]. destruct (num_ltb _ _); discriminate.
  - apply List.Forall_forall. intros a _. cbv zeta. split.
    + intros H. unfold calculateAgentVote. cbv zeta. now rewrite H.
    + intros Hw. unfold calculateAgentVote. cbv zeta.
      generalize dependent (currentWeight a * templateWeight)%Q. intros w Hw.
      destruct (nan_gtb _ 0); [cbn; split; lra|].
      destruct (nan_ltb _ _); [cbn; split; lra|].
      destruct (Js.gtb _ 60); [cbn; split; lra|].
      destruct (Js.ltb _ 30); cbn; split; lra.
Qed.

End Votes.

Section BottomLines.

Variable sbl : SystemBottomLine.
Variable ctx : CouncilContext.

Ltac case_if :=
  match goal with |- context [if ?b then _ else _] => destruct b eqn:? end.

Lemma critical_wellGuarded (r : ViolationResource) (cv th : Q) (g : AgentId) :
  AGENT_DEFINITIONS_hasVetoPower g = true ->
  wellGuarded {| bl_type := SBL; bl_resource := r; currentValue := cv;
                 threshold := th; severity := CRITICAL; guardianAgent := g |}.
Proof.
  intros Hg. unfold wellGuarded. cbn.
  split; [exact Hg|]. split; [tauto|discriminate].
Qed.

(** X19: [checkBottomLines] passes exactly without violations, lists at
    most 4, each with a guardian that has veto power, CRITICAL exactly
    for the system bottom lines; it passes for an empty agent list. *)
Theorem checkBottomLines_spec :
  (passed (checkBottomLines sbl ctx) = true
   <-> violations (checkBottomLines sbl ctx) = [])
  /\ (length (violations (checkBottomLines sbl ctx)) <= 4)%nat
  /\ Forall wellGuarded (violations (checkBottomLines sbl ctx))
  /\ (agentStates ctx = [] -> passed (checkBottomLines sbl ctx) = true).
Proof.
  unfold checkBottomLines. cbv zeta. cbn [passed violations].
  set (sleep := if _ && _ then _ else _).
  set (hp := if _ && _ then [_] else _).
  set (soc := if _ && _ then [_] else _).
  set (wlth := if Js.leb _ 0 then _ else _).
  assert (H1 : (length sleep <= 1)%nat /\ Forall wellGuarded sleep).
  { unfold sleep. case_if; simpl; (split; [lia|]); [|constructor].
    constructor; [|constructor]. now apply critical_wellGuarded. }
  assert (H2 : (length hp <= 1)%nat /\ Forall wellGuarded hp).
  { unfold hp. case_if; simpl; (split; [lia|]); [|constructor].
    constructor; [|constructor]. now apply critical_wellGuarded. }
  assert (H3 : (length soc <= 1)%nat /\ Forall wellGuarded soc).
  { unfold soc. case_if; simpl; (split; [lia|]); [|constructor].
    constructor; [|constructor]. now apply critical_wellGuarded. }
  assert (H4 : (length wlth <= 1)%nat /\ Forall wellGuarded wlth).
  { unfold wlth. case_if.
    - simpl. split; [lia|]. constructor; [|constructor].
      now apply critical_wellGuarded.
    - destruct (_ <? 60) eqn:E.
      + apply Z.ltb_lt in E. simpl. split; [lia|].
        constructor; [|constructor]. unfold wellGuarded. cbn.
        split; [reflexivity|]. split; [split; discriminate|].
        intros _. split; [reflexivity|].
        rewrite <- (Zlt_Qlt _ 60). exact E.
      + simpl. split; [lia|constructor]. }
  destruct H1 as [L1 F1], H2 as [L2 F2], H3 as [L3 F3], H4 as [L4 F4].
  split; [|split; [|split]].
  - rewrite Nat.eqb_eq. destruct (sleep ++ hp ++ soc ++ wlth); simpl; split;
      try reflexivity; try discriminate; lia.
  - rewrite !length_app. lia.
  - repeat (apply Forall_app; split); assumption.
  - intros He. unfold sleep, hp, soc, wlth. rewrite He. reflexivity.
Qed.

End BottomLines.

Section Veto.

Variable sbl : SystemBottomLine.

Lemma findAgent_spec (a : AgentId) (l : list AgentState) (state : AgentState) :
  findAgent a l = Some state -> In state l /\ id state = a.
Proof.
  unfold findAgent, Js.find. intros H. apply find_some in H.
  destruct H as [Hin Hid]. split; [exact Hin|].
  unfold AgentId_eqb in Hid. now apply bool_decide_eq_true in Hid.
Qed.

Lemma findAgent_map (f : AgentState -> AgentState) (a : AgentId)
    (l : list AgentState) :
  (forall x, id (f x) = id x) ->
  findAgent a (List.map f l) = option_map f (findAgent a l).
Proof.
  intros Hf. unfold findAgent, Js.find.
  induction l as [|x r IH]; simpl; [reflexivity|].
  rewrite Hf. destruct (AgentId_eqb (id x) a); [reflexivity|exact IH].
Qed.

(** X20: [checkVetoPower] grants a veto only to a listed agent with veto
    power and at least 15 influence, at cost 15; [executeVeto] then
    lowers the influence by 15, sets the status VETOING and keeps the
    rest. *)
Theorem veto_needs_power_and_influence (agentId : AgentId)
    (ctx : CouncilContext) (delta : ResourceDelta) :
  canVeto (checkVetoPower agentId sbl ctx delta) = true ->
  AGENT_DEFINITIONS_hasVetoPower agentId = true
  /\ influenceCost (checkVetoPower agentId sbl ctx delta) = 15%Q
  /\ exists state state',
       findAgent agentId (agentStates ctx) = Some state
       /\ (15 <= influence state)%Q
       /\ findAgent agentId
            (executeVeto agentId (agentStates ctx)
               (influenceCost (checkVetoPower agentId sbl ctx delta)))
          = Some state'
       /\ (influence state' == influence state - 15)%Q
       /\ status state' = VETOING
       /\ (id state', currentWeight state', resourceInventory state',
           satisfaction state')
          = (id state, currentWeight state, resourceInventory state,
             satisfaction state).
Proof.
  unfold checkVetoPower.
  destruct (AGENT_DEFINITIONS_hasVetoPower agentId) eqn:Ep; [|discriminate].
  destruct (findAgent agentId (agentStates ctx)) as [state|] eqn:Ef;
    [|discriminate].
  cbv zeta. destruct (Js.ltb (influence state) 15) eqn:Ei; [discriminate|].
  apply ltb_ge in Ei. intros Hc.
  match goal with
  | |- _ /\ influenceCost ?c = _ /\ _ =>
      assert (Hcost : influenceCost c = 15%Q)
  end.
  { destruct (if AgentId_eqb agentId ISFJ then _ else _);
      [reflexivity|].
    destruct (if AgentId_eqb agentId INFJ then _ else _); reflexivity. }
  split; [reflexivity|]. split; [exact Hcost|].
  rewrite Hcost. unfold executeVeto.
  rewrite (findAgent_map _ agentId (agentStates ctx)).
  - rewrite Ef. cbn [option_map].
    destruct (findAgent_spec _ _ _ Ef) as [_ Hid].
    unfold AgentId_eqb. rewrite bool_decide_eq_true_2 by exact Hid.
    exists state. eexists. split; [reflexivity|]. split; [exact Ei|].
    split; [reflexivity|]. cbn.
    split; [|split; reflexivity].
    unfold Js.max. destruct (Js.ltb 0 (influence state - 15)) eqn:E;
      [reflexivity|]. apply ltb_ge in E. lra.
  - intros x. destruct (AgentId_eqb (id x) agentId); reflexivity.
Qed.

End Veto.

Lemma veto_needs_power_and_influence_witness :
  canVeto (checkVetoPower ISFJ SYSTEM_BOTTOM_LINE (contextOf createAllAgentStates)
             harmfulProposal) = true
  /\ AGENT_DEFINITIONS_hasVetoPower ISFJ = true
  /\ influenceCost
       (checkVetoPower ISFJ SYSTEM_BOTTOM_LINE (contextOf createAllAgentStates)
          harmfulProposal) = 15%Q
  /\ exists state state',
       findAgent ISFJ (agentStates (contextOf createAllAgentStates)) = Some state
       /\ (15 <= influence state)%Q
       /\ findAgent ISFJ
            (executeVeto ISFJ (agentStates (contextOf createAllAgentStates))
               (influenceCost
                  (checkVetoPower ISFJ SYSTEM_BOTTOM_LINE
                     (contextOf createAllAgentStates) harmfulProposal)))
          = Some state'
       /\ (influence state' == influence state - 15)%Q
       /\ status state' = VETOING
       /\ (id state', currentWeight state', resourceInventory state',
           satisfaction state')
          = (id state, currentWeight state, resourceInventory state,
             satisfaction state).
Proof.
  assert (H : canVeto
    (checkVetoPower ISFJ SYSTEM_BOTTOM_LINE (contextOf createAllAgentStates)
       harmfulProposal) = true) by reflexivity.
  split; [exact H|].
  exact (veto_needs_power_and_influence SYSTEM_BOTTOM_LINE ISFJ
           (contextOf createAllAgentStates) harmfulProposal H).
Defined.

Section SortHead.

Context {A : Type}.
Variable key : A -> Q.

(** The head of a descending sort on [key] is a maximum. *)
Lemma sort_desc_head (l : list A) (h : A) (t : list A) :
  Js.sort (fun a b => (key b - key a)%Q) l = h :: t ->
  In h l /\ forall y, In y l -> (key y <= key h)%Q.
Proof.
  revert h t. induction l as [|x r IH]; intros h t H; [discriminate|].
  simpl in H.
  destruct (Js.sort (fun a b => (key b - key a)%Q) r) as [|h' t'] eqn:Es.
  - simpl in H. injection H as <- <-.
    assert (r = []).
    { pose proof (sort_perm (fun a b => (key b - key a)%Q) r) as Hp.
      rewrite Es in Hp. now apply Permutation_sym, Permutation_nil in Hp. }
    subst r. split; [now left|]. intros y [->|[]]. lra.
  - destruct (IH h' t' eq_refl) as [Hin Hmax].
    simpl in H. destruct (Js.leb (key h' - key x) 0) eqn:El.
    + injection H as <- <-. apply leb_le in El.
      split; [now left|]. intros y [->|Hy]; [lra|].
      specialize (Hmax y Hy). lra.
    + injection H as <- _.
      assert (Hlt : (key x < key h')%Q).
      { destruct (Qlt_le_dec (key x) (key h')) as [?|Hle]; [assumption|].
        assert (Js.leb (key h' - key x) 0 = true) by (apply leb_le; lra).
        congruence. }
      split; [now right|]. intros y [->|Hy]; [lra|]. now apply Hmax.
Qed.

End SortHead.

(** X21: [electChair] returns an agent of the list with the largest
    weight, and fails exactly on the empty list. *)
Theorem electChair_is_heaviest (agents : list AgentState) :
  match electChair agents with
  | Some chair =>
      exists state, In state agents /\ id state = chair
        /\ forall a, In a agents -> (currentWeight a <= currentWeight state)%Q
  | None => agents = []
  end.
Proof.
  unfold electChair.
  destruct (Js.sort _ agents) as [|h t] eqn:Es.
  - pose proof (sort_perm (fun a b => (currentWeight b - currentWeight a)%Q) agents)
      as Hp.
    rewrite Es in Hp. now apply Permutation_sym, Permutation_nil in Hp.
  - destruct (sort_desc_head currentWeight agents h t Es) as [Hin Hmax].
    exists h. split; [exact Hin|]. split; [reflexivity|exact Hmax].
Qed.

Section AutoTrade.

Lemma suggestionFor_sound (agentStates : list AgentState) (agent : AgentState) :
  In agent agentStates ->
  Forall (soundSuggestion agentStates) (suggestionFor agentStates agent)
  /\ (length (suggestionFor agentStates agent) <= 1)%nat.
Proof.
  intros Hagent. unfold suggestionFor. cbv zeta.
  destruct (Js.ltb _ 30) eqn:Ep; [|split; [constructor|simpl; lia]].
  apply ltb_lt in Ep.
  destruct (Js.sort _ _) as [|rich t] eqn:Es; [split; [constructor|simpl; lia]|].
  destruct (Js.gtb _ 60) eqn:Er; [|split; [constructor|simpl; lia]].
  apply gtb_gt in Er.
  destruct (sort_desc_head
              (fun a => inventoryAt (resourceInventory a)
                          (AGENT_DEFINITIONS_primaryResource (id agent)))
              _ rich t Es) as [Hin Hmax].
  apply filter_In in Hin. destruct Hin as [Hin Hne].
  apply negb_true_iff in Hne. unfold AgentId_eqb in Hne.
  apply bool_decide_eq_false in Hne.
  split; [|simpl; lia]. constructor; [|constructor].
  unfold soundSuggestion. cbn [ats_sourceAgent ats_targetAgent ats_demand
                               ats_offer].
  split; [congruence|]. exists agent, rich.
  split; [exact Hagent|]. split; [exact Hin|].
  split; [reflexivity|]. split; [reflexivity|]. cbv zeta.
  split; [exact Ep|]. split; [exact Er|]. split; [|split; reflexivity].
  intros other Ho Hid. apply Hmax. apply filter_In. split; [exact Ho|].
  apply negb_true_iff. unfold AgentId_eqb. now apply bool_decide_eq_false.
Qed.

(** X22: every suggestion of [detectAutoTradeOpportunity] pairs an agent
    short of its primary resource (below 30) with a different agent that
    holds the most of it (above 60), demanding 15 and offering 10; the
    loop pushes at most one suggestion for each agent, with that agent
    as source. *)
Theorem detectAutoTradeOpportunity_sound (agentStates : list AgentState) :
  Forall (soundSuggestion agentStates) (detectAutoTradeOpportunity agentStates)
  /\ (length (detectAutoTradeOpportunity agentStates) <= length agentStates)%nat
  /\ Forall (fun agent =>
               (length (suggestionFor agentStates agent) <= 1)%nat
               /\ Forall (fun t => ats_sourceAgent t = id agent)
                         (suggestionFor agentStates agent))
            agentStates.
Proof.
  assert (Hper : Forall (fun agent =>
                   (length (suggestionFor agentStates agent) <= 1)%nat
                   /\ Forall (fun t => ats_sourceAgent t = id agent)
                             (suggestionFor agentStates agent))
                 agentStates).
  { apply List.Forall_forall. intros agent Hagent.
    split; [apply (suggestionFor_sound agentStates agent Hagent)|].
    unfold suggestionFor. cbv zeta.
    destruct (Js.ltb _ 30); [|constructor].
    destruct (Js.sort _ _) as [|rich t]; [constructor|].
    destruct (Js.gtb _ 60); [|constructor].
    constructor; [reflexivity|constructor]. }
  unfold detectAutoTradeOpportunity.
  assert (Hgen : forall l, (forall a, In a l -> In a agentStates) ->
            Forall (soundSuggestion agentStates)
                   (List.flat_map (suggestionFor agentStates) l)
            /\ (length (List.flat_map (suggestionFor agentStates) l)
                <= length l)%nat).
  { induction l as [|x r IH]; intros Hl; simpl; [split; [constructor|lia]|].
    destruct (suggestionFor_sound agentStates x (Hl x (or_introl eq_refl)))
      as [F1 L1].
    destruct (IH (fun a Ha => Hl a (or_intror Ha))) as [F2 L2].
    split; [apply Forall_app; split; assumption|].
    rewrite length_app. lia. }
  destruct (Hgen agentStates ltac:(auto)) as [F L].
  split; [exact F|]. split; [exact L|exact Hper].
Qed.

End AutoTrade.

Section Resources.

Lemma max0_nonneg (x : Q) : (0 <= Js.max 0 x)%Q.
Proof. apply max_ge_l. Qed.


Lemma max0_id (x : Q) : (0 <= x)%Q -> (Js.max 0 x == x)%Q.
Proof.
  intros H. unfold Js.max. destruct (Js.ltb 0 x) eqn:E; [reflexivity|].
  apply ltb_ge in E. lra.
Qed.

Lemma applyResourceDelta_nonNegative (inventory : ResourceInventory)
    (delta : ResourceDelta) :
  nonNegative inventory -> nonNegative (applyResourceDelta inventory delta).
Proof.
  intros (H1 & H2 & H3 & H4). unfold nonNegative, applyResourceDelta. cbn.
  repeat split;
    match goal with
    | |- context [match ?d with Some _ => _ | None => _ end] =>
        destruct d as [v|]; [|assumption];
        destruct (numericVal v); [apply max0_nonneg|assumption]
    end.
Qed.

(** X23: [applyResourceDelta] sets a resource with a numeric delta to
    [max 0 (old + delta)] and leaves the others untouched; an inventory
    that is not negative stays so. *)
Theorem applyResourceDelta_spec (inventory : ResourceInventory)
    (delta : ResourceDelta) (c : ResourceCode) :
  match mbind numericVal (deltaAt delta c) with
  | Some n =>
      (inventoryAt (applyResourceDelta inventory delta) c
       == Qmax 0 (inventoryAt inventory c + n))%Q
  | None =>
      inventoryAt (applyResourceDelta inventory delta) c = inventoryAt inventory c
  end
  /\ (nonNegative inventory -> nonNegative (applyResourceDelta inventory delta)).
Proof.
  split; [|apply applyResourceDelta_nonNegative].
  destruct c; cbn;
    match goal with
    | |- context [match ?d with Some _ => _ | None => _ end] =>
        destruct d as [v|]; cbn; [|reflexivity];
        destruct (numericVal v); cbn; [apply max_spec|reflexivity]
    end.
Qed.

Lemma applyCardDelta_is_applyResourceDelta (inv : ResourceInventory)
    (c : StatChanges) :
  applyCardDelta inv c
  = applyResourceDelta inv
      {| delta_TIME := None;
         delta_HP := Some (DeltaNumber (inject_Z (sanity c)));
         delta_SOC := Some (DeltaNumber (inject_Z (social c)));
         delta_WLTH := Some (DeltaNumber (inject_Z (wealth c))) |}.
Proof. reflexivity. Qed.

End Resources.

Section Turn.

Lemma turnStep_refl (s : Session) : turnStep s s.
Proof.
  split; [exists []; reflexivity|]. split; [reflexivity|].
  split; [auto|]. split; [auto|]. exists [].
  split; [now rewrite app_nil_r|constructor].
Qed.

Lemma turnStep_trans (s1 s2 s3 : Session) :
  turnStep s1 s2 -> turnStep s2 s3 -> turnStep s1 s3.
Proof.
  intros ([e1 H1] & A1 & B1 & C1 & (l1 & D1 & V1))
         ([e2 H2] & A2 & B2 & C2 & (l2 & D2 & V2)).
  split; [exists (e1 ++ e2); now rewrite fold_left_app, <- H1|].
  split; [congruence|]. split; [auto|]. split; [auto|].
  exists (l1 ++ l2). split; [now rewrite D2, D1, app_assoc|].
  apply Forall_app. now split.
Qed.

Lemma turnStep_addLog (s : Session) (entry : CouncilLogEntry) :
  log_type entry <> LogType.VETO -> turnStep s (addLog s entry).
Proof.
  intros Hv.
  split; [exists [EffLog entry]; reflexivity|]. split; [reflexivity|].
  split; [auto|]. split; [auto|]. exists [entry].
  split; [reflexivity|]. now constructor.
Qed.

Lemma turnStep_log (s0 s : Session) (entry : CouncilLogEntry) :
  log_type entry <> LogType.VETO ->
  turnStep s0 s -> turnStep s0 (addLog s entry).
Proof.
  intros Hv H. eapply turnStep_trans; [exact H|now apply turnStep_addLog].
Qed.

(** An update whose values are in range whenever the agents were when the
    turn started. *)
Lemma turnStep_update (s0 s : Session) (a : AgentId) (u : AgentUpdate) :
  turnStep s0 s ->
  (forall x, upd_satisfaction u = Some x ->
             Forall satisfactionInRange (agentStates (context s0)) ->
             (0 <= x /\ x <= 100)%Q) ->
  (forall inv, upd_resourceInventory u = Some inv ->
               Forall resourcesNonNegative (agentStates (context s0)) ->
               nonNegative inv) ->
  turnStep s0 (sessionUpdateAgent s a u).
Proof.
  intros ([e He] & A & B & C & (l & D & V)) Hsat Hinv.
  split; [exists (e ++ [EffUpdate a u]); now rewrite fold_left_app, <- He|].
  cbn.
  split; [|split; [|split; [|exists l; split; [exact D|exact V]]]].
  - rewrite <- A. unfold updateAgentState. rewrite List.map_map.
    apply List.map_ext.
    intros x. destruct (AgentId_eqb (id x) a); reflexivity.
  - intros H. specialize (B H). unfold updateAgentState.
    apply List.Forall_forall.
    intros y Hy. apply in_map_iff in Hy. destruct Hy as (x & <- & Hx).
    pose proof (proj1 (List.Forall_forall _ _) B x Hx) as Hok.
    destruct (AgentId_eqb (id x) a); [|exact Hok].
    unfold satisfactionInRange, applyUpdate. cbn.
    destruct (upd_satisfaction u) as [v|] eqn:E; cbn; [|exact Hok].
    now apply Hsat.
  - intros H. specialize (C H). unfold updateAgentState.
    apply List.Forall_forall.
    intros y Hy. apply in_map_iff in Hy. destruct Hy as (x & <- & Hx).
    pose proof (proj1 (List.Forall_forall _ _) C x Hx) as Hok.
    destruct (AgentId_eqb (id x) a); [|exact Hok].
    unfold resourcesNonNegative, applyUpdate. cbn.
    destruct (upd_resourceInventory u) as [v|] eqn:E; cbn; [|exact Hok].
    now apply Hinv.
Qed.

Lemma found_in_range (s0 s : Session) (a : AgentId) (state : AgentState) :
  turnStep s0 s ->
  findAgent a (agentStates (context s)) = Some state ->
  Forall satisfactionInRange (agentStates (context s0)) ->
  satisfactionInRange state.
Proof.
  intros (_ & _ & B & _) Hf H. apply findAgent_spec in Hf.
  destruct Hf as [Hin _].
  exact (proj1 (List.Forall_forall _ _) (B H) state Hin).
Qed.

Lemma found_nonNegative (s0 s : Session) (a : AgentId) (state : AgentState) :
  turnStep s0 s ->
  findAgent a (agentStates (context s)) = Some state ->
  Forall resourcesNonNegative (agentStates (context s0)) ->
  nonNegative (resourceInventory state).
Proof.
  intros (_ & _ & _ & C & _) Hf H. apply findAgent_spec in Hf.
  destruct Hf as [Hin _].
  exact (proj1 (List.Forall_forall _ _) (C H) state Hin).
Qed.

Lemma lowered_in_range (x d : Q) :
  (0 <= d)%Q -> (0 <= x /\ x <= 100)%Q ->
  (0 <= Js.max 0 (x - d) /\ Js.max 0 (x - d) <= 100)%Q.
Proof.
  intros Hd [H0 H1]. split; [apply max0_nonneg|].
  unfold Js.max. destruct (Js.ltb 0 (x - d)); lra.
Qed.

Lemma clamped_in_range (x : Q) :
  (0 <= Js.max 0 (Js.min 100 x) /\ Js.max 0 (Js.min 100 x) <= 100)%Q.
Proof.
  split; [apply max0_nonneg|].
  unfold Js.max, Js.min.
  destruct (Js.ltb x 100) eqn:E1.
  - apply ltb_lt in E1. destruct (Js.ltb 0 x); lra.
  - destruct (Js.ltb 0 100); lra.
Qed.

Lemma turnStep_inventory (s0 s s1 : Session) (a b : AgentId) (state : AgentState)
    (delta : ResourceDelta) :
  turnStep s0 s1 -> turnStep s0 s ->
  findAgent b (agentStates (context s1)) = Some state ->
  turnStep s0 (sessionUpdateAgent s a
                 (inventoryUpdate (applyResourceDelta (resourceInventory state) delta))).
Proof.
  intros H1 H Hf. apply turnStep_update; [exact H| |]; cbn.
  - discriminate.
  - intros inv E H0. injection E as <-.
    apply applyResourceDelta_nonNegative.
    exact (found_nonNegative s0 s1 b state H1 Hf H0).
Qed.

Lemma applyTrade_step (s0 s : Session) (source target : AgentId)
    (delta : ResourceDelta) :
  turnStep s0 s -> turnStep s0 (applyTrade s source target delta).
Proof.
  intros H. unfold applyTrade.
  destruct (findAgent source _) as [srcState|] eqn:Es; [|exact H].
  destruct (findAgent target _) as [tgtState|] eqn:Et; [|exact H].
  cbv zeta.
  apply (turnStep_inventory s0 _ s target target tgtState delta);
    [exact H| |exact Et].
  apply (turnStep_inventory s0 s s source source srcState _); assumption.
Qed.

Ltac log_step := apply turnStep_log; [discriminate|].

Lemma processAgentOutput_step (s0 s : Session) (speaker : AgentId)
    (output : DualChannelOutput) (narration : bool) :
  turnStep s0 s -> turnStep s0 (processAgentOutput s speaker output narration).
Proof.
  intros H. unfold processAgentOutput. cbv zeta.
  destruct (negb (isValidNegotiation _ _)).
  - assert (H1 : turnStep s0 (addLog s (systemLog None))) by (log_step; exact H).
    destruct (findAgent speaker _) as [cur|] eqn:Ef; [|exact H1].
    apply turnStep_update; [exact H1| |discriminate]. cbn.
    intros x E H0. injection E as <-.
    apply lowered_in_range; [lra|].
    exact (found_in_range s0 _ speaker cur H1 Ef H0).
  - set (s1 := match intent (internal_state output) with
               | Intent.trade => _ | _ => _ end).
    assert (H1 : turnStep s0 s1).
    { unfold s1. destruct (intent (internal_state output)).
      - destruct (resource_delta _) as [delta|]; [|exact H].
        destruct (target_agent _) as [target|]; [|exact H].
        log_step. now apply applyTrade_step.
      - log_step. exact H.
      - destruct (target_agent _); [log_step|]; exact H.
      - assert (Hl : turnStep s0 (addLog s (logOf speaker LogType.PROPOSAL None)))
          by (log_step; exact H).
        destruct narration; [log_step|]; exact Hl.
      - log_step. exact H.
      - log_step. exact H.
      - assert (Hl : turnStep s0 (addLog s (logOf speaker LogType.PROPOSAL None)))
          by (log_step; exact H).
        destruct (resource_delta _) as [delta|]; [|exact Hl].
        destruct (findAgent speaker _) as [state|] eqn:Ef; [|exact Hl].
        now apply (turnStep_inventory s0 _ _ speaker speaker state _ Hl Hl).
      - assert (Hl : turnStep s0
                       (addLog s (logOf speaker LogType.COUNTER
                                    (target_agent (internal_state output)))))
          by (log_step; exact H).
        destruct (target_agent _) as [target|]; [|exact Hl].
        destruct (findAgent target _) as [tst|] eqn:Ef; [|exact Hl].
        apply turnStep_update; [exact Hl| |discriminate]. cbn.
        intros x E H0. injection E as <-.
        apply lowered_in_range; [lra|].
        exact (found_in_range s0 _ target tst Hl Ef H0). }
    clearbody s1.
    destruct (findAgent speaker _) as [cur|] eqn:Ef; [|exact H1].
    apply turnStep_update; [exact H1| |discriminate]. cbn.
    intros x E _. injection E as <-. apply clamped_in_range.
Qed.

Lemma processReply_step (s : Session) (speaker : AgentId)
    (parsed : option DualChannelOutput) (narration : bool) :
  turnStep s (processReply s speaker parsed narration).
Proof.
  unfold processReply. cbv zeta.
  set (s1 := match parsed with Some _ => _ | None => _ end).
  assert (H1 : turnStep s s1).
  { unfold s1. destruct parsed.
    - apply processAgentOutput_step, turnStep_refl.
    - apply turnStep_addLog. discriminate. }
  clearbody s1.
  set (s2 := if Z.rem (currentRound (context s1)) 5 =? 0 then _ else _).
  assert (H2 : turnStep s s2).
  { unfold s2. destruct (_ =? 0); [|exact H1].
    destruct (detectAutoTradeOpportunity _) as [|t r]; [exact H1|].
    log_step. now apply applyTrade_step. }
  clearbody s2.
  destruct (_ =? 0); [|exact H2].
  destruct (shouldWhisper _); [|exact H2].
  destruct (suggestedPairs _) as [|[src tgt] r]; [exact H2|].
  log_step. exact H2.
Qed.

Lemma applyVote_step (s : Session) (voteResult : VoteResult) :
  turnStep s (applyVote s voteResult) /\ logs (applyVote s voteResult) = logs s.
Proof.
  unfold applyVote.
  assert (Hgen : forall l s1, turnStep s s1 -> logs s1 = logs s ->
            turnStep s (fold_left (applyVoteStep voteResult) l s1)
            /\ logs (fold_left (applyVoteStep voteResult) l s1) = logs s).
  { induction l as [|[a v] r IH]; intros s1 H1 Hl; simpl; [now split|].
    apply IH.
    - destruct (findAgent a _); [|exact H1].
      apply turnStep_update; [exact H1| |discriminate]. cbn.
      intros x E _. injection E as <-. apply clamped_in_range.
    - destruct (findAgent a _); [|exact Hl]. exact Hl. }
  apply Hgen; [apply turnStep_refl|reflexivity].
Qed.

End Turn.

(** X24: processing a reply is a run of [updateAgentState] and [addLog]
    calls that keeps the roster, weights, influence, sanctions, round and
    status, keeps satisfactions in [0, 100] and inventories not
    negative, and appends log entries only, none of type VETO. *)
Theorem processReply_keeps_the_session_sound (s : Session) (speaker : AgentId)
    (parsed : option DualChannelOutput) (narration : bool) :
  let s' := processReply s speaker parsed narration in
  (exists effects, s' = fold_left applyEffect effects s)
  /\ List.map (fun a => (id a, currentWeight a, influence a, isSanctioned a))
              (agentStates (context s'))
     = List.map (fun a => (id a, currentWeight a, influence a, isSanctioned a))
                (agentStates (context s))
  /\ currentRound (context s') = currentRound (context s)
  /\ session_status s' = session_status s
  /\ (Forall satisfactionInRange (agentStates (context s)) ->
      Forall satisfactionInRange (agentStates (context s')))
  /\ (Forall resourcesNonNegative (agentStates (context s)) ->
      Forall resourcesNonNegative (agentStates (context s')))
  /\ (exists entries,
        logs s' = logs s ++ entries
        /\ Forall (fun e => log_type e <> LogType.VETO) entries).
Proof.
  intros s'.
  destruct (processReply_step s speaker parsed narration)
    as ([e He] & A & B & C & D).
  fold s' in He, A, B, C, D.
  destruct (applyEffects_keep e s) as (_ & K2 & K3).
  rewrite <- He in K2, K3.
  split; [exists e; exact He|]. split; [exact A|]. split; [exact K2|].
  split; [exact K3|]. split; [exact B|]. split; [exact C|exact D].
Qed.

Section TradeResources.

Lemma findAgent_update (l : list AgentState) (a b : AgentId) (u : AgentUpdate) :
  findAgent b (updateAgentState l a u)
  = option_map (fun x => if AgentId_eqb (id x) a then applyUpdate x u else x)
               (findAgent b l).
Proof.
  unfold updateAgentState. apply findAgent_map.
  intros x. destruct (AgentId_eqb (id x) a); reflexivity.
Qed.

Lemma applyTrade_found (s : Session) (source target : AgentId)
    (delta : ResourceDelta) (a b : AgentState) :
  source <> target ->
  findAgent source (agentStates (context s)) = Some a ->
  findAgent target (agentStates (context s)) = Some b ->
  exists a' b',
    findAgent source (agentStates (context (applyTrade s source target delta)))
    = Some a'
    /\ findAgent target (agentStates (context (applyTrade s source target delta)))
       = Some b'
    /\ resourceInventory a'
       = applyResourceDelta (resourceInventory a) (mapDelta Qopp delta)
    /\ resourceInventory b' = applyResourceDelta (resourceInventory b) delta.
Proof.
  intros Hne Ha Hb. unfold applyTrade. rewrite Ha, Hb. cbv zeta.
  unfold sessionUpdateAgent, setAgentStates. cbn [context agentStates].
  rewrite !findAgent_update, Ha, Hb. cbn [option_map].
  destruct (findAgent_spec _ _ _ Ha) as [_ Ia].
  destruct (findAgent_spec _ _ _ Hb) as [_ Ib].
  assert (Ess : AgentId_eqb source source = true)
    by (apply bool_decide_eq_true_2; reflexivity).
  assert (Ett : AgentId_eqb target target = true)
    by (apply bool_decide_eq_true_2; reflexivity).
  assert (Est : AgentId_eqb source target = false)
    by (apply bool_decide_eq_false_2; exact Hne).
  assert (Ets : AgentId_eqb target source = false)
    by (apply bool_decide_eq_false_2; congruence).
  rewrite Ia, Ib, Ess, Ets. cbn [applyUpdate id]. rewrite Ia, Ib, Est, Ett.
  eexists. eexists.
  split; [reflexivity|]. split; [reflexivity|]. split; reflexivity.
Qed.



End TradeResources.


Section AutoTradeEffect.

Lemma findAgent_NoDup (l : list AgentState) (a : AgentState) :
  NoDup (List.map id l) -> In a l -> findAgent (id a) l = Some a.
Proof.
  unfold findAgent, Js.find.
  induction l as [|x r IH]; simpl; intros Hnd Hin; [contradiction|].
  apply NoDup_cons in Hnd. destruct Hnd as [Hx Hr].
  destruct Hin as [->|Hin].
  - unfold AgentId_eqb. now rewrite bool_decide_eq_true_2.
  - destruct (AgentId_eqb (id x) (id a)) eqn:E.
    + exfalso. apply Hx. unfold AgentId_eqb in E.
      apply bool_decide_eq_true in E. rewrite E.
      apply list_elem_of_In. now apply in_map.
    + now apply IH.
Qed.

Lemma singleDelta_at (res c : ResourceCode) (x : Q) :
  mbind numericVal (deltaAt (singleDelta res x) c)
  = if bool_decide (c = res) then Some x else None.
Proof. destruct res, c; reflexivity. Qed.

Lemma applyResourceDelta_single (inv : ResourceInventory) (res c : ResourceCode)
    (x : Q) :
  inventoryAt (applyResourceDelta inv (singleDelta res x)) c
  = if bool_decide (c = res) then Js.max 0 (inventoryAt inv c + x)
    else inventoryAt inv c.
Proof. destruct res, c; reflexivity. Qed.

Lemma mapDelta_single (f : Q -> Q) (res : ResourceCode) (x : Q) :
  mapDelta f (singleDelta res x) = singleDelta res (f x).
Proof. destruct res; reflexivity. Qed.

(** X26: the automatic trade of the loop applies the demand of the first
    suggestion with the needy agent as source: for distinct agent ids,
    the needy agent ends with [max 0 (old - 15)] of its primary resource,
    the rich one with [max 0 (old + 15)], and nothing else changes. *)
Theorem auto_trade_takes_from_the_needy (s : Session)
    (trade : AutoTradeSuggestion) (rest : list AutoTradeSuggestion) :
  NoDup (List.map id (agentStates (context s))) ->
  detectAutoTradeOpportunity (agentStates (context s)) = trade :: rest ->
  exists poor rich poor' rich',
    findAgent (ats_sourceAgent trade) (agentStates (context s)) = Some poor
    /\ findAgent (ats_targetAgent trade) (agentStates (context s)) = Some rich
    /\ findAgent (ats_sourceAgent trade)
         (agentStates (context (applyTrade s (ats_sourceAgent trade)
                                  (ats_targetAgent trade) (ats_demand trade))))
       = Some poor'
    /\ findAgent (ats_targetAgent trade)
         (agentStates (context (applyTrade s (ats_sourceAgent trade)
                                  (ats_targetAgent trade) (ats_demand trade))))
       = Some rich'
    /\ (inventoryAt (resourceInventory poor)
          (AGENT_DEFINITIONS_primaryResource (ats_sourceAgent trade)) < 30)%Q
    /\ (60 < inventoryAt (resourceInventory rich)
               (AGENT_DEFINITIONS_primaryResource (ats_sourceAgent trade)))%Q
    /\ forall c,
         if bool_decide (c = AGENT_DEFINITIONS_primaryResource (ats_sourceAgent trade))
         then
           inventoryAt (resourceInventory poor') c
           = Js.max 0 (inventoryAt (resourceInventory poor) c - 15)
           /\ inventoryAt (resourceInventory rich') c
              = Js.max 0 (inventoryAt (resourceInventory rich) c + 15)
         else
           inventoryAt (resourceInventory poor') c
           = inventoryAt (resourceInventory poor) c
           /\ inventoryAt (resourceInventory rich') c
              = inventoryAt (resourceInventory rich) c.
Proof.
  intros Hnd Hd.
  assert (Hin : In trade (detectAutoTradeOpportunity (agentStates (context s))))
    by (rewrite Hd; now left).
  unfold detectAutoTradeOpportunity in Hin. apply in_flat_map in Hin.
  destruct Hin as (agent & Hagent & Hin).
  destruct (suggestionFor_sound _ agent Hagent) as [Hs _].
  pose proof (proj1 (List.Forall_forall _ _) Hs trade Hin) as Hsound.
  destruct Hsound as (Hne & poor & rich & Hp & Hr & Hpid & Hrid & Hsound).
  cbv zeta in Hsound. destruct Hsound as (Hlow & Hhigh & _ & Hdemand & _).
  rewrite Hpid in Hlow, Hhigh, Hdemand.
  assert (Fp : findAgent (ats_sourceAgent trade) (agentStates (context s))
               = Some poor).
  { rewrite <- Hpid. now apply findAgent_NoDup. }
  assert (Fr : findAgent (ats_targetAgent trade) (agentStates (context s))
               = Some rich).
  { rewrite <- Hrid. now apply findAgent_NoDup. }
  destruct (applyTrade_found s _ _ (ats_demand trade) poor rich Hne Fp Fr)
    as (poor' & rich' & Fp' & Fr' & Ip & Ir).
  exists poor, rich, poor', rich'.
  split; [exact Fp|]. split; [exact Fr|]. split; [exact Fp'|].
  split; [exact Fr'|]. split; [exact Hlow|]. split; [exact Hhigh|].
  intros c. rewrite Ip, Ir, Hdemand, mapDelta_single.
  rewrite !applyResourceDelta_single.
  destruct (bool_decide _); split; reflexivity.
Qed.

End AutoTradeEffect.

Lemma auto_trade_takes_from_the_needy_witness :
  NoDup (List.map id (agentStates (context
           (sessionOf [agentHolding ENTJ 16; agentHolding ISFJ 70]))))
  /\ detectAutoTradeOpportunity
       (agentStates (context
          (sessionOf [agentHolding ENTJ 16; agentHolding ISFJ 70])))
     = [{| ats_sourceAgent := ENTJ; ats_targetAgent := ISFJ;
           ats_offer := singleDelta HP 10; ats_demand := singleDelta TIME 15 |}]
  /\ exists poor rich poor' rich',
       findAgent ENTJ [agentHolding ENTJ 16; agentHolding ISFJ 70] = Some poor
       /\ findAgent ISFJ [agentHolding ENTJ 16; agentHolding ISFJ 70] = Some rich
       /\ findAgent ENTJ
            (agentStates (context
               (applyTrade (sessionOf [agentHolding ENTJ 16; agentHolding ISFJ 70])
                           ENTJ ISFJ (singleDelta TIME 15))))
          = Some poor'
       /\ findAgent ISFJ
            (agentStates (context
               (applyTrade (sessionOf [agentHolding ENTJ 16; agentHolding ISFJ 70])
                           ENTJ ISFJ (singleDelta TIME 15))))
          = Some rich'
       /\ (inventoryAt (resourceInventory poor) TIME < 30)%Q
       /\ (60 < inventoryAt (resourceInventory rich) TIME)%Q
       /\ forall c,
            if bool_decide (c = TIME)
            then
              inventoryAt (resourceInventory poor') c
              = Js.max 0 (inventoryAt (resourceInventory poor) c - 15)
              /\ inventoryAt (resourceInventory rich') c
                 = Js.max 0 (inventoryAt (resourceInventory rich) c + 15)
            else
              inventoryAt (resourceInventory poor') c
              = inventoryAt (resourceInventory poor) c
              /\ inventoryAt (resourceInventory rich') c
                 = inventoryAt (resourceInventory rich) c.
Proof.
  assert (H1 : NoDup (List.map id (agentStates (context
                 (sessionOf [agentHolding ENTJ 16; agentHolding ISFJ 70]))))).
  { apply (bool_decide_unpack _). vm_compute. exact I. }
  assert (H2 : detectAutoTradeOpportunity
                 (agentStates (context
                    (sessionOf [agentHolding ENTJ 16; agentHolding ISFJ 70])))
               = [{| ats_sourceAgent := ENTJ; ats_targetAgent := ISFJ;
                     ats_offer := singleDelta HP 10;
                     ats_demand := singleDelta TIME 15 |}]) by reflexivity.
  split; [exact H1|]. split; [exact H2|].
  exact (auto_trade_takes_from_the_needy
           (sessionOf [agentHolding ENTJ 16; agentHolding ISFJ 70]) _ _ H1 H2).
Defined.

(** ** Token shares, conflicts and statistics (schedule-engine.ts) *)

Section TokenShares.




End TokenShares.

Section Conflicts.

Lemma fold_demand (l : list ScheduleBlock) (acc : Q) :
  (fold_left (fun s b => s + tokenCost b) l acc == acc + sumOver tokenCost l)%Q.
Proof.
  revert acc. induction l as [|b r IH]; intros acc; simpl.
  - lra.
  - rewrite IH. lra.
Qed.

Lemma tokenDemand_sum (l : list ScheduleBlock) :
  (tokenDemand l == sumOver tokenCost l)%Q.
Proof. unfold tokenDemand. rewrite fold_demand. lra. Qed.

Lemma sumOver_app {T} (f : T -> Q) (l1 l2 : list T) :
  (sumOver f (l1 ++ l2) == sumOver f l1 + sumOver f l2)%Q.
Proof. induction l1 as [|x r IH]; simpl; [lra|]. rewrite IH. lra. Qed.

Lemma eqb_eq (a b : AgentId) : AgentId_eqb a b = true <-> a = b.
Proof. unfold AgentId_eqb. apply bool_decide_eq_true. Qed.

Lemma eqb_neq (a b : AgentId) : AgentId_eqb a b = false <-> a <> b.
Proof. unfold AgentId_eqb. apply bool_decide_eq_false. Qed.

Lemma addDemand_keys (d : list (AgentId * Q)) (o : AgentId) (x : Q) (k : AgentId) :
  In k (List.map fst (addDemand d o x)) <-> k = o \/ In k (List.map fst d).
Proof.
  induction d as [|[a t] r IH]; simpl.
  - intuition congruence.
  - destruct (AgentId_eqb a o) eqn:E; simpl.
    + apply eqb_eq in E. subst a. intuition congruence.
    + rewrite IH. tauto.
Qed.

Lemma addDemand_NoDup (d : list (AgentId * Q)) (o : AgentId) (x : Q) :
  NoDup (List.map fst d) -> NoDup (List.map fst (addDemand d o x)).
Proof.
  induction d as [|[a t] r IH]; simpl; intros H.
  - apply NoDup_cons. split; [rewrite list_elem_of_In; intros []|constructor].
  - apply NoDup_cons in H. destruct H as [Hn Hr].
    destruct (AgentId_eqb a o) eqn:E; simpl.
    + apply NoDup_cons. split; assumption.
    + apply NoDup_cons. split; [|now apply IH].
      rewrite list_elem_of_In in *.
      rewrite addDemand_keys. apply eqb_neq in E. intros [H|H]; auto.
Qed.

Lemma addDemand_sum (d : list (AgentId * Q)) (o : AgentId) (x : Q) :
  (sumOver snd (addDemand d o x) == sumOver snd d + x)%Q.
Proof.
  induction d as [|[a t] r IH]; simpl.
  - lra.
  - destruct (AgentId_eqb a o); simpl; [lra|]. rewrite IH. lra.
Qed.

Lemma addDemand_values (f : AgentId -> Q) (d : list (AgentId * Q))
    (o : AgentId) (x : Q) :
  NoDup (List.map fst d) ->
  (forall e, In e d -> (snd e == f (fst e))%Q) ->
  (~ In o (List.map fst d) -> (f o == 0)%Q) ->
  forall e, In e (addDemand d o x) ->
    (snd e == f (fst e) + (if AgentId_eqb (fst e) o then x else 0))%Q.
Proof.
  induction d as [|[a t] r IH]; simpl; intros Hnd Hv Ho e He.
  - destruct He as [<-|[]]. simpl.
    rewrite (proj2 (eqb_eq o o) eq_refl). rewrite Ho by tauto. lra.
  - apply NoDup_cons in Hnd. destruct Hnd as [Hn Hr].
    rewrite list_elem_of_In in Hn.
    destruct (AgentId_eqb a o) eqn:E.
    + apply eqb_eq in E. subst a. destruct He as [<-|He]; simpl.
      * rewrite (proj2 (eqb_eq o o) eq_refl).
        rewrite (Hv (o, t)) by now left. simpl. lra.
      * assert (Hne : fst e <> o).
        { intros Heq. apply Hn. rewrite <- Heq. now apply in_map. }
        rewrite (proj2 (eqb_neq _ _) Hne). rewrite (Hv e) by now right. lra.
    + destruct He as [<-|He]; simpl.
      * rewrite E. rewrite (Hv (a, t)) by now left. simpl. lra.
      * apply IH; try assumption.
        -- intros e' He'. apply Hv. now right.
        -- intros Hno. apply Ho. apply eqb_neq in E. intros [H|H]; auto.
Qed.

Lemma demandOf_snoc (a : AgentId) (pre : list ScheduleBlock) (b : ScheduleBlock) :
  (demandOf a (pre ++ [b])
   == demandOf a pre + (if AgentId_eqb a (ownerAgent b) then tokenCost b else 0))%Q.
Proof.
  unfold demandOf. rewrite List.filter_app, sumOver_app. simpl.
  assert (E : AgentId_eqb (ownerAgent b) a = AgentId_eqb a (ownerAgent b)).
  { unfold AgentId_eqb. apply bool_decide_ext. split; congruence. }
  rewrite E. destruct (AgentId_eqb a (ownerAgent b)); simpl; lra.
Qed.

Lemma demandOf_absent (a : AgentId) (blocks : list ScheduleBlock) :
  (forall b, In b blocks -> ownerAgent b <> a) -> (demandOf a blocks == 0)%Q.
Proof.
  unfold demandOf. induction blocks as [|b r IH]; intros H; simpl; [lra|].
  rewrite (proj2 (eqb_neq _ _) (H b (or_introl eq_refl))).
  apply IH. intros b' Hb'. apply H. now right.
Qed.

Lemma demandsFor_step (d : list (AgentId * Q)) (pre : list ScheduleBlock)
    (b : ScheduleBlock) :
  demandsFor d pre ->
  demandsFor (addDemand d (ownerAgent b) (tokenCost b)) (pre ++ [b]).
Proof.
  intros (Hnd & Hk & Hv & Hs). split; [|split; [|split]].
  - now apply addDemand_NoDup.
  - intros a. rewrite addDemand_keys, Hk. split.
    + intros [->|(b' & Hb' & <-)].
      * exists b. split; [apply in_or_app; right; now left|reflexivity].
      * exists b'. split; [apply in_or_app; now left|reflexivity].
    + intros (b' & Hb' & <-). apply in_app_or in Hb'.
      destruct Hb' as [Hb'|[<-|[]]]; [right; now exists b'|now left].
  - intros e He. rewrite demandOf_snoc.
    apply (addDemand_values (fun a => demandOf a pre) d); try assumption.
    intros Hno. apply demandOf_absent. intros b' Hb' Heq.
    apply Hno. apply Hk. now exists b'.
  - rewrite addDemand_sum, sumOver_app, Hs. simpl. lra.
Qed.

Lemma demandsFor_fold (blocks pre : list ScheduleBlock) (d : list (AgentId * Q)) :
  demandsFor d pre ->
  demandsFor
    (fold_left (fun d block => addDemand d (ownerAgent block) (tokenCost block))
               blocks d)
    (pre ++ blocks).
Proof.
  revert pre d. induction blocks as [|b r IH]; intros pre d H; simpl.
  - now rewrite app_nil_r.
  - replace (pre ++ b :: r) with ((pre ++ [b]) ++ r)
      by (rewrite <- app_assoc; reflexivity).
    apply IH. now apply demandsFor_step.
Qed.

Lemma demandsFor_all (blocks : list ScheduleBlock) :
  demandsFor
    (fold_left (fun d block => addDemand d (ownerAgent block) (tokenCost block))
               blocks [])
    blocks.
Proof.
  apply (demandsFor_fold blocks [] []).
  split; [constructor|]. split; [|split].
  - intros a. simpl. split; [intros []|intros (b & [] & _)].
  - intros e [].
  - simpl. lra.
Qed.

Lemma sumOver_map {T U} (f : U -> Q) (g : T -> U) (l : list T) :
  sumOver f (List.map g l) = sumOver (fun x => f (g x)) l.
Proof. induction l as [|x r IH]; simpl; [reflexivity|]. now rewrite IH. Qed.

(** X28: [detectTokenConflict] returns no conflict exactly when the
    demand fits the budget; otherwise each owner is listed once with the
    cost of its blocks, the requests add up to the demand, and the
    deadline and negotiable parts add up to it as well. *)
Theorem detectTokenConflict_spec (blocks : list ScheduleBlock) (totalBudget : Q) :
  (detectTokenConflict blocks totalBudget = None
   <-> (sumOver tokenCost blocks <= totalBudget)%Q)
  /\ forall conflict,
       detectTokenConflict blocks totalBudget = Some conflict ->
       (totalBudget < totalDemand conflict)%Q
       /\ (totalDemand conflict == sumOver tokenCost blocks)%Q
       /\ NoDup (List.map ca_agentId (conflictingAgents conflict))
       /\ (forall a, In a (List.map ca_agentId (conflictingAgents conflict))
                     <-> exists b, In b blocks /\ ownerAgent b = a)
       /\ Forall (fun c =>
                    (requestedTokens c == demandOf (ca_agentId c) blocks)%Q
                    /\ priority c
                       = if AGENT_DEFINITIONS_hasVetoPower (ca_agentId c)
                         then 2 else 1)
                 (conflictingAgents conflict)
       /\ (sumOver requestedTokens (conflictingAgents conflict)
           == totalDemand conflict)%Q
       /\ (deadlineLocked conflict + negotiableTokens conflict
           == totalDemand conflict)%Q
       /\ (deadlineLocked conflict
           == sumOver tokenCost (List.filter isDeadline blocks))%Q
       /\ (overagePercent conflict = None <-> (totalBudget == 0)%Q).
Proof.
  unfold detectTokenConflict. cbv zeta.
  destruct (Js.leb (tokenDemand blocks) totalBudget) eqn:E.
  - apply leb_le in E. rewrite tokenDemand_sum in E.
    split; [tauto|]. intros conflict H. discriminate.
  - assert (Hlt : (totalBudget < tokenDemand blocks)%Q).
    { apply Qnot_le_lt. intros H. apply leb_le in H. congruence. }
    split.
    + split; [discriminate|]. intros H. rewrite tokenDemand_sum in Hlt. lra.
    + intros conflict H. injection H as <-.
      cbn [totalDemand conflictingAgents deadlineLocked negotiableTokens
           overagePercent].
      destruct (demandsFor_all blocks) as (Hnd & Hk & Hv & Hs).
      rewrite !List.map_map. cbn [ca_agentId].
      split; [exact Hlt|]. split; [apply tokenDemand_sum|].
      split; [exact Hnd|]. split; [exact Hk|].
      split.
      { apply List.Forall_forall. intros c Hc.
        apply in_map_iff in Hc. destruct Hc as (e & <- & He).
        cbn. split; [now apply Hv|reflexivity]. }
      split.
      { rewrite sumOver_map. cbn [requestedTokens].
        rewrite tokenDemand_sum. exact Hs. }
      split; [lra|]. split; [apply tokenDemand_sum|].
      destruct (Qeq_bool totalBudget 0) eqn:Eb.
      * apply Qeq_bool_iff in Eb. tauto.
      * apply Qeq_bool_neq in Eb. split; [discriminate|tauto].
Qed.

End Conflicts.

Section EscrowDeductionProps.

Lemma fold_frozen (f : ScheduleBlock -> Z) (l : list ScheduleBlock) (acc : Z) :
  fold_left (fun sum b => sum + f b) l acc = acc + sumZOver f l.
Proof.
  revert acc. induction l as [|b r IH]; intros acc; simpl; [lia|].
  rewrite IH. lia.
Qed.

Lemma sumZOver_nonneg {T} (f : T -> Z) (l : list T) :
  Forall (fun x => 0 <= f x) l -> 0 <= sumZOver f l.
Proof. induction 1 as [|x r Hx _ IH]; simpl; lia. Qed.

(** X29: [phase0EscrowDeduction] freezes the rounded grade C cost of the
    deadline blocks, leaves a liquid budget that is not negative, and
    marks every deadline block FROZEN (also a RELEASED or BURNED one),
    changing nothing else. *)
Theorem phase0EscrowDeduction_spec (blocks : list ScheduleBlock)
    (totalBudget : Q) :
  let marked := fst (phase0EscrowDeduction blocks totalBudget) in
  let r := snd (phase0EscrowDeduction blocks totalBudget) in
  frozenForDeadlines r
  = sumZOver (fun b => Js.round (tokenCost b * (2 # 10)))
             (List.filter isDeadline blocks)
  /\ (0 <= liquidBudget r)%Q
  /\ (totalBudget <= liquidBudget r + inject_Z (frozenForDeadlines r))%Q
  /\ ((inject_Z (frozenForDeadlines r) <= totalBudget)%Q ->
      (liquidBudget r + inject_Z (frozenForDeadlines r) == totalBudget)%Q)
  /\ (Forall (fun b => (0 <= tokenCost b)%Q) blocks ->
      0 <= frozenForDeadlines r /\ (liquidBudget r <= Qmax 0 totalBudget)%Q)
  /\ List.map escrowState marked
     = List.map (fun b => if isDeadline b then Some FROZEN else escrowState b)
                blocks
  /\ List.map (fun b => (block_id b, category b, taskName b, tokenCost b,
                         modelTier b, isDeadline b, isLocked b, ownerAgent b,
                         finalGrade b)) marked
     = List.map (fun b => (block_id b, category b, taskName b, tokenCost b,
                           modelTier b, isDeadline b, isLocked b, ownerAgent b,
                           finalGrade b)) blocks.
Proof.
  cbv zeta. unfold phase0EscrowDeduction. cbn [fst snd liquidBudget frozenForDeadlines].
  rewrite fold_frozen, Z.add_0_l.
  change (LEVEL_COST_MULTIPLIERS TaskGrade.C) with (2 # 10)%Q.
  set (frozen := sumZOver _ _).
  pose proof (max_spec 0 (totalBudget - inject_Z frozen)) as M.
  pose proof (Q.le_max_l 0 (totalBudget - inject_Z frozen)) as M1.
  pose proof (Q.le_max_r 0 (totalBudget - inject_Z frozen)) as M2.
  split; [reflexivity|].
  split; [lra|]. split; [lra|].
  split.
  { intros H. rewrite M. rewrite Q.max_r by lra. lra. }
  split.
  { intros Hpos.
    assert (Hf : 0 <= frozen).
    { apply sumZOver_nonneg. apply List.Forall_forall. intros b Hb.
      apply filter_In in Hb. destruct Hb as [Hb _].
      apply round_nonneg.
      pose proof (proj1 (List.Forall_forall _ _) Hpos b Hb) as H0.
      cbv beta in H0. nra. }
    split; [exact Hf|].
    rewrite M. apply Q.max_le_compat_l.
    rewrite Zle_Qle in Hf. change (inject_Z 0) with 0%Q in Hf. lra. }
  split.
  - rewrite List.map_map. apply List.map_ext. intros b.
    destruct (isDeadline b); reflexivity.
  - rewrite List.map_map. apply List.map_ext. intros b.
    destruct (isDeadline b) eqn:E; cbn; rewrite ?E; reflexivity.
Qed.

End EscrowDeductionProps.

Section Stats.

Lemma breakdown_fold (blocks pre : list ScheduleBlock)
    (acc : (DigitalTaskCategory -> Q) * (ModelTier -> Z)) :
  (forall c, (fst acc c
              == sumOver tokenCost
                   (List.filter (fun b => bool_decide (category b = c)) pre))%Q) ->
  (forall t, snd acc t
             = Z.of_nat (length (List.filter
                                   (fun b => bool_decide (modelTier b = t)) pre))) ->
  let out :=
    fold_left (fun acc b =>
      (fun c => if decide (c = category b) then (fst acc c + tokenCost b)%Q
                else fst acc c,
       fun t => if decide (t = modelTier b) then snd acc t + 1 else snd acc t))
      blocks acc in
  (forall c, (fst out c
              == sumOver tokenCost
                   (List.filter (fun b => bool_decide (category b = c))
                                (pre ++ blocks)))%Q)
  /\ (forall t, snd out t
                = Z.of_nat (length (List.filter
                                      (fun b => bool_decide (modelTier b = t))
                                      (pre ++ blocks)))).
Proof.
  revert pre acc. induction blocks as [|b r IH]; intros pre acc Hc Ht; cbv zeta.
  - simpl. rewrite app_nil_r. split; assumption.
  - simpl fold_left.
    replace (pre ++ b :: r) with ((pre ++ [b]) ++ r)
      by (rewrite <- app_assoc; reflexivity).
    apply IH; cbn [fst snd].
    + intros c. rewrite List.filter_app, sumOver_app. simpl.
      destruct (decide (c = category b)) as [->|Hne].
      * rewrite bool_decide_eq_true_2 by reflexivity. simpl. rewrite Hc. lra.
      * rewrite bool_decide_eq_false_2 by congruence. simpl. rewrite Hc. lra.
    + intros t. rewrite List.filter_app, length_app. simpl.
      destruct (decide (t = modelTier b)) as [->|Hne].
      * rewrite bool_decide_eq_true_2 by reflexivity. simpl. rewrite Ht. lia.
      * rewrite bool_decide_eq_false_2 by congruence. simpl. rewrite Ht. lia.
Qed.

Lemma category_partition (blocks : list ScheduleBlock) :
  (sumOver (fun c => sumOver tokenCost
                       (List.filter (fun b => bool_decide (category b = c)) blocks))
           allCategories
   == sumOver tokenCost blocks)%Q.
Proof.
  induction blocks as [|b r IH]; [reflexivity|].
  simpl in IH |- *.
  destruct (category b); simpl; lra.
Qed.

Lemma tier_partition (blocks : list ScheduleBlock) :
  sumZOver (fun t => Z.of_nat (length (List.filter
                                         (fun b => bool_decide (modelTier b = t))
                                         blocks)))
           allTiers
  = Z.of_nat (length blocks).
Proof.
  induction blocks as [|b r IH]; [reflexivity|].
  simpl in IH |- *.
  destruct (modelTier b); simpl; lia.
Qed.

Lemma sumOver_ext {T} (f g : T -> Q) (l : list T) :
  (forall x, (f x == g x)%Q) -> (sumOver f l == sumOver g l)%Q.
Proof. intros H. induction l as [|x r IH]; simpl; [lra|]. rewrite IH, H. lra. Qed.

Lemma filter_length_le {T} (p : T -> bool) (l : list T) :
  (length (List.filter p l) <= length l)%nat.
Proof. induction l as [|x r IH]; simpl; [lia|]. destruct (p x); simpl; lia. Qed.

(** X30: in [calculateStats] the category breakdown adds up to the tokens
    used, the tier breakdown to the task count, and the deficit is
    [max 0 (used - budget)]. *)
Theorem calculateStats_consistent (blocks : list ScheduleBlock) (totalBudget : Q) :
  let stats := calculateStats blocks totalBudget in
  (totalTokensUsed stats == sumOver tokenCost blocks)%Q
  /\ (forall c, (categoryBreakdown stats c
                 == sumOver tokenCost
                      (List.filter (fun b => bool_decide (category b = c)) blocks))%Q)
  /\ (sumOver (categoryBreakdown stats) allCategories == totalTokensUsed stats)%Q
  /\ (forall t, modelTierBreakdown stats t
                = Z.of_nat (length (List.filter
                                      (fun b => bool_decide (modelTier b = t))
                                      blocks)))
  /\ sumZOver (modelTierBreakdown stats) allTiers = taskCount stats
  /\ 0 <= deadlineTaskCount stats <= taskCount stats
  /\ (0 <= tokenDeficit stats)%Q
  /\ ((tokenDeficit stats == 0)%Q <-> (totalTokensUsed stats <= totalBudget)%Q)
  /\ ((totalBudget < totalTokensUsed stats)%Q ->
      (tokenDeficit stats == totalTokensUsed stats - totalBudget)%Q)
  /\ ((totalTokensUsed stats <= totalBudget)%Q ->
      (overBudgetPercent stats == 0)%Q).
Proof.
  cbv zeta. unfold calculateStats.
  cbn [totalTokensUsed categoryBreakdown modelTierBreakdown taskCount
       deadlineTaskCount tokenDeficit overBudgetPercent].
  destruct (breakdown_fold blocks []
              (fun _ : DigitalTaskCategory => 0%Q, fun _ : ModelTier => 0))
    as [Hc Ht]; [intros c; simpl; lra|intros t; reflexivity|].
  cbv zeta in Hc, Ht. rewrite app_nil_l in Hc, Ht.
  pose proof (max_spec 0 (tokenDemand blocks - totalBudget)) as M.
  pose proof (Q.le_max_l 0 (tokenDemand blocks - totalBudget)) as M1.
  pose proof (Q.le_max_r 0 (tokenDemand blocks - totalBudget)) as M2.
  split; [apply tokenDemand_sum|].
  split; [exact Hc|].
  split.
  { rewrite (sumOver_ext _ _ _ Hc), category_partition, tokenDemand_sum.
    reflexivity. }
  split; [exact Ht|].
  split.
  { rewrite (sumZOver_ext _ _ _ (fun t _ => Ht t)). apply tier_partition. }
  split.
  { pose proof (filter_length_le isDeadline blocks). lia. }
  split; [lra|].
  split.
  { split; intros H.
    - lra.
    - rewrite M. rewrite Q.max_l by lra. reflexivity. }
  split.
  { intros H. rewrite M. rewrite Q.max_r by lra. reflexivity. }
  intros H.
  assert (Hd : (Js.max 0 (tokenDemand blocks - totalBudget) == 0)%Q).
  { rewrite M. rewrite Q.max_l by lra. reflexivity. }
  destruct (Js.gtb totalBudget 0); [|reflexivity].
  rewrite Hd. unfold Qdiv. ring.
Qed.

End Stats.
